(** * Searchable: the search bar and filter tokens of a table

    A shallow embedding of [src/ui/components/searchable/Searchable.js]:
    the higher-order component that puts a search box with filter tokens on
    top of a table.  The embedding follows the class body: the component
    instance is an explicit record (props, state, the input ref, the pending
    debounced call), handlers are computations in a small state-and-exception
    monad, and calls into the DOM, local storage and the callback props are
    recorded in an effect log. *)

From Stdlib Require Import List NArith ZArith Bool Lia String Ascii.
From Stdlib Require Import ZifyBool ZifyN.
Import ListNotations.

Set Implicit Arguments.

(** ** JavaScript strings

    A JavaScript string is a sequence of UTF-16 code units. *)

Definition jsstring := list N.

(** The code unit of an ASCII character, and the string of an ASCII literal. *)
Definition ch (a : ascii) : N := N_of_ascii a.

Definition lit (s : string) : jsstring := map N_of_ascii (list_ascii_of_string s).

Module JS.

(** [a === b] on strings. *)
Fixpoint str_eqb (a b : jsstring) : bool :=
  match a, b with
  | [], [] => true
  | x :: a', y :: b' => N.eqb x y && str_eqb a' b'
  | _, _ => false
  end.

(** [s.length] as a number. *)
Definition len (s : jsstring) : Z := Z.of_nat (List.length s).

(** [s.indexOf(c)] for a one-character needle [c]: the index of the first
    occurrence, or -1.  Every needle in the file is a single character. *)
Fixpoint indexOf (s : jsstring) (c : N) : Z :=
  match s with
  | [] => -1
  | x :: s' =>
      if N.eqb x c then 0
      else let i := indexOf s' c in
           if (i <? 0)%Z then -1 else (1 + i)%Z
  end.

(** [s.split(sep)] for a one-character separator: the pieces between the
    occurrences of [sep].  The array always has a first piece (the whole
    string when [sep] does not occur), so it is given as that piece and the
    array of the following ones, the way [[key, ...value]] takes it apart. *)
Fixpoint split (s : jsstring) (sep : N) : jsstring * list jsstring :=
  match s with
  | [] => ([], [])
  | x :: s' =>
      let (p, ps) := split s' sep in
      if N.eqb x sep then ([], p :: ps) else (x :: p, ps)
  end.

(** [pieces.join(sep)]. *)
Fixpoint join (pieces : list jsstring) (sep : N) : jsstring :=
  match pieces with
  | [] => []
  | p :: ps =>
      match ps with
      | [] => p
      | _ :: _ => p ++ sep :: join ps sep
      end
  end.

(** White space and line terminators: what [\s] matches and [trim] strips. *)
Definition isSpace (c : N) : bool :=
  (N.leb 9 c && N.leb c 13)            (* TAB LF VT FF CR *)
  || N.eqb c 32                         (* SP *)
  || N.eqb c 160                        (* NBSP *)
  || N.eqb c 5760                       (* U+1680 *)
  || (N.leb 8192 c && N.leb c 8202)     (* U+2000 .. U+200A *)
  || N.eqb c 8232 || N.eqb c 8233       (* LS PS *)
  || N.eqb c 8239 || N.eqb c 8287       (* U+202F U+205F *)
  || N.eqb c 12288                      (* U+3000 *)
  || N.eqb c 65279.                     (* U+FEFF *)

Fixpoint dropWhile (p : N -> bool) (s : jsstring) : jsstring :=
  match s with
  | [] => []
  | x :: s' => if p x then dropWhile p s' else s
  end.

(** [s.trim()]. *)
Definition trim (s : jsstring) : jsstring :=
  rev (dropWhile isSpace (rev (dropWhile isSpace s))).

(** [s.substring(start)]: [start] is clamped to [0 .. s.length]. *)
Definition substring (s : jsstring) (start : Z) : jsstring :=
  skipn (Z.to_nat (Z.min (Z.max start 0) (len s))) s.

(** [s.slice(b, e)]: a negative bound counts from the end. *)
Definition slice (s : jsstring) (b e : Z) : jsstring :=
  let rel (i : Z) :=
    if (i <? 0)%Z then Z.max (len s + i) 0 else Z.min i (len s) in
  firstn (Z.to_nat (rel e - rel b)) (skipn (Z.to_nat (rel b)) s).

(** [a.findIndex(p)]: the index of the first element that satisfies [p],
    or -1. *)
Fixpoint findIndex {A} (p : A -> bool) (a : list A) : Z :=
  match a with
  | [] => -1
  | x :: a' =>
      if p x then 0
      else let i := findIndex p a' in
           if (i <? 0)%Z then -1 else (1 + i)%Z
  end.

(** [a[i]]: [None] is [undefined], also for a negative index. *)
Definition get {A} (a : list A) (i : Z) : option A :=
  if (i <? 0)%Z then None else nth_error a (Z.to_nat i).

(** [a.filter((x, i) => p x i)], the callback seeing the index. *)
Fixpoint filter_from {A} (i : Z) (p : A -> Z -> bool) (a : list A) : list A :=
  match a with
  | [] => []
  | x :: a' =>
      if p x i then x :: filter_from (i + 1) p a' else filter_from (i + 1) p a'
  end.

Definition filteri {A} (p : A -> Z -> bool) (a : list A) : list A :=
  filter_from 0 p a.

(** [a[i] = x] on a copy, for an index inside the array. *)
Fixpoint set_nth {A} (a : list A) (i : nat) (x : A) : list A :=
  match a, i with
  | [], _ => []
  | _ :: a', O => x :: a'
  | y :: a', S j => y :: set_nth a' j x
  end.

(** [a.splice(start, deleteCount, x)] on a copy: a negative [start] counts
    from the end, [start] is clamped to the array and [deleteCount] to what is
    left behind [start]; the deleted elements give way to [x]. *)
Definition splice {A} (a : list A) (start deleteCount : Z) (x : A) : list A :=
  let len := Z.of_nat (List.length a) in
  let actualStart :=
    if (start <? 0)%Z then Z.max (len + start) 0 else Z.min start len in
  let actualDeleteCount :=
    Z.min (Z.max deleteCount 0) (len - actualStart) in
  firstn (Z.to_nat actualStart) a
  ++ x :: skipn (Z.to_nat (actualStart + actualDeleteCount)) a.

End JS.

(** ** Regular expressions

    The two patterns of [matchTags] are built from character classes,
    greedy quantifiers on one-character atoms, an alternative and the end
    anchor.  The matcher is the backtracking matcher of the language
    definition in continuation-passing style: [run r k s] matches [r] at the
    front of [s] and hands the rest to [k]; when [k] fails, the last choice
    (a shorter repetition, the other alternative) is tried. *)

Module RegExp.

Inductive regex : Type :=
| Class (cls : N -> bool)          (* one character of a class *)
| Star (cls : N -> bool)           (* [cls]*, greedy *)
| Plus (cls : N -> bool)           (* [cls]+, greedy *)
| Opt (cls : N -> bool)            (* [cls]?, greedy *)
| EndOfInput                       (* $ without the m flag *)
| Alt (r1 r2 : regex)              (* r1|r2 *)
| Seq (r1 r2 : regex).

Definition cont := jsstring -> option jsstring.

Definition orElse (a b : option jsstring) : option jsstring :=
  match a with
  | Some r => Some r
  | None => b
  end.

Fixpoint star (cls : N -> bool) (k : cont) (s : jsstring) : option jsstring :=
  match s with
  | [] => k []
  | c :: s' => if cls c then orElse (star cls k s') (k s) else k s
  end.

Fixpoint run (r : regex) (k : cont) (s : jsstring) : option jsstring :=
  match r with
  | Class cls =>
      match s with
      | c :: s' => if cls c then k s' else None
      | [] => None
      end
  | Star cls => star cls k s
  | Plus cls =>
      match s with
      | c :: s' => if cls c then star cls k s' else None
      | [] => None
      end
  | Opt cls =>
      match s with
      | c :: s' => if cls c then orElse (k s') (k s) else k s
      | [] => k []
      end
  | EndOfInput =>
      match s with
      | [] => k []
      | _ :: _ => None
      end
  | Alt r1 r2 => orElse (run r1 k s) (run r2 k s)
  | Seq r1 r2 => run r1 (run r2 k) s
  end.

(** A match of [r] at the front of [s]: the input left after it. *)
Definition matchAt (r : regex) (s : jsstring) : option jsstring :=
  run r (fun rest => Some rest) s.

(** The loop of [String.prototype.match] for a pattern with the g flag, on
    the input from the current position on.  [skip] is the distance from the
    current position to [lastIndex]: the positions inside the previous match
    are passed over.  At [lastIndex] the pattern is tried; a failure moves one
    position on, a match is recorded and moves [lastIndex] to its end (one
    position on when the match is empty). *)
Fixpoint scan (r : regex) (skip : nat) (s : jsstring) : list jsstring :=
  match s with
  | [] =>
      match skip, matchAt r [] with
      | O, Some _ => [[]]
      | _, _ => []
      end
  | _ :: s' =>
      match skip with
      | S n => scan r n s'
      | O =>
          match matchAt r s with
          | Some rest =>
              let n := (List.length s - List.length rest)%nat in
              firstn n s :: scan r (Nat.pred n) s'
          | None => scan r 0 s'
          end
      end
  end.

(** [s.match(r)] with the g flag: every match in order, or [null]. *)
Definition String_match (s : jsstring) (r : regex) : option (list jsstring) :=
  match scan r 0 s with
  | [] => None
  | ms => Some ms
  end.

End RegExp.

(** ** Filters, props and state *)

(** ['include' | 'exclude' | 'enum']. *)
Inductive FilterType : Type := Include | Exclude | Enum.

Definition FilterType_eqb (a b : FilterType) : bool :=
  match a, b with
  | Include, Include | Exclude, Exclude | Enum, Enum => true
  | _, _ => false
  end.

(** The value of a filter: a string for include and exclude filters, an array
    of strings for enum filters. *)
Inductive FilterValue : Type :=
| Str (s : jsstring)
| Strs (l : list jsstring).

(** The type [Filter] is imported from the package; the record has the fields
    this file reads and writes.  [enum] lists the [value]s of the enum
    entries; an absent field is [None]. *)
Record Filter : Type := mkFilter {
  type : FilterType;
  key : jsstring;
  value : FilterValue;
  enum : option (list jsstring);
  persistent : option bool;
}.

(** The object literal [{type, key, value}]. *)
Definition newFilter (t : FilterType) (k v : jsstring) : Filter :=
  mkFilter t k (Str v) None None.

Definition set_enum (f : Filter) (e : option (list jsstring)) : Filter :=
  mkFilter (type f) (key f) (value f) e (persistent f).

Definition set_value (f : Filter) (v : FilterValue) : Filter :=
  mkFilter (type f) (key f) v (enum f) (persistent f).

(** An array of filters is an object: [ref] is its identity, which [!==]
    compares, and [items] its elements. *)
Record FilterArray : Type := mkArray {
  ref : nat;
  items : list Filter;
}.

Record Props : Type := mkProps {
  tableKey : option jsstring;
  (* the own keys of the [columns] object, in the order of [Object.keys] *)
  columns : option (list jsstring);
  (* whether the callback is given; its calls are logged *)
  onFilterChange : bool;
  defaultFilters : option FilterArray;
}.

Module State.
Record t : Type := make {
  filters : FilterArray;
  focusedToken : Z;
  searchTerm : jsstring;
  hasFocus : bool;
}.
End State.

(** The input element: its text. *)
Record HTMLInputElement : Type := mkInput {
  input_value : jsstring;
}.

Module Event.
Record t : Type := make {
  key : jsstring;
  metaKey : bool;
  ctrlKey : bool;
}.
End Event.

(** What the component does to its surroundings.  The log records the calls
    a method makes; what the surroundings do in answer (the focus and blur
    events that [focus()] and [blur()] fire, which [onInputFocus] and
    [onInputBlur] handle) is not part of the method that makes the call. *)
Inductive Effect : Type :=
| preventDefault                       (* e.preventDefault() *)
| focus                                (* this._inputRef.focus() *)
| blur                                 (* this._inputRef.blur() *)
  (* window.localStorage.setItem(k, JSON.stringify({searchTerm, filters})) *)
| setItem (k : jsstring) (searchTerm : jsstring) (filters : list Filter)
  (* this.props.onFilterChange(filters) *)
| callOnFilterChange (filters : FilterArray).

(** The component instance and what surrounds it: [pending] holds the
    arguments of the last call of the debounced [matchTags] that is still
    waiting for its timer, [fresh] is the identity of the next array, [log]
    the effects so far, oldest first. *)
Record Component : Type := mkComponent {
  props : Props;
  state : State.t;
  _inputRef : option HTMLInputElement;
  pending : option (jsstring * bool);
  fresh : nat;
  log : list Effect;
}.

(** ** The monad of handlers

    A handler runs on the component and either returns or throws a
    [TypeError]; what it did before throwing stays done. *)

Inductive Outcome (A : Type) : Type :=
| Returns (a : A)
| TypeError.
Arguments Returns {A} a.
Arguments TypeError {A}.

Definition M (A : Type) : Type := Component -> Outcome A * Component.

Definition ret {A} (a : A) : M A := fun c => (Returns a, c).

Definition bind {A B} (m : M A) (k : A -> M B) : M B :=
  fun c =>
    match m c with
    | (Returns a, c') => k a c'
    | (TypeError, c') => (TypeError, c')
    end.

Definition throw {A} : M A := fun c => (TypeError, c).

Definition this : M Component := fun c => (Returns c, c).

Declare Scope js_scope.
Delimit Scope js_scope with js.
Notation "x <- m ;; k" := (bind m (fun x => k))
  (at level 61, m at next level, right associativity) : js_scope.
Notation "m ;; k" := (bind m (fun _ => k))
  (at level 61, right associativity) : js_scope.
Local Open Scope js_scope.

(** [a.forEach(f)]. *)
Fixpoint forEach {A} (a : list A) (f : A -> M unit) : M unit :=
  match a with
  | [] => ret tt
  | x :: a' => f x ;; forEach a' f
  end.

Definition set_state (st : State.t) (c : Component) : Component :=
  mkComponent (props c) st (_inputRef c) (pending c) (fresh c) (log c).

Definition set_pending (p : option (jsstring * bool)) (c : Component)
  : Component :=
  mkComponent (props c) (state c) (_inputRef c) p (fresh c) (log c).

Definition set_fresh (n : nat) (c : Component) : Component :=
  mkComponent (props c) (state c) (_inputRef c) (pending c) n (log c).

Definition set_log (l : list Effect) (c : Component) : Component :=
  mkComponent (props c) (state c) (_inputRef c) (pending c) (fresh c) l.

Definition set_inputRef (i : option HTMLInputElement) (c : Component)
  : Component :=
  mkComponent (props c) (state c) i (pending c) (fresh c) (log c).

(** [this.setState(partial)]: the partial state is merged into the state.
    The handlers below run outside the batching of the framework (a native
    keydown listener, a timer) or call [setState] once, so the merge is
    visible when the call returns.  The framework then renders the component
    again and calls [componentDidUpdate], which is a method of its own below:
    the result of a handler is the component as the handler's own statements
    leave it, and the statements about handlers speak of the state, of the
    outcome and of the calls the handler itself makes. *)
Definition setState (merge : State.t -> State.t) : M unit :=
  fun c => (Returns tt, set_state (merge (state c)) c).

Definition emit (e : Effect) : M unit :=
  fun c => (Returns tt, set_log (log c ++ [e]) c).

(** A new array object with the given elements. *)
Definition newArray (l : list Filter) : M FilterArray :=
  fun c => (Returns (mkArray (fresh c) l), set_fresh (S (fresh c)) c).

Definition setPending (p : option (jsstring * bool)) : M unit :=
  fun c => (Returns tt, set_pending p c).

(** The user has typed: the input element, when it is attached, holds
    [value]. *)
Definition setInputValue (value : jsstring) : M unit :=
  fun c =>
    (Returns tt,
     set_inputRef
       (match _inputRef c with
        | Some _ => Some (mkInput value)
        | None => None
        end) c).

Definition with_filters (a : FilterArray) (s : State.t) : State.t :=
  State.make a (State.focusedToken s) (State.searchTerm s) (State.hasFocus s).

Definition with_focusedToken (i : Z) (s : State.t) : State.t :=
  State.make (State.filters s) i (State.searchTerm s) (State.hasFocus s).

Definition with_searchTerm (t : jsstring) (s : State.t) : State.t :=
  State.make (State.filters s) (State.focusedToken s) t (State.hasFocus s).

(** Truthiness of a string that may be [undefined]. *)
Definition truthy (s : option jsstring) : bool :=
  match s with
  | Some (_ :: _) => true
  | _ => false
  end.

Definition isSome {A} (o : option A) : bool :=
  match o with
  | Some _ => true
  | None => false
  end.

(** [a !== b] on arrays that may be [undefined]. *)
Definition differ (a b : option FilterArray) : bool :=
  match a, b with
  | Some x, Some y => negb (Nat.eqb (ref x) (ref y))
  | None, None => false
  | _, _ => true
  end.

(** ** The lifecycle

    The lifecycle methods also call the host: they add and remove the keydown
    listener of the document and read local storage.  These calls are logged
    beside the component. *)

Inductive HostCall : Type :=
  (* window.document.addEventListener('keydown', this.onKeyDown) *)
| addKeydownListener
  (* window.document.removeEventListener('keydown', this.onKeyDown) *)
| removeKeydownListener
  (* window.localStorage.getItem(k) *)
| getItem (k : jsstring)
  (* window.localStorage.removeItem(k) *)
| removeItem (k : jsstring).

(** What local storage holds under the key of the component, as [JSON.parse]
    sees it: no item ([getItem] gives [null], and ['null'] is parsed), a text
    that [JSON.parse] rejects, or the object with the fields [searchTerm] and
    [filters] that [componentDidUpdate] writes.  Other JSON values are not
    covered. *)
Inductive Stored : Type :=
| NoItem
| Unparsable
| Saved (searchTerm : jsstring) (filters : list Filter).

Record Mounted : Type := mkMounted {
  component : Component;
  calls : list HostCall;
}.

Definition L (A : Type) : Type := Mounted -> Outcome A * Mounted.

Definition retL {A} (a : A) : L A := fun w => (Returns a, w).

Definition bindL {A B} (m : L A) (k : A -> L B) : L B :=
  fun w =>
    match m w with
    | (Returns a, w') => k a w'
    | (TypeError, w') => (TypeError, w')
    end.

(** A handler of the component inside a lifecycle method. *)
Definition liftL {A} (m : M A) : L A :=
  fun w =>
    let (o, c') := m (component w) in (o, mkMounted c' (calls w)).

Definition call (h : HostCall) : L unit :=
  fun w => (Returns tt, mkMounted (component w) (calls w ++ [h])).

Declare Scope life_scope.
Delimit Scope life_scope with life.
Notation "x <- m ;; k" := (bindL m (fun x => k))
  (at level 61, m at next level, right associativity) : life_scope.
Notation "m ;; k" := (bindL m (fun _ => k))
  (at level 61, right associativity) : life_scope.

(** [a.forEach(f)] for a callback that writes into an array [b]. *)
Fixpoint foldM {A B} (f : B -> A -> M B) (a : list A) (b : B) : M B :=
  match a with
  | [] => ret b
  | x :: a' => b' <- f b x ;; foldM f a' b'
  end.

(** ** The component *)

Module Searchable.

Import RegExp.

Section Methods.

(** [process.platform], and [String.prototype.toUpperCase], whose table of
    case mappings is the host's. *)
Variable platform : jsstring.
Variable toUpperCase : jsstring -> jsstring.

Definition getTableKey (c : Component) : option jsstring :=
  if truthy (tableKey (props c)) then tableKey (props c)
  else
    match columns (props c) with
    | Some cols =>
        (* if we have a table, we are using its columns to identify it *)
        Some (lit "TABLE_COLUMNS_" ++ toUpperCase (JS.join cols (ch "_")))
    | None => None
    end.

(** [s || ''] for a string that may be [undefined]. *)
Definition orEmpty (s : option jsstring) : jsstring :=
  match s with
  | Some k => if truthy s then k else []
  | None => []
  end.

Definition getPersistKey (c : Component) : jsstring :=
  lit "SEARCHABLE_STORAGE_KEY_" ++ orEmpty (getTableKey c).

Definition hasFocus (c : Component) : bool :=
  negb (Z.eqb (State.focusedToken (state c)) (-1)) || State.hasFocus (state c).

(** One step of the merge of the default filters into a copy of the
    filters: the default filter replaces the filter of its key, or is pushed
    at the end. *)
Definition mergeDefault (mergedFilters : list Filter) (defaultFilter : Filter)
  : list Filter :=
  let filterIndex :=
    JS.findIndex (fun f => JS.str_eqb (key f) (key defaultFilter))
      mergedFilters in
  if (filterIndex >? -1)%Z
  then JS.set_nth mergedFilters (Z.to_nat filterIndex) defaultFilter
  else mergedFilters ++ [defaultFilter].

Definition componentDidUpdate (prevProps : Props) (prevState : State.t)
  : M unit :=
  c <- this ;;
  if truthy (getTableKey c)
     && (negb (JS.str_eqb (State.searchTerm prevState)
                 (State.searchTerm (state c)))
         || differ (Some (State.filters prevState))
              (Some (State.filters (state c))))
  then
    emit (setItem (getPersistKey c) (State.searchTerm (state c))
            (items (State.filters (state c)))) ;;
    if onFilterChange (props c)
    then emit (callOnFilterChange (State.filters (state c)))
    else ret tt
  else if differ (defaultFilters prevProps) (defaultFilters (props c))
  then
    mergedFilters <- newArray (items (State.filters (state c))) ;;
    match defaultFilters (props c) with
    | None => throw            (* undefined.forEach *)
    | Some defaults =>
        setState
          (with_filters
             (mkArray (ref mergedFilters)
                (fold_left mergeDefault (items defaults)
                   (items mergedFilters))))
    end
  else ret tt.

(** The filters are copied into a new array without the element at [index];
    the callback of [setState] gives the focus back to the input.  The focus
    event that this call fires is handled by [onInputFocus], a handler of
    its own below. *)
Definition removeFilter (index : Z) : M unit :=
  c <- this ;;
  filters <- newArray
    (JS.filteri (fun _ i => negb (Z.eqb i index))
       (items (State.filters (state c)))) ;;
  let focusedToken := (-1)%Z in
  setState (fun s => with_focusedToken focusedToken (with_filters filters s)) ;;
  c <- this ;;
  if isSome (_inputRef c) then emit focus else ret tt.

(** In the branch of an existing key the assignment to
    [filters[filterIndex].enum] writes into the filter object, which the copy
    shares with the array it was copied from; that array is replaced by the
    copy in the same call.  The object can also be an element of
    [props.defaultFilters], whose array is the first array of the filters;
    the write is made to the filters of the state only, and the statements
    below use, of the props after an [addFilter], only whether there are
    default filters. *)
Definition addFilter (filter : Filter) : M unit :=
  c <- this ;;
  let filterIndex :=
    JS.findIndex (fun f => JS.str_eqb (key f) (key filter))
      (items (State.filters (state c))) in
  if (filterIndex >? -1)%Z then
    filters <- newArray (items (State.filters (state c))) ;;
    defaultFilter <-
      match defaultFilters (props c) with
      | None => throw          (* undefined[filterIndex] *)
      | Some defaults => ret (JS.get (items defaults) filterIndex)
      end ;;
    filters <-
      match defaultFilter with
      | Some d =>
          if FilterType_eqb (type d) Enum then
            match JS.get (items filters) filterIndex with
            | None => throw    (* undefined.type *)
            | Some existing =>
                if FilterType_eqb (type existing) Enum
                then ret (mkArray (ref filters)
                            (JS.set_nth (items filters) (Z.to_nat filterIndex)
                               (set_enum existing (enum d))))
                else ret filters
            end
          else ret filters
      | None => ret filters
      end ;;
    (* filter for this key already exists *)
    setState (with_filters filters)
  else
    (* persistent filters are always at the front *)
    filters <- newArray
      (match persistent filter with
       | Some true => filter :: items (State.filters (state c))
       | _ => items (State.filters (state c)) ++ [filter]
       end) ;;
    setState (fun s => with_focusedToken (-1) (with_filters filters s)).

(** The classes of the two patterns.  With the i flag, [a-z] also matches
    the upper-case letters; no character outside ASCII is folded onto an ASCII
    letter. *)
Definition letter (c : N) : bool :=
  (N.leb 65 c && N.leb c 90) || (N.leb 97 c && N.leb c 122).

Definition alnum (c : N) : bool :=
  letter c || (N.leb 48 c && N.leb c 57).

Definition bang (c : N) : bool := N.eqb c (ch "!").

Definition colonOrEquals (c : N) : bool :=
  N.eqb c (ch ":") || N.eqb c (ch "=").

Definition nonSpace (c : N) : bool := negb (JS.isSpace c).

(** [([a-z][a-z0-9]*[!]?[:=][^\s]+)] *)
Definition tokenPattern : regex :=
  Seq (Class letter)
    (Seq (Star alnum)
       (Seq (Opt bang)
          (Seq (Class colonOrEquals) (Plus nonSpace)))).

Definition filterPattern (matchEnd : bool) : regex :=
  if matchEnd
  then Seq tokenPattern (Alt EndOfInput (Class JS.isSpace))     (* ($|\s) *)
  else Seq tokenPattern (Class JS.isSpace).                     (* \s *)

(** The filter that the callback of [match.forEach] builds from one match. *)
Definition tagFilter (filter : jsstring) : Filter :=
  let separator :=
    if (JS.indexOf filter (ch ":") >? JS.indexOf filter (ch "="))%Z
    then ch ":" else ch "=" in
  let (key, value) := JS.split filter separator in
  let value := JS.trim (JS.join value separator) in
  let type := Include in
  (* if value starts with !, it's an exclude filter *)
  let (type, value) :=
    if (JS.indexOf value (ch "!") =? 0)%Z
    then (Exclude, JS.substring value 1)
    else (type, value) in
  (* if key ends with !, it's an exclude filter *)
  let (type, key) :=
    if (JS.indexOf key (ch "!") =? JS.len key - 1)%Z
    then (Exclude, JS.slice key 0 (-1))
    else (type, key) in
  newFilter type key value.

(** The function that [matchTags] debounces.  Its last statement assigns
    [searchTerm.replace(filterPattern, '')] to the parameter [searchTerm],
    which nothing reads afterwards. *)
Definition matchTags_func (searchTerm : jsstring) (matchEnd : bool) : M unit :=
  let filterPattern := filterPattern matchEnd in
  match String_match searchTerm filterPattern with
  | Some match_ =>
      if (0 <? List.length match_)%nat
      then forEach match_ (fun filter => addFilter (tagFilter filter))
      else ret tt
  | None => ret tt
  end.

(** [matchTags = debounce(..., 200)]: a call stores its arguments and
    (re)starts the timer; a later call before the timer ends replaces them. *)
Definition matchTags (searchTerm : jsstring) (matchEnd : bool) : M unit :=
  setPending (Some (searchTerm, matchEnd)).

(** The timer of the debounce ends: the function runs on the arguments of the
    last call. *)
Definition trailingEdge : M unit :=
  c <- this ;;
  match pending c with
  | Some (searchTerm, matchEnd) =>
      setPending None ;; matchTags_func searchTerm matchEnd
  | None => ret tt
  end.

Definition ctrlOrCmd (e : Event.t) : bool :=
  (Event.metaKey e && JS.str_eqb platform (lit "darwin"))
  || (Event.ctrlKey e && negb (JS.str_eqb platform (lit "darwin"))).

Definition onKeyDown (e : Event.t) : M unit :=
  c <- this ;;
  if JS.str_eqb (Event.key e) (lit "f") && ctrlOrCmd e && isSome (_inputRef c)
  then
    emit preventDefault ;;
    if isSome (_inputRef c) then emit focus else ret tt
  else if JS.str_eqb (Event.key e) (lit "Escape") && isSome (_inputRef c)
  then
    emit blur ;;
    setState (with_searchTerm [])
  else if JS.str_eqb (Event.key e) (lit "Backspace") && hasFocus c
  then
    let filters := items (State.filters (state c)) in
    test <-
      (if Z.eqb (State.focusedToken (state c)) (-1)
          && JS.str_eqb (State.searchTerm (state c)) []
          && isSome (_inputRef c)
       then
         match JS.get filters (Z.of_nat (List.length filters) - 1) with
         | None => throw       (* undefined.persistent *)
         | Some last =>
             ret (negb (match persistent last with
                        | Some b => b
                        | None => false
                        end))
         end
       else ret false) ;;
    if test then
      emit blur ;;
      setState (with_focusedToken (Z.of_nat (List.length filters) - 1))
    else removeFilter (State.focusedToken (state c))
  else if JS.str_eqb (Event.key e) (lit "Delete") && hasFocus c
          && (State.focusedToken (state c) >? -1)%Z
  then removeFilter (State.focusedToken (state c))
  else if JS.str_eqb (Event.key e) (lit "Enter") && hasFocus c
          && isSome (_inputRef c)
  then
    match _inputRef c with
    | Some input => matchTags (input_value input) true
    | None => ret tt
    end
  else ret tt.

(** [e.target.value] is the argument.  [e.target] is the input that
    [_inputRef] holds ([render] gives [onChange] and [innerRef] to the same
    element), and the change event comes after the text of the input has
    changed: when the handler runs, the input holds [value]. *)
Definition onChangeSearchTerm (value : jsstring) : M unit :=
  setInputValue value ;;
  setState (with_searchTerm value) ;;
  matchTags value false.

Definition clear : M unit :=
  c <- this ;;
  filters <- newArray
    (List.filter
       (fun f => isSome (persistent f)
                 && match persistent f with Some true => true | _ => false end)
       (items (State.filters (state c)))) ;;
  setState (fun s => with_searchTerm [] (with_filters filters s)).

(** The state of a new component: the filters are the array of the default
    filters itself, or a new empty array. *)
Definition construct (p : Props) (fresh : nat) : Component :=
  match defaultFilters p with
  | Some defaults =>
      mkComponent p (State.make defaults (-1) [] false) None None fresh []
  | None =>
      mkComponent p (State.make (mkArray fresh []) (-1) [] false) None None
        (S fresh) []
  end.

(** The callback of [defaultFilters.forEach] in [componentDidMount]: the
    saved filter of the key of the default filter takes the [enum] of an enum
    default filter and keeps, of its values, those of its [enum]. *)
Definition mergeSaved (savedStateFilters : list Filter) (defaultFilter : Filter)
  : M (list Filter) :=
  let filterIndex :=
    JS.findIndex (fun f => JS.str_eqb (key f) (key defaultFilter))
      savedStateFilters in
  if (filterIndex >? -1)%Z then
    match JS.get savedStateFilters filterIndex with
    | None => throw
    | Some saved =>
        let saved :=
          if FilterType_eqb (type defaultFilter) Enum
          then set_enum saved (enum defaultFilter)
          else saved in
        match enum saved with
        | None => throw          (* undefined.map *)
        | Some filters =>
            match value saved with
            | Str _ => throw     (* a string has no method filter *)
            | Strs values =>
                ret (JS.set_nth savedStateFilters (Z.to_nat filterIndex)
                       (set_value saved
                          (Strs (List.filter
                                   (fun value => existsb (JS.str_eqb value) filters)
                                   values))))
            end
        end
    end
  else ret savedStateFilters.

(** [item] is what local storage holds under the key of the component. *)
Definition componentDidMount (item : Stored) : L unit :=
  (call addKeydownListener ;;
   c <- liftL this ;;
   let defaultFilters := defaultFilters (props c) in
   savedState <-
     (if truthy (getTableKey c) then
        call (getItem (getPersistKey c)) ;;
        match item with
        | Saved searchTerm filters =>
            filters <- liftL (newArray filters) ;;
            retL (Some (searchTerm, filters))
        | NoItem => retL None
        | Unparsable =>
            call (removeItem (getPersistKey c)) ;;
            retL None
        end
      else retL None) ;;
   match savedState with
   | Some (searchTerm, savedStateFilters) =>
       filters <-
         match defaultFilters with
         | Some defaultFilters =>
             (* merge default filter with persisted filters *)
             merged <- liftL (foldM mergeSaved (items defaultFilters)
                                (items savedStateFilters)) ;;
             retL (mkArray (ref savedStateFilters) merged)
         | None => retL savedStateFilters
         end ;;
       liftL (setState
                (fun s =>
                   State.make filters (State.focusedToken s)
                     (match searchTerm with
                      | _ :: _ => searchTerm
                      | [] => State.searchTerm s
                      end)
                     (State.hasFocus s)))
   | None => retL tt
   end)%life.

Definition componentWillUnmount : L unit := call removeKeydownListener.

Definition replaceFilter (index : Z) (filter : Filter) : M unit :=
  c <- this ;;
  filters <- newArray (items (State.filters (state c))) ;;
  setState
    (with_filters
       (mkArray (ref filters) (JS.splice (items filters) index 1 filter))).

Definition onInputFocus : M unit :=
  setState
    (fun s =>
       State.make (State.filters s) (-1) (State.searchTerm s) true).

Definition onTokenFocus (focusedToken : Z) : M unit :=
  setState (with_focusedToken focusedToken).

Definition onTokenBlur : M unit := setState (with_focusedToken (-1)).

End Methods.

End Searchable.

(** ** Tokens of the search box

    The words of the statements below: a key is what [[a-z][a-z0-9]*]
    matches under the i flag, a value is a non-empty run of characters that
    are not white space, and a token stands at a boundary when the text
    before it is empty or ends in white space. *)

Definition isKey (k : jsstring) : bool :=
  match k with
  | c :: k' => Searchable.letter c && forallb Searchable.alnum k'
  | [] => false
  end.

Definition isValue (v : jsstring) : bool :=
  match v with
  | _ :: _ => forallb Searchable.nonSpace v
  | [] => false
  end.

Definition boundary (pre : jsstring) : bool :=
  match rev pre with
  | [] => true
  | w :: _ => JS.isSpace w
  end.

(** A token of the search box: a key, an exclamation mark or none, a colon
    or an equals sign, a value. *)
Inductive token : jsstring -> Prop :=
| token_intro (k b : jsstring) (sep : N) (v : jsstring) :
    isKey k = true ->
    b = [] \/ b = [ch "!"] ->
    Searchable.colonOrEquals sep = true ->
    isValue v = true ->
    token (k ++ b ++ sep :: v).

(** [c] occurs in [s]. *)
Definition occurs (c : N) (s : jsstring) : bool := existsb (N.eqb c) s.

(** [v] starts with an exclamation mark. *)
Definition negated (v : jsstring) : bool :=
  match v with
  | c :: _ => N.eqb c (ch "!")
  | [] => false
  end.

(** Upper-casing of the ASCII letters, an instance of the host's
    [toUpperCase] on ASCII text. *)
Definition asciiUpper (s : jsstring) : jsstring :=
  map (fun c => if N.leb 97 c && N.leb c 122 then (c - 32)%N else c) s.

(** On the component [c], the function behind [matchTags] gets to the match
    [m] of [searchTerm] and calls [addFilter] with [filter] for it: [m] is
    one of the matches, [filter] is what the callback of [match.forEach]
    makes of [m], the calls of [addFilter] for the matches before [m] return
    (a call that throws ends the [forEach]), and the run goes on from the
    component they leave with [addFilter] on [filter] and then with the
    matches after [m]. *)
Definition callsAddFilter
  (searchTerm : jsstring) (matchEnd : bool) (m : jsstring) (filter : Filter)
  (c : Component) : Prop :=
  let each := fun x => Searchable.addFilter (Searchable.tagFilter x) in
  exists before after,
    RegExp.String_match searchTerm (Searchable.filterPattern matchEnd)
    = Some (before ++ m :: after)
    /\ filter = Searchable.tagFilter m
    /\ fst (forEach before each c) = Returns tt
    /\ Searchable.matchTags_func searchTerm matchEnd c
       = (Searchable.addFilter filter ;; forEach after each)
           (snd (forEach before each c)).

(** [persistent === true]. *)
Definition isPersistent (f : Filter) : bool :=
  match persistent f with
  | Some true => true
  | _ => false
  end.

(** Persistent filters are at the front: none stands behind a filter that is
    not persistent. *)
Fixpoint persistentFirst (l : list Filter) : bool :=
  match l with
  | [] => true
  | f :: l' =>
      if isPersistent f then persistentFirst l'
      else forallb (fun g => negb (isPersistent g)) l'
  end.

(** [c'] differs from [c] at most in the filters, the focused token and the
    count of arrays: the record of the props, the input, the pending call,
    the log of the calls made so far, the search term and the focus of the
    search box are those of [c]. *)
Definition sameSurroundings (c c' : Component) : Prop :=
  props c' = props c
  /\ _inputRef c' = _inputRef c
  /\ pending c' = pending c
  /\ log c' = log c
  /\ State.searchTerm (state c') = State.searchTerm (state c)
  /\ State.hasFocus (state c') = State.hasFocus (state c).

(** The keys of the filters of a component. *)
Definition keysOf (c : Component) : list jsstring :=
  map key (items (State.filters (state c))).

(** [matchTags] parses the match [m] of [searchTerm] into [filter] and
    passes it to [addFilter]: [m] is one of the matches and [filter] is what
    the callback makes of it; a call of [matchTags] and the end of its timer
    run the function behind it; on a component with default filters the run
    returns; on a component on which the run returns, it gets to [m] and
    calls [addFilter] with [filter], and a filter of the key of [filter] is
    among the filters afterwards; on any component the run gets to [m] unless
    it throws a [TypeError], which needs a component without default
    filters. *)
Definition parsesAndPasses
  (searchTerm : jsstring) (matchEnd : bool) (m : jsstring) (filter : Filter)
  : Prop :=
  (exists before after,
     RegExp.String_match searchTerm (Searchable.filterPattern matchEnd)
     = Some (before ++ m :: after))
  /\ Searchable.tagFilter m = filter
  /\ (forall c,
        (Searchable.matchTags searchTerm matchEnd ;; Searchable.trailingEdge) c
        = Searchable.matchTags_func searchTerm matchEnd (set_pending None c))
  /\ (forall c,
        defaultFilters (props c) <> None ->
        fst (Searchable.matchTags_func searchTerm matchEnd c) = Returns tt)
  /\ (forall c,
        fst (Searchable.matchTags_func searchTerm matchEnd c) = Returns tt ->
        callsAddFilter searchTerm matchEnd m filter c
        /\ In (key filter)
             (keysOf (snd (Searchable.matchTags_func searchTerm matchEnd c))))
  /\ (forall c,
        callsAddFilter searchTerm matchEnd m filter c
        \/ (fst (Searchable.matchTags_func searchTerm matchEnd c) = TypeError
            /\ defaultFilters (props c) = None)).

(** The search term or the filters array of [c] is not that of
    [prevState]: the second test of [componentDidUpdate]. *)
Definition stateChanged (prevState : State.t) (c : Component) : bool :=
  negb (JS.str_eqb (State.searchTerm prevState) (State.searchTerm (state c)))
  || negb (Nat.eqb (ref (State.filters prevState))
             (ref (State.filters (state c)))).

(** The filter has an [enum] and an array of values, and each of its values
    is a value of its [enum]. *)
Definition valuesWithinEnum (f : Filter) : Prop :=
  exists entries values,
    enum f = Some entries /\ value f = Strs values
    /\ forall v, In v values -> In v entries.

(** The saved filter as the callback leaves it before it reads its [enum]. *)
Definition withDefaultEnum (saved defaultFilter : Filter) : Filter :=
  if FilterType_eqb (type defaultFilter) Enum
  then set_enum saved (enum defaultFilter)
  else saved.

(** A component to try the handlers on: no props, the given filters, the
    search box focused and holding [text], which is also the search term. *)
Definition sample (filters : list Filter) (text : jsstring) : Component :=
  mkComponent (mkProps None None false None)
    (State.make (mkArray 0 filters) (-1) text true)
    (Some (mkInput text)) None 1 [].

(** A component with the given props whose search term has just changed
    from the empty string of [sampleBefore] to ["x"]. *)
Definition sampleTable (p : Props) : Component :=
  mkComponent p (State.make (mkArray 0 []) (-1) (lit "x") true) None None 1 [].

Definition sampleBefore : State.t := State.make (mkArray 0 []) (-1) [] true.

(** * Properties *)

Unset Implicit Arguments.

(** ** The definitions on small inputs *)

Module Examples.

Import JS RegExp Searchable.

Example split_colons :
  split (lit "a:b::c") (ch ":") = (lit "a", [lit "b"; []; lit "c"]).
Proof. reflexivity. Qed.

Example split_without_separator : split (lit "abc") (ch "=") = (lit "abc", []).
Proof. reflexivity. Qed.

Example join_rest : join [lit "b"; []; lit "c"] (ch ":") = lit "b::c".
Proof. reflexivity. Qed.

Example indexOf_first_of_two : indexOf (lit "a=b=c") (ch "=") = 1%Z.
Proof. reflexivity. Qed.

Example indexOf_none : indexOf (lit "abc") (ch "=") = (-1)%Z.
Proof. reflexivity. Qed.

Example trim_both_ends : trim (lit "  a b  ") = lit "a b".
Proof. reflexivity. Qed.

Example slice_last_off : slice (lit "key!") 0 (-1) = lit "key".
Proof. reflexivity. Qed.

Example slice_of_empty : slice [] 0 (-1) = [].
Proof. reflexivity. Qed.

Example substring_from_1 : substring (lit "!net") 1 = lit "net".
Proof. reflexivity. Qed.

Example match_while_typing :
  String_match (lit "foo a:b c!=d  xa:b=c e:!f g:h") (filterPattern false)
  = Some [lit "a:b "; lit "c!=d "; lit "xa:b=c "; lit "e:!f "].
Proof. vm_compute. reflexivity. Qed.

Example match_on_enter :
  String_match (lit "foo a:b c!=d  xa:b=c e:!f g:h") (filterPattern true)
  = Some [lit "a:b "; lit "c!=d "; lit "xa:b=c "; lit "e:!f "; lit "g:h"].
Proof. vm_compute. reflexivity. Qed.

Example match_nothing : String_match (lit "foo bar") (filterPattern true) = None.
Proof. vm_compute. reflexivity. Qed.

Example match_upper_case_key :
  String_match (lit "Tag:Net ") (filterPattern false) = Some [lit "Tag:Net "].
Proof. vm_compute. reflexivity. Qed.

Example tagFilter_include :
  tagFilter (lit "a:b ") = newFilter Include (lit "a") (lit "b").
Proof. reflexivity. Qed.

Example tagFilter_exclude :
  tagFilter (lit "c!=d ") = newFilter Exclude (lit "c") (lit "d").
Proof. reflexivity. Qed.

Example tagFilter_colons_in_value :
  tagFilter (lit "url:http://x ") = newFilter Include (lit "url") (lit "http://x").
Proof. reflexivity. Qed.

Example persist_key_of_columns :
  getPersistKey asciiUpper
    (sampleTable (mkProps None (Some [lit "time"; lit "tag"]) false None))
  = lit "SEARCHABLE_STORAGE_KEY_TABLE_COLUMNS_TIME_TAG".
Proof. reflexivity. Qed.

(** Two tokens of one key: the second call of [addFilter] finds the key.
    Without default filters it throws on [this.props.defaultFilters[0]]. *)
Example same_key_twice :
  let props := mkProps None None false (Some (mkArray 0 [])) in
  let c :=
    mkComponent props (State.make (mkArray 1 []) (-1) [] true)
      (Some (mkInput [])) None 2 [] in
  fst (matchTags_func (lit "a:1 a:2 ") false c) = Returns tt
  /\ items (State.filters (state (snd (matchTags_func (lit "a:1 a:2 ") false c))))
     = [newFilter Include (lit "a") (lit "1")]
  /\ fst (matchTags_func (lit "a:1 a:2 ") false (sample [] [])) = TypeError.
Proof. vm_compute. repeat split. Qed.

End Examples.

(** ** Strings *)

Module JSFacts.

Import JS.

Lemma str_eqb_eq (a b : jsstring) : str_eqb a b = true <-> a = b.
Proof.
  revert b; induction a as [|x a IH]; intros [|y b]; simpl;
    try (split; congruence).
  rewrite andb_true_iff, N.eqb_eq, IH. split.
  - intros [-> ->]; reflexivity.
  - intros H; injection H; auto.
Qed.

Lemma str_eqb_neq (a b : jsstring) : a <> b -> str_eqb a b = false.
Proof.
  intros H. destruct (str_eqb a b) eqn:E; [|reflexivity].
  apply str_eqb_eq in E; contradiction.
Qed.

Lemma indexOf_ge (s : jsstring) (c : N) : (-1 <= indexOf s c)%Z.
Proof.
  induction s as [|x s IH]; cbn [indexOf]; [lia|].
  destruct (N.eqb x c); [lia|].
  destruct (Z.ltb_spec (indexOf s c) 0); lia.
Qed.

Lemma indexOf_absent (s : jsstring) (c : N) :
  occurs c s = false -> indexOf s c = (-1)%Z.
Proof.
  induction s as [|x s IH]; simpl; [reflexivity|].
  rewrite orb_false_iff, N.eqb_sym. intros [-> H].
  rewrite (IH H); reflexivity.
Qed.

Lemma indexOf_first (a b : jsstring) (c : N) :
  occurs c a = false -> indexOf (a ++ c :: b) c = len a.
Proof.
  unfold len.
  induction a as [|x a IH]; cbn [indexOf app occurs existsb List.length].
  - rewrite N.eqb_refl; reflexivity.
  - rewrite orb_false_iff, N.eqb_sym. intros [-> H].
    fold (occurs c a) in H. rewrite (IH H), Nat2Z.inj_succ.
    destruct (Z.ltb_spec (Z.of_nat (List.length a)) 0); lia.
Qed.

Lemma occurs_app (c : N) (a b : jsstring) :
  occurs c (a ++ b) = occurs c a || occurs c b.
Proof. apply existsb_app. Qed.

Lemma split_first (a b : jsstring) (sep : N) :
  occurs sep a = false ->
  split (a ++ sep :: b) sep = (a, fst (split b sep) :: snd (split b sep)).
Proof.
  induction a as [|x a IH]; simpl.
  - intros _. destruct (split b sep); rewrite N.eqb_refl; reflexivity.
  - rewrite orb_false_iff, N.eqb_sym. intros [E H].
    rewrite (IH H), E; reflexivity.
Qed.

Lemma join_split (s : jsstring) (sep : N) :
  join (fst (split s sep) :: snd (split s sep)) sep = s.
Proof.
  induction s as [|x s IH]; simpl; [reflexivity|].
  destruct (split s sep) as [p ps] eqn:E.
  destruct (N.eqb_spec x sep) as [->|Hx]; simpl in *.
  - rewrite IH; reflexivity.
  - destruct ps; simpl in *; rewrite <- IH; reflexivity.
Qed.

Lemma dropWhile_app_all (p : N -> bool) (a b : jsstring) :
  forallb p a = true -> dropWhile p (a ++ b) = dropWhile p b.
Proof.
  induction a as [|x a IH]; simpl; [reflexivity|].
  rewrite andb_true_iff; intros [-> H]; auto.
Qed.

Lemma forallb_rev_intro (p : N -> bool) (s : jsstring) :
  forallb p s = true -> forallb p (rev s) = true.
Proof.
  induction s as [|x s IH]; simpl; [reflexivity|].
  rewrite andb_true_iff; intros [Hx H].
  rewrite forallb_app, (IH H); simpl; rewrite Hx; reflexivity.
Qed.

End JSFacts.

(** ** The matcher on the two patterns *)

Module RegExpFacts.

Import RegExp Searchable.

Ltac classes :=
  unfold nonSpace, alnum, letter, bang, colonOrEquals, JS.isSpace in *;
  change (ch "!") with 33%N in *;
  change (ch ":") with 58%N in *;
  change (ch "=") with 61%N in *;
  lia.

Lemma letter_alnum (c : N) : letter c = true -> alnum c = true.
Proof. classes. Qed.

Lemma alnum_nonSpace (c : N) : alnum c = true -> nonSpace c = true.
Proof. classes. Qed.

Lemma sep_nonSpace (c : N) : colonOrEquals c = true -> nonSpace c = true.
Proof. classes. Qed.

Lemma bang_not_alnum (c : N) : bang c = true -> alnum c = false.
Proof. classes. Qed.

Lemma sep_not_alnum (c : N) : colonOrEquals c = true -> alnum c = false.
Proof. classes. Qed.

Lemma sep_not_bang (c : N) : colonOrEquals c = true -> bang c = false.
Proof. classes. Qed.

Lemma bang_not_sep (c : N) : bang c = true -> colonOrEquals c = false.
Proof. classes. Qed.

Lemma space_not_nonSpace (c : N) : JS.isSpace c = true -> nonSpace c = false.
Proof. classes. Qed.

Lemma nonSpace_not_space (c : N) : nonSpace c = true -> JS.isSpace c = false.
Proof. classes. Qed.

Lemma bang_eq (c : N) : bang c = true -> c = ch "!".
Proof. classes. Qed.

(** What a successful greedy repetition consumed. *)
Lemma star_inv (cls : N -> bool) (k : cont) (s r : jsstring) :
  star cls k s = Some r ->
  exists a b, s = a ++ b /\ forallb cls a = true /\ k b = Some r.
Proof.
  induction s as [|c s IH]; cbn [star].
  - intros H; exists [], []; auto.
  - destruct (cls c) eqn:Hc.
    + destruct (star cls k s) as [r'|] eqn:Hs; cbn [orElse].
      * intros H; injection H as ->.
        destruct (IH eq_refl) as (a & b & -> & Ha & Hk).
        exists (c :: a), b; cbn [forallb app]; rewrite Hc; auto.
      * intros H; exists [], (c :: s); auto.
    + intros H; exists [], (c :: s); auto.
Qed.

(** The repetition stops where the class does. *)
Lemma star_stop (cls : N -> bool) (k : cont) (s : jsstring) :
  match s with c :: _ => cls c = false | [] => True end ->
  star cls k s = k s.
Proof. destruct s as [|c s]; cbn [star]; [reflexivity|]. intros ->; reflexivity. Qed.

(** The repetition takes all of a run when what follows succeeds. *)
Lemma star_greedy (cls : N -> bool) (k : cont) (a b r : jsstring) :
  forallb cls a = true -> star cls k b = Some r ->
  star cls k (a ++ b) = Some r.
Proof.
  intros Ha Hb. induction a as [|c a IH]; cbn [app star]; [exact Hb|].
  cbn [forallb] in Ha. apply andb_true_iff in Ha as [-> Ha].
  rewrite (IH Ha); reflexivity.
Qed.

Lemma token_nonSpace (t : jsstring) : token t -> forallb nonSpace t = true.
Proof.
  intros [k b sep v Hk Hb Hsep Hv].
  rewrite !forallb_app. cbn [forallb].
  destruct k as [|l ks]; [discriminate|]. cbn [isKey] in Hk.
  apply andb_true_iff in Hk as [Hl Hks].
  apply andb_true_iff; split.
  - cbn [forallb]. rewrite (alnum_nonSpace _ (letter_alnum _ Hl)).
    apply forallb_forall. intros x Hx. apply alnum_nonSpace.
    rewrite forallb_forall in Hks; auto.
  - apply andb_true_iff; split.
    + destruct Hb as [-> | ->]; reflexivity.
    + rewrite (sep_nonSpace _ Hsep). destruct v; [discriminate|exact Hv].
Qed.

Lemma token_not_nil (t : jsstring) : token t -> t <> [].
Proof.
  intros [k b sep v Hk _ _ _]. destruct k; [discriminate|]. discriminate.
Qed.

(** The token part of the patterns succeeds on a token when what follows
    does, provided the value cannot be extended. *)
Lemma run_token (k : cont) (t tail r : jsstring) :
  token t ->
  match tail with c :: _ => JS.isSpace c = true | [] => True end ->
  k tail = Some r ->
  run tokenPattern k (t ++ tail) = Some r.
Proof.
  intros [key b sep v Hk Hb Hsep Hv] Htail Hr.
  destruct key as [|l ks]; [discriminate|]. cbn [isKey] in Hk.
  apply andb_true_iff in Hk as [Hl Hks].
  destruct v as [|v1 vs]; [discriminate|]. cbn [isValue forallb] in Hv.
  apply andb_true_iff in Hv as [Hv1 Hvs].
  unfold tokenPattern. cbn [run app]. rewrite Hl.
  rewrite <- !app_assoc. cbn [app].
  assert (Hval : star nonSpace k (vs ++ tail) = Some r).
  { apply star_greedy; [exact Hvs|]. rewrite star_stop; [exact Hr|].
    destruct tail; [exact I|]. apply space_not_nonSpace; exact Htail. }
  apply star_greedy; [exact Hks|].
  destruct Hb as [-> | ->]; cbn [app].
  - rewrite star_stop by (apply sep_not_alnum; exact Hsep).
    rewrite (sep_not_bang _ Hsep), Hsep, Hv1. exact Hval.
  - rewrite star_stop by (apply bang_not_alnum; reflexivity).
    change (bang (ch "!")) with true. cbv iota.
    rewrite Hsep, Hv1, Hval. reflexivity.
Qed.

(** What the token part consumed is a token. *)
Lemma run_token_inv (k : cont) (s r : jsstring) :
  run tokenPattern k s = Some r ->
  exists t tail, s = t ++ tail /\ token t /\ k tail = Some r.
Proof.
  unfold tokenPattern. cbn [run].
  destruct s as [|l s]; [discriminate|].
  destruct (letter l) eqn:Hl; [|discriminate].
  intros H. apply star_inv in H as (ks & s1 & -> & Hks & H).
  assert (Hplus : forall sep s2,
             (if colonOrEquals sep
              then match s2 with
                   | c :: s' => if nonSpace c then star nonSpace k s' else None
                   | [] => None
                   end
              else None) = Some r ->
             exists v tail, s2 = v ++ tail /\ colonOrEquals sep = true
                            /\ isValue v = true /\ k tail = Some r).
  { intros sep s2 E. destruct (colonOrEquals sep); [|discriminate].
    destruct s2 as [|v1 s2]; [discriminate|].
    destruct (nonSpace v1) eqn:Hv1; [|discriminate].
    apply star_inv in E as (vs & tail & -> & Hvs & E).
    exists (v1 :: vs), tail. cbn [isValue forallb]. rewrite Hv1, Hvs. auto. }
  assert (Hkey : isKey (l :: ks) = true) by (cbn [isKey]; rewrite Hl, Hks; auto).
  destruct s1 as [|c s1]; [discriminate|].
  destruct (bang c) eqn:Hc.
  - rewrite (bang_not_sep _ Hc) in H.
    destruct s1 as [|sep s1]; [discriminate|]. cbn [orElse] in H.
    assert (E : (if colonOrEquals sep
                 then match s1 with
                      | c :: s' => if nonSpace c then star nonSpace k s' else None
                      | [] => None
                      end
                 else None) = Some r).
    { destruct (colonOrEquals sep); [|discriminate].
      destruct s1 as [|c1 s1]; [discriminate|].
      destruct (nonSpace c1); [|discriminate].
      destruct (star nonSpace k s1); [exact H|discriminate]. }
    apply Hplus in E as (v & tail & -> & Hsep & Hv & E).
    exists ((l :: ks) ++ [c] ++ sep :: v), tail. split; [|split; [|exact E]].
    + rewrite <- !app_assoc. reflexivity.
    + apply token_intro; auto. right. rewrite (bang_eq _ Hc); reflexivity.
  - apply Hplus in H as (v & tail & -> & Hsep & Hv & E).
    exists ((l :: ks) ++ [] ++ c :: v), tail. split; [|split; [|exact E]].
    + cbn [app]. rewrite <- !app_assoc. reflexivity.
    + apply token_intro; auto.
Qed.

(** A token followed by white space is a match of both patterns. *)
Lemma matchAt_token (matchEnd : bool) (t : jsstring) (w : N) (post : jsstring) :
  token t -> JS.isSpace w = true ->
  matchAt (filterPattern matchEnd) (t ++ w :: post) = Some post.
Proof.
  intros Ht Hw. unfold matchAt, filterPattern.
  destruct matchEnd; cbn [run]; apply run_token; auto; cbn [run orElse];
    rewrite Hw; reflexivity.
Qed.

(** A token that ends the input is a match of the pattern of [matchEnd]. *)
Lemma matchAt_token_end (t : jsstring) :
  token t -> matchAt (filterPattern true) t = Some [].
Proof.
  intros Ht. unfold matchAt, filterPattern. cbn [run].
  rewrite <- (app_nil_r t) at 1. apply run_token; auto.
Qed.

(** Every match is a token and the white space after it, or, with
    [matchEnd], a token that ends the input. *)
Lemma matchAt_inv (matchEnd : bool) (s rest : jsstring) :
  matchAt (filterPattern matchEnd) s = Some rest ->
  exists t, token t /\
    ((exists w, JS.isSpace w = true /\ s = t ++ w :: rest)
     \/ (matchEnd = true /\ s = t /\ rest = [])).
Proof.
  unfold matchAt, filterPattern. intros H.
  assert (E : exists t tail, s = t ++ tail /\ token t /\
            ((exists w, JS.isSpace w = true /\ tail = w :: rest)
             \/ (matchEnd = true /\ tail = [] /\ rest = []))).
  { destruct matchEnd; cbn [run] in H;
      apply run_token_inv in H as (t & tail & -> & Ht & H);
      exists t, tail; (split; [reflexivity|split; [exact Ht|]]).
    - destruct tail as [|w tail]; cbn [run orElse] in H.
      + injection H as <-. right; auto.
      + destruct (JS.isSpace w) eqn:Hw; [|discriminate].
        injection H as <-. left; exists w; auto.
    - destruct tail as [|w tail]; cbn [run] in H; [discriminate|].
      destruct (JS.isSpace w) eqn:Hw; [|discriminate].
      injection H as <-. left; exists w; auto. }
  destruct E as (t & tail & -> & Ht & [(w & Hw & ->) | (-> & -> & ->)]);
    exists t; (split; [exact Ht|]).
  - left; exists w; auto.
  - right; rewrite app_nil_r; auto.
Qed.

Lemma matchAt_nil (matchEnd : bool) : matchAt (filterPattern matchEnd) [] = None.
Proof. destruct matchEnd; reflexivity. Qed.

(** ** The loop over the matches *)

(** Every match that the loop records is a match of the pattern at some
    position of the input. *)
Lemma scan_In (r : regex) (m : jsstring) (s : jsstring) (skip : nat) :
  In m (scan r skip s) ->
  exists s1 s2 rest,
    s = s1 ++ s2 /\ matchAt r s2 = Some rest
    /\ m = firstn (List.length s2 - List.length rest) s2.
Proof.
  revert skip. induction s as [|c s IH]; intros skip; cbn [scan].
  - destruct skip; [|intros []].
    destruct (matchAt r []) as [rest|] eqn:E; [|intros []].
    intros [<- | []]. exists [], [], rest. rewrite E.
    cbn [List.length Nat.sub firstn]; auto.
  - assert (Hshift : forall n, In m (scan r n s) ->
              exists s1 s2 rest,
                c :: s = s1 ++ s2 /\ matchAt r s2 = Some rest
                /\ m = firstn (List.length s2 - List.length rest) s2).
    { intros n H. destruct (IH _ H) as (s1 & s2 & rest & -> & E & ->).
      exists (c :: s1), s2, rest; auto. }
    destruct skip as [|n]; [|apply Hshift].
    destruct (matchAt r (c :: s)) as [rest|] eqn:E; [|apply Hshift].
    intros [<- | H]; [|eapply Hshift; exact H].
    exists [], (c :: s), rest; auto.
Qed.

(** Skipping to the end of the input ends the loop. *)
Lemma scan_skip_all (matchEnd : bool) (s : jsstring) :
  scan (filterPattern matchEnd) (List.length s) s = [].
Proof.
  induction s as [|c s IH]; cbn [scan List.length]; [|exact IH].
  rewrite matchAt_nil; reflexivity.
Qed.

(** A run without white space ends before the first white space. *)
Lemma nonSpace_prefix (t tail q T : jsstring) (w : N) :
  forallb nonSpace t = true -> JS.isSpace w = true ->
  q ++ w :: T = t ++ tail ->
  (List.length t <= List.length q)%nat.
Proof.
  intros Ht Hw. revert t Ht. induction q as [|x q IH]; intros t Ht E.
  - destruct t as [|y t]; [cbn; lia|]. cbn [app] in E. injection E as <- _.
    cbn [forallb] in Ht. rewrite (space_not_nonSpace _ Hw) in Ht. discriminate.
  - destruct t as [|y t]; [cbn; lia|]. cbn [app] in E. injection E as <- E.
    cbn [forallb] in Ht. apply andb_true_iff in Ht as [_ Ht].
    cbn [List.length]. specialize (IH t Ht E). lia.
Qed.

Lemma boundary_cons (c : N) (pre : jsstring) :
  boundary (c :: pre) = true ->
  boundary pre = true
  /\ exists q w, c :: pre = q ++ [w] /\ JS.isSpace w = true.
Proof.
  unfold boundary. intros H.
  destruct (rev (c :: pre)) as [|w q] eqn:E.
  - apply (f_equal (@List.length N)) in E. rewrite length_rev in E. discriminate.
  - assert (E' : c :: pre = rev q ++ [w]).
    { rewrite <- (rev_involutive (c :: pre)), E. reflexivity. }
    split; [|exists (rev q), w; auto].
    destruct pre as [|x pre]; [reflexivity|].
    destruct (rev q) as [|y q'] eqn:Eq; cbn [app] in E'.
    + discriminate.
    + injection E' as _ ->. rewrite rev_app_distr. exact H.
Qed.

(** The loop passes a text that ends at a boundary and goes on behind it:
    no match that starts in the text reaches beyond its last white space. *)
Lemma scan_boundary (matchEnd : bool) (T pre : jsstring) (skip : nat) :
  boundary pre = true -> (skip <= List.length pre)%nat ->
  exists ms,
    scan (filterPattern matchEnd) skip (pre ++ T)
    = ms ++ scan (filterPattern matchEnd) 0 T.
Proof.
  revert skip. induction pre as [|c pre IH]; intros skip Hb Hskip.
  - cbn [List.length] in Hskip. assert (skip = O) as -> by lia.
    exists []; reflexivity.
  - destruct (boundary_cons _ _ Hb) as (Hb' & q & w & Eq & Hw).
    assert (Hlen : List.length (c :: pre) = S (List.length q)).
    { rewrite Eq, length_app. cbn; lia. }
    cbn [List.length] in Hlen, Hskip.
    cbn [app scan]. destruct skip as [|n].
    + destruct (matchAt (filterPattern matchEnd) (c :: pre ++ T))
        as [rest|] eqn:E.
      * destruct (matchAt_inv _ _ _ E) as (t & Ht & Hcase).
        assert (Hq : c :: pre ++ T = q ++ w :: T).
        { change (c :: pre ++ T) with ((c :: pre) ++ T).
          rewrite Eq, <- app_assoc. reflexivity. }
        assert (Hn : (List.length (c :: pre ++ T) - List.length rest
                      = S (List.length t)
                      /\ List.length t <= List.length pre)%nat).
        { destruct Hcase as [(w' & Hw' & Et) | (_ & Et & _)].
          - pose proof (nonSpace_prefix t (w' :: rest) q T w
                          (token_nonSpace _ Ht) Hw) as Hle.
            rewrite <- Hq, Et in Hle. specialize (Hle eq_refl).
            rewrite Et, length_app. cbn [List.length]. lia.
          - pose proof (nonSpace_prefix t [] q T w (token_nonSpace _ Ht) Hw)
              as Hle.
            rewrite <- Hq, Et, app_nil_r in Hle. specialize (Hle eq_refl).
            apply (f_equal (@List.length N)) in Et.
            cbn [List.length] in Et. rewrite length_app in Et. lia. }
        destruct Hn as [-> Hle]. cbn [Nat.pred].
        destruct (IH (List.length t) Hb' Hle) as (ms & ->).
        eexists (_ :: ms). reflexivity.
      * destruct (IH O Hb' ltac:(lia)) as (ms & ->). exists ms; reflexivity.
    + destruct (IH n Hb' ltac:(lia)) as (ms & ->). exists ms; reflexivity.
Qed.

(** A match at the current position is recorded, and the loop goes on
    behind it. *)
Lemma scan_match (r : regex) (s rest : jsstring) :
  s <> [] -> matchAt r s = Some rest ->
  scan r 0 s
  = firstn (List.length s - List.length rest) s
    :: scan r (Nat.pred (List.length s - List.length rest)) (tl s).
Proof.
  intros Hs E. destruct s as [|c s]; [contradiction|].
  cbn [scan tl]. rewrite E. reflexivity.
Qed.

Lemma firstn_match (t rest : jsstring) (w : N) :
  firstn (List.length (t ++ w :: rest) - List.length rest) (t ++ w :: rest)
  = t ++ [w].
Proof.
  rewrite length_app. cbn [List.length].
  replace (List.length t + S (List.length rest) - List.length rest)%nat
    with (List.length (t ++ [w])) by (rewrite length_app; cbn; lia).
  change (t ++ w :: rest) with (t ++ [w] ++ rest). rewrite app_assoc.
  rewrite firstn_app, Nat.sub_diag, firstn_all. cbn [firstn].
  rewrite app_nil_r. reflexivity.
Qed.

(** The matches of a text with a token at a boundary, followed by white
    space: the token with that white space is one of them. *)
Lemma scan_token (matchEnd : bool) (pre t : jsstring) (w : N) (post : jsstring) :
  boundary pre = true -> token t -> JS.isSpace w = true ->
  exists before after,
    scan (filterPattern matchEnd) 0 (pre ++ t ++ w :: post)
    = before ++ (t ++ [w]) :: after.
Proof.
  intros Hb Ht Hw.
  destruct (scan_boundary matchEnd (t ++ w :: post) pre 0 Hb
              ltac:(lia)) as (ms & ->).
  exists ms.
  rewrite (scan_match _ (t ++ w :: post) post).
  - rewrite firstn_match. eexists; reflexivity.
  - destruct t; discriminate.
  - apply matchAt_token; assumption.
Qed.

(** With [matchEnd], a token at a boundary that ends the input is the last
    match. *)
Lemma scan_token_end (pre t : jsstring) :
  boundary pre = true -> token t ->
  exists before,
    scan (filterPattern true) 0 (pre ++ t) = before ++ [t].
Proof.
  intros Hb Ht.
  destruct (scan_boundary true t pre 0 Hb ltac:(lia)) as (ms & ->).
  exists ms. f_equal.
  rewrite (scan_match _ t []).
  - cbn [List.length]. rewrite Nat.sub_0_r, firstn_all. f_equal.
    pose proof (token_not_nil _ Ht) as Hne.
    destruct t as [|l t']; [contradiction|].
    cbn [List.length Nat.pred tl]. apply scan_skip_all.
  - apply token_not_nil; exact Ht.
  - apply matchAt_token_end; exact Ht.
Qed.

(** Without [matchEnd], every match is a token and the white space after
    it. *)
Lemma scan_matches_spaced (s m : jsstring) :
  In m (scan (filterPattern false) 0 s) ->
  exists t w, token t /\ JS.isSpace w = true /\ m = t ++ [w].
Proof.
  intros H. apply scan_In in H as (s1 & s2 & rest & -> & E & ->).
  destruct (matchAt_inv _ _ _ E) as (t & Ht & [(w & Hw & ->) | (D & _)]);
    [|discriminate].
  exists t, w. split; [exact Ht|split; [exact Hw|]].
  apply firstn_match.
Qed.

End RegExpFacts.

(** ** The filter of a match *)

Module TagFacts.

Import JS JSFacts RegExp Searchable RegExpFacts.

Lemma dropWhile_head (p : N -> bool) (s : jsstring) :
  match s with x :: _ => p x = false | [] => True end -> dropWhile p s = s.
Proof. destruct s as [|x s]; cbn [dropWhile]; [reflexivity|]. intros ->; reflexivity. Qed.

Lemma trim_value (v t : jsstring) :
  isValue v = true -> forallb isSpace t = true -> trim (v ++ t) = v.
Proof.
  intros Hv Ht. destruct v as [|x v]; [discriminate|]. cbn [isValue] in Hv.
  unfold trim. rewrite (dropWhile_head isSpace ((x :: v) ++ t)).
  - rewrite rev_app_distr.
    rewrite dropWhile_app_all by (apply forallb_rev_intro; exact Ht).
    rewrite dropWhile_head; [apply rev_involutive|].
    pose proof (forallb_rev_intro _ _ Hv) as Hr.
    destruct (rev (x :: v)) as [|y r]; [exact I|].
    cbn [forallb] in Hr. apply andb_true_iff in Hr as [Hy _].
    apply nonSpace_not_space; exact Hy.
  - cbn [app]. cbn [forallb] in Hv. apply andb_true_iff in Hv as [Hx _].
    apply nonSpace_not_space; exact Hx.
Qed.

Lemma indexOf_zero (s : jsstring) (c : N) :
  (indexOf s c =? 0)%Z
  = match s with x :: _ => N.eqb x c | [] => false end.
Proof.
  destruct s as [|x s]; cbn [indexOf]; [reflexivity|].
  destruct (N.eqb x c); [reflexivity|].
  pose proof (indexOf_ge s c).
  destruct (Z.ltb_spec (indexOf s c) 0); lia.
Qed.

Lemma substring_1 (x : N) (v : jsstring) : substring (x :: v) 1 = v.
Proof.
  unfold substring, len. cbn [List.length]. rewrite Nat2Z.inj_succ.
  replace (Z.to_nat (Z.min (Z.max 1 0) (Z.succ (Z.of_nat (List.length v)))))
    with 1%nat by lia.
  reflexivity.
Qed.

Lemma slice_drop_last (k : jsstring) (x : N) : slice (k ++ [x]) 0 (-1) = k.
Proof.
  unfold slice, len. rewrite length_app. cbn [List.length].
  change (0 <? 0)%Z with false. change (-1 <? 0)%Z with true. cbv iota.
  replace (Z.to_nat (Z.min 0 (Z.of_nat (List.length k + 1)))) with O by lia.
  replace (Z.to_nat (Z.max (Z.of_nat (List.length k + 1) + -1) 0
                     - Z.min 0 (Z.of_nat (List.length k + 1))))
    with (List.length k) by lia.
  cbn [skipn]. rewrite firstn_app, Nat.sub_diag, firstn_all. cbn [firstn].
  apply app_nil_r.
Qed.

Lemma occurs_class (p : N -> bool) (c : N) (s : jsstring) :
  forallb p s = true -> p c = false -> occurs c s = false.
Proof.
  intros Hs Hc. induction s as [|x s IH]; [reflexivity|].
  cbn [forallb] in Hs. apply andb_true_iff in Hs as [Hx Hs].
  cbn [occurs existsb]. fold (occurs c s). rewrite (IH Hs), orb_false_r.
  destruct (N.eqb_spec c x) as [->|]; [congruence|reflexivity].
Qed.

Lemma key_alnum (k : jsstring) : isKey k = true -> forallb alnum k = true.
Proof.
  destruct k as [|l ks]; [discriminate|]. cbn [isKey forallb].
  intros H. apply andb_true_iff in H as [Hl Hks].
  rewrite (letter_alnum _ Hl), Hks. reflexivity.
Qed.

Lemma key_len (k : jsstring) : isKey k = true -> (1 <= len k)%Z.
Proof. destruct k; [discriminate|]. unfold len; cbn [List.length]; lia. Qed.

(** The value of the filter: what follows a leading exclamation mark, or
    all of it. *)
Lemma value_branch (v : jsstring) :
  isValue v = true ->
  (if (indexOf v (ch "!") =? 0)%Z then (Exclude, substring v 1)
   else (Include, v))
  = (if negated v then Exclude else Include, if negated v then tl v else v).
Proof.
  intros Hv. rewrite indexOf_zero. destruct v as [|x v]; [discriminate|].
  cbn [negated tl]. destruct (N.eqb x (ch "!")); [|reflexivity].
  rewrite substring_1. reflexivity.
Qed.

(** [key:value] with a value without an equals sign. *)
Lemma tagFilter_colon (k v trail : jsstring) :
  isKey k = true -> isValue v = true -> occurs (ch "=") v = false ->
  forallb isSpace trail = true ->
  tagFilter (k ++ ch ":" :: v ++ trail)
  = newFilter (if negated v then Exclude else Include) k
      (if negated v then tl v else v).
Proof.
  intros Hk Hv Heq Ht.
  pose proof (key_alnum _ Hk) as Hka. pose proof (key_len _ Hk) as Hlen.
  assert (Hc : occurs (ch ":") k = false)
    by (apply (occurs_class alnum); [exact Hka|reflexivity]).
  assert (He : occurs (ch "=") (k ++ ch ":" :: v ++ trail) = false).
  { rewrite occurs_app. cbn [occurs existsb]. fold (occurs (ch "=") (v ++ trail)).
    rewrite occurs_app, Heq.
    rewrite (occurs_class alnum (ch "=") _ Hka eq_refl).
    rewrite (occurs_class isSpace (ch "=") _ Ht eq_refl). reflexivity. }
  assert (Hb : occurs (ch "!") k = false)
    by (apply (occurs_class alnum); [exact Hka|reflexivity]).
  unfold tagFilter.
  rewrite (indexOf_first k (v ++ trail) _ Hc), (indexOf_absent _ _ He).
  replace (len k >? -1)%Z with true by lia.
  rewrite (split_first k (v ++ trail) _ Hc), join_split, (trim_value _ _ Hv Ht).
  rewrite (value_branch _ Hv), (indexOf_absent _ _ Hb).
  replace (-1 =? len k - 1)%Z with false by lia.
  reflexivity.
Qed.

(** [key!=value] with a value without a colon. *)
Lemma tagFilter_bang_equals (k v trail : jsstring) :
  isKey k = true -> isValue v = true -> occurs (ch ":") v = false ->
  forallb isSpace trail = true ->
  tagFilter (k ++ ch "!" :: ch "=" :: v ++ trail)
  = newFilter Exclude k (if negated v then tl v else v).
Proof.
  intros Hk Hv Hcol Ht.
  pose proof (key_alnum _ Hk) as Hka.
  assert (Hc : occurs (ch ":") (k ++ ch "!" :: ch "=" :: v ++ trail) = false).
  { rewrite occurs_app. cbn [occurs existsb]. fold (occurs (ch ":") (v ++ trail)).
    rewrite occurs_app, Hcol.
    rewrite (occurs_class alnum (ch ":") _ Hka eq_refl).
    rewrite (occurs_class isSpace (ch ":") _ Ht eq_refl). reflexivity. }
  assert (He : occurs (ch "=") (k ++ [ch "!"]) = false).
  { rewrite occurs_app, (occurs_class alnum (ch "=") _ Hka eq_refl).
    reflexivity. }
  assert (Hb : occurs (ch "!") k = false)
    by (apply (occurs_class alnum); [exact Hka|reflexivity]).
  unfold tagFilter.
  rewrite (indexOf_absent _ _ Hc).
  change (k ++ ch "!" :: ch "=" :: v ++ trail)
    with (k ++ [ch "!"] ++ ch "=" :: v ++ trail).
  rewrite app_assoc.
  rewrite (indexOf_first (k ++ [ch "!"]) (v ++ trail) _ He).
  replace (-1 >? len (k ++ [ch "!"]))%Z with false
    by (unfold len; lia).
  rewrite (split_first (k ++ [ch "!"]) (v ++ trail) _ He), join_split.
  rewrite (trim_value _ _ Hv Ht), (value_branch _ Hv).
  rewrite (indexOf_first k [] _ Hb).
  replace (len k =? len (k ++ [ch "!"]) - 1)%Z with true
    by (unfold len; rewrite length_app; cbn [List.length]; lia).
  rewrite slice_drop_last. destruct (negated v); reflexivity.
Qed.

End TagFacts.

(** ** The keyboard *)

Module KeyFacts.

Import JS JSFacts Searchable.

(** Comparisons of string literals are decided by evaluation. *)
Ltac key_tests :=
  repeat match goal with
         | |- context [str_eqb (lit ?a) (lit ?b)] =>
             let v := eval vm_compute in (str_eqb (lit a) (lit b)) in
             change (str_eqb (lit a) (lit b)) with v
         end.

(** C5. Escape clears the search: in every state in which the search input
    is attached, a keydown of Escape returns, blurs the input as the first
    thing it does, and sets the search term to the empty string; the filters
    and the focused token stay as they are. *)
Theorem escape_clears_search
  (platform : jsstring) (e : Event.t) (c : Component) (input : HTMLInputElement) :
  Event.key e = lit "Escape" ->
  _inputRef c = Some input ->
  let r := onKeyDown platform e c in
  fst r = Returns tt
  /\ State.searchTerm (state (snd r)) = []
  /\ (exists rest, log (snd r) = log c ++ blur :: rest)
  /\ State.filters (state (snd r)) = State.filters (state c)
  /\ State.focusedToken (state (snd r)) = State.focusedToken (state c).
Proof.
  intros He Hi r. unfold r, onKeyDown, bind, this. rewrite He, Hi.
  cbn. repeat split. exists []. reflexivity.
Qed.

Lemma escape_clears_search_witness :
  let r :=
    onKeyDown (lit "linux") (Event.make (lit "Escape") false false)
      (sample [] (lit "abc")) in
  State.searchTerm (state (sample [] (lit "abc"))) = lit "abc"
  /\ fst r = Returns tt
  /\ State.searchTerm (state (snd r)) = []
  /\ exists rest, log (snd r) = blur :: rest.
Proof.
  intros r.
  destruct (escape_clears_search (lit "linux")
              (Event.make (lit "Escape") false false)
              (sample [] (lit "abc")) (mkInput (lit "abc")) eq_refl eq_refl)
    as (H1 & H2 & H3 & _).
  split; [reflexivity|]. split; [exact H1|]. split; [exact H2|exact H3].
Defined.

(** C7. The key f with Cmd held on darwin, or with Ctrl held on any other
    platform, prevents the default action of the event and then focuses the
    search input (which must be attached): the handler returns, these are the
    two calls it makes, and it leaves the search term and the filters as
    they are.  The key f with neither modifier takes no branch of the
    handler: nothing happens. *)
Theorem ctrl_or_cmd_f_focuses_search
  (platform : jsstring) (e : Event.t) (c : Component) (input : HTMLInputElement) :
  Event.key e = lit "f" ->
  _inputRef c = Some input ->
  let r := onKeyDown platform e c in
  ((Event.metaKey e = true /\ platform = lit "darwin")
   \/ (Event.ctrlKey e = true /\ platform <> lit "darwin") ->
   fst r = Returns tt
   /\ log (snd r) = log c ++ [preventDefault; focus]
   /\ State.searchTerm (state (snd r)) = State.searchTerm (state c)
   /\ State.filters (state (snd r)) = State.filters (state c))
  /\ (Event.metaKey e = false /\ Event.ctrlKey e = false ->
      r = (Returns tt, c)).
Proof.
  intros He Hi r. unfold r, onKeyDown, ctrlOrCmd, bind, this. rewrite He, Hi.
  split.
  - intros [[-> ->] | [-> Hp]].
    + key_tests. cbn. unfold emit, set_log. cbn.
      rewrite <- app_assoc. repeat split.
    + rewrite (str_eqb_neq _ _ Hp), andb_false_r. key_tests. cbn.
      unfold emit, set_log. cbn. rewrite <- app_assoc. repeat split.
  - intros [-> ->]. reflexivity.
Qed.

Lemma ctrl_or_cmd_f_focuses_search_witness :
  log (snd (onKeyDown (lit "darwin") (Event.make (lit "f") true false)
              (sample [] []))) = [preventDefault; focus]
  /\ log (snd (onKeyDown (lit "linux") (Event.make (lit "f") false true)
                 (sample [] []))) = [preventDefault; focus]
  /\ onKeyDown (lit "linux") (Event.make (lit "f") false false) (sample [] [])
     = (Returns tt, sample [] []).
Proof.
  destruct (ctrl_or_cmd_f_focuses_search (lit "darwin")
              (Event.make (lit "f") true false) (sample [] []) (mkInput [])
              eq_refl eq_refl) as [Hmac _].
  destruct (ctrl_or_cmd_f_focuses_search (lit "linux")
              (Event.make (lit "f") false true) (sample [] []) (mkInput [])
              eq_refl eq_refl) as [Hctrl _].
  destruct (ctrl_or_cmd_f_focuses_search (lit "linux")
              (Event.make (lit "f") false false) (sample [] []) (mkInput [])
              eq_refl eq_refl) as [_ Hnone].
  destruct Hmac as (_ & Hmac & _); [left; split; reflexivity|].
  destruct Hctrl as (_ & Hctrl & _); [right; split; [reflexivity|discriminate]|].
  split; [exact Hmac|]. split; [exact Hctrl|].
  apply Hnone. split; reflexivity.
Defined.

(** The read of [persistent] in the Backspace branch: with the search box
    focused, no token focused, an empty search term and the input attached,
    the handler reads the last filter, and throws when there is none. *)
Lemma backspace_reads_last
  (platform : jsstring) (e : Event.t) (c : Component) (input : HTMLInputElement) :
  Event.key e = lit "Backspace" ->
  State.hasFocus (state c) = true ->
  State.focusedToken (state c) = (-1)%Z ->
  State.searchTerm (state c) = [] ->
  _inputRef c = Some input ->
  items (State.filters (state c)) = [] ->
  onKeyDown platform e c = (TypeError, c).
Proof.
  intros He Hf Ht Hs Hi Hl. unfold onKeyDown, hasFocus, bind, this.
  rewrite He, Hf, Ht, Hs, Hi, Hl. reflexivity.
Qed.

(** C8 (fails on the code). Backspace in the focused, empty search box of a
    component without filters: the handler evaluates
    [this.state.filters[-1].persistent] and throws a [TypeError]. *)
Theorem backspace_without_filters_throws (platform : jsstring) :
  onKeyDown platform (Event.make (lit "Backspace") false false) (sample [] [])
  = (TypeError, sample [] []).
Proof.
  apply (backspace_reads_last platform _ _ (mkInput [])); reflexivity.
Qed.

(** Removing by index: the callback keeps what stands before and after. *)
Lemma filter_from_keep {A} (l : list A) (i index : Z) :
  (index < i)%Z ->
  filter_from i (fun _ j => negb (Z.eqb j index)) l = l.
Proof.
  revert i. induction l as [|x l IH]; intros i Hi; cbn [filter_from].
  - reflexivity.
  - replace (i =? index)%Z with false by lia. cbn [negb].
    rewrite IH by lia. reflexivity.
Qed.

Lemma filter_from_remove {A} (l : list A) (i index : Z) (k : nat) :
  index = (i + Z.of_nat k)%Z ->
  filter_from i (fun _ j => negb (Z.eqb j index)) l
  = firstn k l ++ skipn (S k) l.
Proof.
  revert i k. induction l as [|x l IH]; intros i k Hk; cbn [filter_from].
  - destruct k; reflexivity.
  - destruct k as [|k].
    + replace (i =? index)%Z with true by lia. cbn [negb firstn skipn app].
      apply filter_from_keep. lia.
    + replace (i =? index)%Z with false by lia. cbn [negb firstn skipn app].
      rewrite (IH (i + 1)%Z k) by lia. reflexivity.
Qed.

(** [removeFilter] on a component with the input attached. *)
Lemma removeFilter_at (k : nat) (c : Component) (input : HTMLInputElement) :
  _inputRef c = Some input ->
  removeFilter (Z.of_nat k) c
  = (Returns tt,
     set_log (log c ++ [focus])
       (set_state
          (with_focusedToken (-1)
             (with_filters
                (mkArray (fresh c)
                   (firstn k (items (State.filters (state c)))
                    ++ skipn (S k) (items (State.filters (state c)))))
                (state c)))
          (set_fresh (S (fresh c)) c))).
Proof.
  intros Hi. unfold removeFilter, bind, this, newArray, setState, filteri.
  rewrite (filter_from_remove _ 0 (Z.of_nat k) k) by lia.
  cbn. rewrite Hi. reflexivity.
Qed.

(** C6. With the search box focused and the input attached: Backspace with
    an empty search term and no token focused blurs the input and moves the
    focus to the last filter token, provided that token is not persistent;
    Backspace or Delete with the token of index [k] focused removes that
    token from the filters, keeps the others in their order, resets the
    focused token to -1 and, as the last thing it does, gives the focus back
    to the input. *)
Theorem backspace_delete_filter_tokens
  (platform : jsstring) (e : Event.t) (c : Component) (input : HTMLInputElement) :
  _inputRef c = Some input ->
  (Event.key e = lit "Backspace" ->
   State.hasFocus (state c) = true ->
   State.focusedToken (state c) = (-1)%Z ->
   State.searchTerm (state c) = [] ->
   forall front last,
     items (State.filters (state c)) = front ++ [last] ->
     persistent last <> Some true ->
     onKeyDown platform e c
     = (Returns tt,
        set_state (with_focusedToken (Z.of_nat (List.length front)) (state c))
          (set_log (log c ++ [blur]) c)))
  /\ (Event.key e = lit "Backspace" \/ Event.key e = lit "Delete" ->
      forall k : nat,
        State.focusedToken (state c) = Z.of_nat k ->
        let filters := items (State.filters (state c)) in
        let after := snd (onKeyDown platform e c) in
        fst (onKeyDown platform e c) = Returns tt
        /\ items (State.filters (state after))
           = firstn k filters ++ skipn (S k) filters
        /\ State.focusedToken (state after) = (-1)%Z
        /\ State.searchTerm (state after) = State.searchTerm (state c)
        /\ exists before, log after = log c ++ before ++ [focus]).
Proof.
  intros Hi. split.
  - intros He Hf Ht Hs front last Hl Hp.
    unfold onKeyDown, hasFocus, bind, this. rewrite He, Hf, Ht, Hs, Hi, Hl.
    cbn [str_eqb lit]. cbn -[Z.of_nat Z.sub].
    unfold get. rewrite length_app. cbn [List.length].
    replace (Z.of_nat (List.length front + 1) - 1 <? 0)%Z with false by lia.
    replace (Z.to_nat (Z.of_nat (List.length front + 1) - 1))
      with (List.length front) by lia.
    rewrite nth_error_app2, Nat.sub_diag by lia. cbn [nth_error].
    replace (Z.of_nat (List.length front + 1) - 1)%Z
      with (Z.of_nat (List.length front)) by lia.
    destruct (persistent last) as [[|]|]; [congruence| |]; reflexivity.
  - intros He k Hk.
    assert (E : onKeyDown platform e c = removeFilter (Z.of_nat k) c).
    { unfold onKeyDown, hasFocus, bind, this. rewrite Hk.
      replace (Z.of_nat k =? -1)%Z with false by lia.
      replace (Z.of_nat k >? -1)%Z with true by lia.
      destruct He as [-> | ->]; cbn; reflexivity. }
    cbv zeta. rewrite E, (removeFilter_at k c input Hi). cbn.
    repeat split. exists []. reflexivity.
Qed.

Lemma backspace_delete_filter_tokens_witness :
  let a := newFilter Include (lit "a") (lit "1") in
  let b := newFilter Exclude (lit "b") (lit "2") in
  let c := newFilter Include (lit "c") (lit "3") in
  State.focusedToken
    (state (snd (onKeyDown (lit "linux")
                   (Event.make (lit "Backspace") false false)
                   (sample [a; b; c] [])))) = 2%Z
  /\ items (State.filters
              (state (snd (onKeyDown (lit "linux")
                             (Event.make (lit "Delete") false false)
                             (set_state
                                (with_focusedToken 1 (state (sample [a; b; c] [])))
                                (sample [a; b; c] [])))))) = [a; c].
Proof.
  intros a b c. split.
  - destruct (backspace_delete_filter_tokens (lit "linux")
                (Event.make (lit "Backspace") false false)
                (sample [a; b; c] []) (mkInput []) eq_refl) as [H _].
    rewrite (H eq_refl eq_refl eq_refl eq_refl [a; b] c eq_refl)
      by discriminate.
    reflexivity.
  - destruct (backspace_delete_filter_tokens (lit "linux")
                (Event.make (lit "Delete") false false)
                (set_state (with_focusedToken 1 (state (sample [a; b; c] [])))
                   (sample [a; b; c] []))
                (mkInput []) eq_refl) as [_ H].
    destruct (H (or_intror eq_refl) 1%nat eq_refl) as (_ & -> & _).
    reflexivity.
Defined.

End KeyFacts.

(** ** Adding and clearing filters *)

Module FilterFacts.

Import JS JSFacts Searchable.

Lemma findIndex_absent {A} (p : A -> bool) (l : list A) :
  (forall x, In x l -> p x = false) -> findIndex p l = (-1)%Z.
Proof.
  induction l as [|x l IH]; intros H; cbn [findIndex]; [reflexivity|].
  rewrite (H x (or_introl eq_refl)), IH by (intros y Hy; apply H; right; exact Hy).
  reflexivity.
Qed.

Lemma findIndex_found {A} (p : A -> bool) (l : list A) :
  (exists x, In x l /\ p x = true) ->
  exists n x, findIndex p l = Z.of_nat n /\ nth_error l n = Some x /\ p x = true.
Proof.
  induction l as [|y l IH]; intros (x & Hx & Hp); [destruct Hx|].
  cbn [findIndex]. destruct (p y) eqn:Hy.
  - exists O, y; auto.
  - destruct Hx as [-> | Hx]; [congruence|].
    destruct (IH (ex_intro _ x (conj Hx Hp))) as (n & z & -> & Hn & Hz).
    exists (S n), z. replace (Z.of_nat n <? 0)%Z with false by lia.
    split; [lia|auto].
Qed.

Lemma key_absent (filter : Filter) (l : list Filter) :
  ~ In (key filter) (map key l) -> findIndex (fun f => str_eqb (key f) (key filter)) l = (-1)%Z.
Proof.
  intros H. apply findIndex_absent. intros x Hx.
  apply str_eqb_neq. intros E. apply H. rewrite <- E. apply in_map; exact Hx.
Qed.

Lemma key_present (filter : Filter) (l : list Filter) :
  In (key filter) (map key l) ->
  exists n x, findIndex (fun f => str_eqb (key f) (key filter)) l = Z.of_nat n
              /\ nth_error l n = Some x /\ key x = key filter.
Proof.
  intros H. apply in_map_iff in H as (x & E & Hx).
  destruct (findIndex_found (fun f => str_eqb (key f) (key filter)) l)
    as (n & y & Hn & Hy & Hk).
  - exists x; split; [exact Hx|]. apply str_eqb_eq; exact E.
  - exists n, y. apply str_eqb_eq in Hk. auto.
Qed.

Lemma set_nth_keys (l : list Filter) (n : nat) (x y : Filter) :
  nth_error l n = Some x -> key y = key x ->
  map key (set_nth l n y) = map key l
  /\ List.length (set_nth l n y) = List.length l.
Proof.
  revert n. induction l as [|z l IH]; intros [|n] H E; try discriminate.
  - injection H as ->. cbn. rewrite E. auto.
  - cbn [set_nth map List.length]. destruct (IH n H E) as [-> ->]. auto.
Qed.

(** [addFilter] of a filter whose key is new. *)
Lemma addFilter_new (filter : Filter) (c : Component) :
  ~ In (key filter) (map key (items (State.filters (state c)))) ->
  addFilter filter c
  = (Returns tt,
     set_state
       (with_focusedToken (-1)
          (with_filters
             (mkArray (fresh c)
                (match persistent filter with
                 | Some true => filter :: items (State.filters (state c))
                 | _ => items (State.filters (state c)) ++ [filter]
                 end))
             (state c)))
       (set_fresh (S (fresh c)) c)).
Proof.
  intros H. unfold addFilter, bind, this.
  rewrite (key_absent _ _ H). reflexivity.
Qed.

Lemma get_of_nat {A} (l : list A) (n : nat) : get l (Z.of_nat n) = nth_error l n.
Proof.
  unfold get. replace (Z.of_nat n <? 0)%Z with false by lia.
  rewrite Nat2Z.id. reflexivity.
Qed.

(** [addFilter] of a filter whose key is there: the filters keep their
    number and their keys, whether the call returns or throws. *)
Lemma addFilter_known (filter : Filter) (c : Component) :
  In (key filter) (map key (items (State.filters (state c)))) ->
  let after := snd (addFilter filter c) in
  map key (items (State.filters (state after)))
  = map key (items (State.filters (state c)))
  /\ List.length (items (State.filters (state after)))
     = List.length (items (State.filters (state c)))
  /\ (defaultFilters (props c) <> None -> fst (addFilter filter c) = Returns tt).
Proof.
  intros H. destruct (key_present _ _ H) as (n & x & Hn & Hx & Hk).
  unfold addFilter, bind, this. rewrite Hn.
  replace (Z.of_nat n >? -1)%Z with true by lia.
  cbn [newArray]. destruct (defaultFilters (props c)) as [defaults|].
  - cbn [ret items]. rewrite !get_of_nat, Nat2Z.id, Hx.
    destruct (nth_error (items defaults) n) as [d|]; cbn;
      [destruct (FilterType_eqb (type d) Enum); cbn;
       [destruct (FilterType_eqb (type x) Enum); cbn|]|]; auto.
    destruct (set_nth_keys _ n x (set_enum x (enum d)) Hx eq_refl) as [-> ->].
    auto.
  - cbn. repeat split; congruence.
Qed.

Lemma NoDup_snoc (l : list jsstring) (x : jsstring) :
  NoDup l -> ~ In x l -> NoDup (l ++ [x]).
Proof.
  intros Hl Hx. induction l as [|y l IH]; cbn [app].
  - constructor; [intros []|constructor].
  - inversion Hl as [|? ? Hy Hl']; subst. constructor.
    + rewrite in_app_iff. intros [H | [-> | []]]; [auto|].
      apply Hx; left; reflexivity.
    + apply IH; [exact Hl'|]. intros H; apply Hx; right; exact H.
Qed.

(** C9. Filter keys stay unique under [addFilter]: on filters with pairwise
    distinct keys, a filter whose key is already there leaves the number of
    filters and their keys as they are (no duplicate is added); any other
    filter is put at the front when it is persistent and at the end when it
    is not.  The keys are pairwise distinct afterwards. *)
Theorem addFilter_keeps_keys_unique (filter : Filter) (c : Component) :
  NoDup (map key (items (State.filters (state c)))) ->
  let filters := items (State.filters (state c)) in
  let after := items (State.filters (state (snd (addFilter filter c)))) in
  (In (key filter) (map key filters) ->
   List.length after = List.length filters /\ map key after = map key filters)
  /\ (~ In (key filter) (map key filters) ->
      fst (addFilter filter c) = Returns tt
      /\ after = match persistent filter with
                 | Some true => filter :: filters
                 | _ => filters ++ [filter]
                 end)
  /\ NoDup (map key after).
Proof.
  intros Hnd filters after.
  assert (Hin : In (key filter) (map key filters) ->
                List.length after = List.length filters
                /\ map key after = map key filters).
  { intros H. destruct (addFilter_known filter c H) as (Hk & Hl & _). auto. }
  assert (Hout : ~ In (key filter) (map key filters) ->
                 fst (addFilter filter c) = Returns tt
                 /\ after = match persistent filter with
                            | Some true => filter :: filters
                            | _ => filters ++ [filter]
                            end).
  { intros H. unfold after. rewrite (addFilter_new filter c H). auto. }
  split; [exact Hin|]. split; [exact Hout|].
  destruct (in_dec (list_eq_dec N.eq_dec) (key filter) (map key filters))
    as [H | H].
  - destruct (Hin H) as [_ ->]. exact Hnd.
  - destruct (Hout H) as [_ ->].
    destruct (persistent filter) as [[|]|]; cbn [map];
      try (rewrite map_app; apply NoDup_snoc; assumption).
    constructor; assumption.
Qed.

Lemma addFilter_keeps_keys_unique_witness :
  let a := newFilter Include (lit "a") (lit "1") in
  let a' := newFilter Exclude (lit "a") (lit "9") in
  let b := newFilter Include (lit "b") (lit "2") in
  let p := mkFilter Include (lit "p") (Str (lit "3")) None (Some true) in
  NoDup (map key [a])
  /\ map key (items (State.filters (state (snd (addFilter a' (sample [a] []))))))
     = [lit "a"]
  /\ items (State.filters (state (snd (addFilter b (sample [a] []))))) = [a; b]
  /\ items (State.filters (state (snd (addFilter p (sample [a] []))))) = [p; a].
Proof.
  intros a a' b p.
  assert (Hnd : NoDup (map key (items (State.filters (state (sample [a] [])))))).
  { constructor; [intros []|constructor]. }
  split; [exact Hnd|].
  destruct (addFilter_keeps_keys_unique a' (sample [a] []) Hnd) as (Ha & _ & _).
  destruct (addFilter_keeps_keys_unique b (sample [a] []) Hnd) as (_ & Hb & _).
  destruct (addFilter_keeps_keys_unique p (sample [a] []) Hnd) as (_ & Hp & _).
  split; [apply Ha; left; reflexivity|].
  split.
  - apply Hb. intros [E | []]. discriminate E.
  - apply Hp. intros [E | []]. discriminate E.
Defined.

(** C10. [clear] resets the search term to the empty string and keeps
    exactly the filters whose [persistent] field is [true], in their
    original order; every other filter is removed. *)
Theorem clear_keeps_persistent_filters (c : Component) :
  let filters := items (State.filters (state c)) in
  let after := state (snd (clear c)) in
  fst (clear c) = Returns tt
  /\ State.searchTerm after = []
  /\ items (State.filters after)
     = List.filter
         (fun f => match persistent f with Some true => true | _ => false end)
         filters
  /\ (forall f, In f (items (State.filters after))
                <-> In f filters /\ persistent f = Some true).
Proof.
  intros filters after.
  assert (E : items (State.filters after)
              = List.filter
                  (fun f => match persistent f with
                            | Some true => true
                            | _ => false
                            end) filters).
  { unfold after, clear, bind, this. cbn. apply filter_ext.
    intros f. destruct (persistent f) as [[|]|]; reflexivity. }
  split; [reflexivity|]. split; [reflexivity|]. split; [exact E|].
  intros f. rewrite E, filter_In.
  destruct (persistent f) as [[|]|]; intuition congruence.
Qed.

End FilterFacts.

(** ** Persistence *)

Module PersistFacts.

Import JS JSFacts Searchable.

(** The table key is a non-empty string whenever the [tableKey] prop is set
    or columns are given. *)
Lemma getTableKey_truthy (toUpperCase : jsstring -> jsstring) (c : Component) :
  truthy (getTableKey toUpperCase c)
  = truthy (tableKey (props c)) || isSome (columns (props c)).
Proof.
  unfold getTableKey. destruct (truthy (tableKey (props c))) eqn:E.
  - rewrite E. reflexivity.
  - destruct (columns (props c)); reflexivity.
Qed.

(** C4. The search term and the filters are written to local storage under
    a key made from the identity of the table: ['SEARCHABLE_STORAGE_KEY_']
    followed by the [tableKey] prop when that is set (a non-empty string),
    and otherwise, when columns are given, by ['TABLE_COLUMNS_'] and the
    upper-cased column keys joined with ['_'].  With a key, a change of the
    search term or of the filters array is written under it; without
    [tableKey] and without columns nothing is written. *)
Theorem state_persisted_under_table_key
  (toUpperCase : jsstring -> jsstring)
  (prevProps : Props) (prevState : State.t) (c : Component) :
  let storageKey := getPersistKey toUpperCase c in
  let after := snd (componentDidUpdate toUpperCase prevProps prevState c) in
  let changed :=
    negb (str_eqb (State.searchTerm prevState) (State.searchTerm (state c)))
    || negb (Nat.eqb (ref (State.filters prevState))
               (ref (State.filters (state c)))) in
  (forall k, tableKey (props c) = Some k -> k <> [] ->
             storageKey = lit "SEARCHABLE_STORAGE_KEY_" ++ k)
  /\ (forall cols,
        truthy (tableKey (props c)) = false ->
        columns (props c) = Some cols ->
        storageKey
        = lit "SEARCHABLE_STORAGE_KEY_"
          ++ lit "TABLE_COLUMNS_" ++ toUpperCase (join cols (ch "_")))
  /\ (truthy (tableKey (props c)) = true \/ columns (props c) <> None ->
      changed = true ->
      log after
      = log c
        ++ setItem storageKey (State.searchTerm (state c))
             (items (State.filters (state c)))
           :: (if onFilterChange (props c)
               then [callOnFilterChange (State.filters (state c))]
               else []))
  /\ (truthy (tableKey (props c)) = false -> columns (props c) = None ->
      log after = log c).
Proof.
  intros storageKey after changed.
  split; [|split; [|split]].
  - intros k Hk Hne. unfold storageKey, getPersistKey, getTableKey.
    rewrite Hk. destruct k as [|x k]; [contradiction|]. reflexivity.
  - intros cols Ht Hc. unfold storageKey, getPersistKey, getTableKey.
    rewrite Ht, Hc. reflexivity.
  - intros Hkey Hch.
    assert (Ht : truthy (getTableKey toUpperCase c) = true).
    { rewrite getTableKey_truthy. destruct Hkey as [-> | H]; [reflexivity|].
      destruct (columns (props c)); [apply orb_true_r|contradiction]. }
    unfold after, componentDidUpdate, bind, this.
    unfold differ at 1. fold changed. rewrite Ht, Hch. cbn.
    destruct (onFilterChange (props c)); cbn.
    + rewrite <- app_assoc. reflexivity.
    + reflexivity.
  - intros Ht Hc.
    assert (Hk : truthy (getTableKey toUpperCase c) = false).
    { rewrite getTableKey_truthy, Ht, Hc. reflexivity. }
    unfold after, componentDidUpdate, bind, this. rewrite Hk. cbn [andb].
    destruct (differ (defaultFilters prevProps) (defaultFilters (props c)));
      [|reflexivity].
    cbn. destruct (defaultFilters (props c)); reflexivity.
Qed.

Lemma state_persisted_under_table_key_witness :
  let named := sampleTable (mkProps (Some (lit "logs")) None false None) in
  let table :=
    sampleTable (mkProps None (Some [lit "name"; lit "value"]) false None) in
  let bare := sampleTable (mkProps None None false None) in
  log (snd (componentDidUpdate asciiUpper (props named) sampleBefore named))
  = [setItem (lit "SEARCHABLE_STORAGE_KEY_logs") (lit "x") []]
  /\ log (snd (componentDidUpdate asciiUpper (props table) sampleBefore table))
     = [setItem (lit "SEARCHABLE_STORAGE_KEY_TABLE_COLUMNS_NAME_VALUE")
          (lit "x") []]
  /\ log (snd (componentDidUpdate asciiUpper (props bare) sampleBefore bare))
     = [].
Proof.
  intros named table bare.
  pose proof (state_persisted_under_table_key asciiUpper (props named)
                sampleBefore named) as (Hk1 & _ & Hw1 & _).
  pose proof (state_persisted_under_table_key asciiUpper (props table)
                sampleBefore table) as (_ & Hk2 & Hw2 & _).
  pose proof (state_persisted_under_table_key asciiUpper (props bare)
                sampleBefore bare) as (_ & _ & _ & Hn).
  split; [|split].
  - etransitivity; [apply Hw1; [left; reflexivity|reflexivity]|].
    rewrite (Hk1 (lit "logs") eq_refl ltac:(discriminate)).
    reflexivity.
  - etransitivity; [apply Hw2; [right; discriminate|reflexivity]|].
    rewrite (Hk2 [lit "name"; lit "value"] eq_refl eq_refl).
    reflexivity.
  - apply Hn; reflexivity.
Defined.

End PersistFacts.

(** ** Filters from the search text *)

Module RunFacts.

Import JS JSFacts RegExp Searchable RegExpFacts TagFacts FilterFacts.

Local Open Scope js_scope.

Lemma forEach_middle {A} (f : A -> M unit) (a : list A) (x : A) (b : list A)
  (c : Component) :
  forEach (a ++ x :: b) f c = (forEach a f ;; f x ;; forEach b f) c.
Proof.
  revert c. induction a as [|y a IH]; intros c; cbn [app forEach].
  - reflexivity.
  - unfold bind. destruct (f y c) as [[u|] c1]; [|reflexivity].
    rewrite IH. reflexivity.
Qed.

Lemma forEach_last {A} (f : A -> M unit) (a : list A) (x : A) (c : Component) :
  forEach (a ++ [x]) f c = (forEach a f ;; f x) c.
Proof.
  rewrite forEach_middle. unfold bind. cbn [forEach].
  destruct (forEach a f c) as [[u|] c1]; [|reflexivity].
  destruct (f x c1) as [[[]|] c2]; reflexivity.
Qed.

(** The function behind [matchTags] calls [addFilter] on the filter of every
    match, in the order of the matches. *)
Lemma matchTags_func_matches (searchTerm : jsstring) (matchEnd : bool)
  (a : list jsstring) (x : jsstring) (b : list jsstring) :
  scan (filterPattern matchEnd) 0 searchTerm = a ++ x :: b ->
  String_match searchTerm (filterPattern matchEnd) = Some (a ++ x :: b)
  /\ forall c,
       matchTags_func searchTerm matchEnd c
       = forEach (a ++ x :: b) (fun m => addFilter (tagFilter m)) c.
Proof.
  intros E.
  assert (Hm : String_match searchTerm (filterPattern matchEnd)
               = Some (a ++ x :: b)).
  { unfold String_match. rewrite E. destruct a; reflexivity. }
  split; [exact Hm|]. intros c. unfold matchTags_func. rewrite Hm.
  replace (0 <? List.length (a ++ x :: b))%nat with true; [reflexivity|].
  symmetry. apply Nat.ltb_lt. rewrite length_app. cbn [List.length]. lia.
Qed.

Lemma tagFilter_persistent (m : jsstring) : persistent (tagFilter m) = None.
Proof.
  unfold tagFilter.
  destruct (split m _) as [k v].
  destruct (indexOf (trim (join v _)) (ch "!") =? 0)%Z;
    destruct (indexOf k (ch "!") =? len k - 1)%Z; reflexivity.
Qed.

Lemma single_match (before after : list jsstring) (x y : jsstring) :
  Some [y] = Some (before ++ x :: after) -> before = [] /\ after = [].
Proof.
  intros H. injection H as H.
  destruct before as [|z [|z' before]]; [|discriminate|discriminate].
  injection H as _ <-. auto.
Qed.

(** A call of the debounced [matchTags] and the end of its timer run the
    function on the arguments of the call. *)
Lemma matchTags_timer (searchTerm : jsstring) (matchEnd : bool) (c : Component) :
  (matchTags searchTerm matchEnd ;; trailingEdge) c
  = matchTags_func searchTerm matchEnd (set_pending None c).
Proof. reflexivity. Qed.

(** Without [matchEnd], a token that ends the input is not a match. *)
Lemma end_token_not_matched (s t : jsstring) (ms : list jsstring) :
  token t ->
  String_match s (filterPattern false) = Some ms -> ~ In t ms.
Proof.
  intros Ht Hm Hin.
  assert (Hs : In t (scan (filterPattern false) 0 s)).
  { unfold String_match in Hm.
    destruct (scan (filterPattern false) 0 s); [discriminate|].
    injection Hm as <-. exact Hin. }
  apply scan_matches_spaced in Hs as (t' & w & _ & Hw & E).
  pose proof (token_nonSpace _ Ht) as Hn. rewrite E, forallb_app in Hn.
  cbn [forallb] in Hn. rewrite (space_not_nonSpace _ Hw) in Hn.
  rewrite andb_false_r in Hn. discriminate.
Qed.

End RunFacts.

(** ** More on the filters of the search text *)

Module ParseFacts.

Import JS JSFacts RegExp Searchable RegExpFacts TagFacts FilterFacts RunFacts.

Local Open Scope js_scope.

(** The filter of a token of any of the four forms, followed by white
    space, when the value holds neither separator. *)
Lemma tagFilter_token (k b : jsstring) (sep : N) (v trail : jsstring) :
  isKey k = true ->
  b = [] \/ b = [ch "!"] ->
  colonOrEquals sep = true ->
  isValue v = true ->
  occurs (ch ":") v = false ->
  occurs (ch "=") v = false ->
  forallb isSpace trail = true ->
  tagFilter (k ++ b ++ sep :: v ++ trail)
  = newFilter
      (match b with
       | [] => if negated v then Exclude else Include
       | _ :: _ => Exclude
       end) k (if negated v then tl v else v).
Proof.
  intros Hk Hb Hsep Hv Hcol Heq Ht.
  assert (Hs : sep = ch ":" \/ sep = ch "=").
  { unfold colonOrEquals in Hsep. apply orb_true_iff in Hsep.
    destruct Hsep as [H | H]; apply N.eqb_eq in H; auto. }
  destruct Hb as [-> | ->]; destruct Hs as [-> | ->]; cbn [app].
  - apply tagFilter_colon; assumption.
  - (* key=value *)
    pose proof (key_alnum _ Hk) as Hka. pose proof (key_len _ Hk) as Hlen.
    assert (Hc : occurs (ch ":") (k ++ ch "=" :: v ++ trail) = false).
    { rewrite occurs_app. cbn [occurs existsb].
      fold (occurs (ch ":") (v ++ trail)). rewrite occurs_app, Hcol.
      rewrite (occurs_class alnum (ch ":") _ Hka eq_refl).
      rewrite (occurs_class isSpace (ch ":") _ Ht eq_refl). reflexivity. }
    assert (He : occurs (ch "=") k = false)
      by (apply (occurs_class alnum); [exact Hka|reflexivity]).
    assert (Hb : occurs (ch "!") k = false)
      by (apply (occurs_class alnum); [exact Hka|reflexivity]).
    unfold tagFilter.
    rewrite (indexOf_absent _ _ Hc), (indexOf_first k (v ++ trail) _ He).
    replace (-1 >? len k)%Z with false by lia.
    rewrite (split_first k (v ++ trail) _ He), join_split.
    rewrite (trim_value _ _ Hv Ht), (value_branch _ Hv).
    rewrite (indexOf_absent _ _ Hb).
    replace (-1 =? len k - 1)%Z with false by lia.
    reflexivity.
  - (* key!:value *)
    pose proof (key_alnum _ Hk) as Hka.
    assert (He : occurs (ch "=") (k ++ ch "!" :: ch ":" :: v ++ trail) = false).
    { rewrite occurs_app. cbn [occurs existsb].
      fold (occurs (ch "=") (v ++ trail)). rewrite occurs_app, Heq.
      rewrite (occurs_class alnum (ch "=") _ Hka eq_refl).
      rewrite (occurs_class isSpace (ch "=") _ Ht eq_refl). reflexivity. }
    assert (Hc : occurs (ch ":") (k ++ [ch "!"]) = false).
    { rewrite occurs_app, (occurs_class alnum (ch ":") _ Hka eq_refl).
      reflexivity. }
    assert (Hb : occurs (ch "!") k = false)
      by (apply (occurs_class alnum); [exact Hka|reflexivity]).
    unfold tagFilter.
    rewrite (indexOf_absent _ _ He).
    change (k ++ ch "!" :: ch ":" :: v ++ trail)
      with (k ++ [ch "!"] ++ ch ":" :: v ++ trail).
    rewrite app_assoc.
    rewrite (indexOf_first (k ++ [ch "!"]) (v ++ trail) _ Hc).
    replace (len (k ++ [ch "!"]) >? -1)%Z with true by (unfold len; lia).
    rewrite (split_first (k ++ [ch "!"]) (v ++ trail) _ Hc), join_split.
    rewrite (trim_value _ _ Hv Ht), (value_branch _ Hv).
    rewrite (indexOf_first k [] _ Hb).
    replace (len k =? len (k ++ [ch "!"]) - 1)%Z with true
      by (unfold len; rewrite length_app; cbn [List.length]; lia).
    rewrite slice_drop_last. destruct (negated v); reflexivity.
  - rewrite (tagFilter_bang_equals k v trail Hk Hv Hcol Ht). reflexivity.
Qed.

Lemma token_has_separator (t : jsstring) :
  token t -> occurs (ch ":") t || occurs (ch "=") t = true.
Proof.
  intros [k b sep v _ _ Hsep _].
  rewrite !occurs_app. cbn [occurs existsb].
  unfold colonOrEquals in Hsep. apply orb_true_iff in Hsep.
  destruct Hsep as [H | H]; apply N.eqb_eq in H; subst sep.
  - change (N.eqb (ch ":") (ch ":")) with true. cbn [orb].
    rewrite !orb_true_r. reflexivity.
  - change (N.eqb (ch "=") (ch "=")) with true. cbn [orb].
    rewrite !orb_true_r. reflexivity.
Qed.

(** Every match is a token with the white space behind it, or, with
    [matchEnd], a token that ends the text. *)
Lemma scan_shape (matchEnd : bool) (s m : jsstring) (skip : nat) :
  In m (scan (filterPattern matchEnd) skip s) ->
  exists t, token t
    /\ ((exists w s1 s2, isSpace w = true /\ m = t ++ [w]
                         /\ s = s1 ++ t ++ w :: s2)
        \/ (matchEnd = true /\ m = t /\ exists s1, s = s1 ++ t)).
Proof.
  intros H. apply scan_In in H as (s1 & s2 & rest & -> & E & ->).
  destruct (matchAt_inv _ _ _ E) as (t & Ht & [(w & Hw & ->) | (-> & -> & ->)]);
    exists t; (split; [exact Ht|]).
  - left. exists w, s1, rest. rewrite firstn_match. auto.
  - right. cbn [List.length]. rewrite Nat.sub_0_r, firstn_all.
    split; [reflexivity|]. split; [reflexivity|]. exists s1; reflexivity.
Qed.

Lemma String_match_In (s : jsstring) (r : regex) (ms : list jsstring)
  (m : jsstring) :
  String_match s r = Some ms -> In m ms -> In m (scan r 0 s).
Proof.
  unfold String_match. destruct (scan r 0 s); [discriminate|].
  intros H; injection H as <-. auto.
Qed.

(** X2. Every match of either pattern is a token and the white space
    character behind it; only with [matchEnd] can a match go without the
    white space, and then the token ends the text. *)
Theorem matches_are_tokens
  (matchEnd : bool) (s : jsstring) (ms : list jsstring) (m : jsstring) :
  String_match s (filterPattern matchEnd) = Some ms ->
  In m ms ->
  exists t, token t
    /\ ((exists w s1 s2, isSpace w = true /\ m = t ++ [w]
                         /\ s = s1 ++ t ++ w :: s2)
        \/ (matchEnd = true /\ m = t /\ exists s1, s = s1 ++ t)).
Proof.
  intros Hm Hin. apply (scan_shape matchEnd s m 0).
  exact (String_match_In _ _ _ _ Hm Hin).
Qed.

Lemma matches_are_tokens_witness :
  exists t, token t
    /\ ((exists w s1 s2, isSpace w = true /\ lit "g:h" = t ++ [w]
                         /\ lit "a:b g:h" = s1 ++ t ++ w :: s2)
        \/ (true = true /\ lit "g:h" = t /\ exists s1, lit "a:b g:h" = s1 ++ t)).
Proof.
  apply (matches_are_tokens true (lit "a:b g:h") [lit "a:b "; lit "g:h"]
           (lit "g:h")).
  - vm_compute. reflexivity.
  - right; left; reflexivity.
Defined.

Lemma scan_without_separator (matchEnd : bool) (s : jsstring) (skip : nat) :
  occurs (ch ":") s = false -> occurs (ch "=") s = false ->
  scan (filterPattern matchEnd) skip s = [].
Proof.
  intros Hc He.
  destruct (scan (filterPattern matchEnd) skip s) as [|m ms] eqn:E;
    [reflexivity|].
  assert (Hin : In m (scan (filterPattern matchEnd) skip s))
    by (rewrite E; left; reflexivity).
  apply scan_shape in Hin as (t & Ht & Hcase).
  pose proof (token_has_separator _ Ht) as Hsep.
  assert (Hsub : exists s1 s2, s = s1 ++ t ++ s2).
  { destruct Hcase as [(w & s1 & s2 & _ & _ & ->) | (_ & _ & s1 & ->)].
    - exists s1, (w :: s2); reflexivity.
    - exists s1, []; rewrite app_nil_r; reflexivity. }
  destruct Hsub as (s1 & s2 & ->).
  rewrite !occurs_app in Hc, He.
  apply orb_false_iff in Hc as [_ Hc]. apply orb_false_iff in Hc as [Hc _].
  apply orb_false_iff in He as [_ He]. apply orb_false_iff in He as [He _].
  rewrite Hc, He in Hsep. discriminate.
Qed.

(** X3. A search text without a colon and without an equals sign has no
    match: the function behind [matchTags] returns and leaves the component
    as it is. *)
Theorem plain_text_adds_no_filter
  (matchEnd : bool) (searchTerm : jsstring) (c : Component) :
  occurs (ch ":") searchTerm = false ->
  occurs (ch "=") searchTerm = false ->
  String_match searchTerm (filterPattern matchEnd) = None
  /\ matchTags_func searchTerm matchEnd c = (Returns tt, c).
Proof.
  intros Hc He.
  assert (E : String_match searchTerm (filterPattern matchEnd) = None).
  { unfold String_match. rewrite (scan_without_separator _ _ _ Hc He).
    reflexivity. }
  split; [exact E|]. unfold matchTags_func. rewrite E. reflexivity.
Qed.

Lemma plain_text_adds_no_filter_witness :
  matchTags_func (lit "out of memory!") true (sample [] [])
  = (Returns tt, sample [] []).
Proof.
  apply (plain_text_adds_no_filter true (lit "out of memory!") (sample [] []));
    reflexivity.
Defined.

End ParseFacts.

(** ** More on adding filters *)

Module AddFacts.

Import JS JSFacts RegExp Searchable FilterFacts RunFacts ParseFacts.

Local Open Scope js_scope.

(** [addFilter] of a known key without default filters. *)
Lemma addFilter_known_throws (filter : Filter) (c : Component) :
  In (key filter) (map key (items (State.filters (state c)))) ->
  defaultFilters (props c) = None ->
  addFilter filter c = (TypeError, set_fresh (S (fresh c)) c).
Proof.
  intros H Hd. destruct (key_present _ _ H) as (n & x & Hn & _ & _).
  unfold addFilter, bind, this. rewrite Hn.
  replace (Z.of_nat n >? -1)%Z with true by lia.
  cbn [newArray]. rewrite Hd. reflexivity.
Qed.

Lemma key_dec (filter : Filter) (c : Component) :
  {In (key filter) (map key (items (State.filters (state c))))}
  + {~ In (key filter) (map key (items (State.filters (state c))))}.
Proof. apply in_dec, list_eq_dec, N.eq_dec. Qed.

Lemma addFilter_outcome (filter : Filter) (c : Component) :
  (fst (addFilter filter c) = TypeError
   <-> In (key filter) (map key (items (State.filters (state c))))
       /\ defaultFilters (props c) = None)
  /\ (fst (addFilter filter c) = TypeError ->
      state (snd (addFilter filter c)) = state c)
  /\ (fst (addFilter filter c) <> TypeError ->
      fst (addFilter filter c) = Returns tt).
Proof.
  destruct (key_dec filter c) as [Hin | Hout].
  - destruct (defaultFilters (props c)) as [d|] eqn:Hd.
    + destruct (addFilter_known filter c Hin) as (_ & _ & Hret).
      rewrite Hd in Hret. specialize (Hret ltac:(discriminate)).
      rewrite Hret. repeat split; try discriminate; try tauto.
      intros [_ H]; discriminate H.
    + rewrite (addFilter_known_throws filter c Hin Hd). cbn.
      repeat split; auto. intros H; contradiction H; reflexivity.
  - rewrite (addFilter_new filter c Hout). cbn.
    repeat split; try discriminate; try tauto.
Qed.

(** X4. [addFilter] throws a [TypeError] exactly when a filter of the key is
    there and the component has no default filters (it then reads
    [this.props.defaultFilters[filterIndex]]); the state is as it was.  In
    every other case it returns. *)
Theorem addFilter_throws_iff (filter : Filter) (c : Component) :
  (fst (addFilter filter c) = TypeError
   <-> In (key filter) (map key (items (State.filters (state c))))
       /\ defaultFilters (props c) = None)
  /\ (fst (addFilter filter c) = TypeError ->
      state (snd (addFilter filter c)) = state c)
  /\ (fst (addFilter filter c) <> TypeError ->
      fst (addFilter filter c) = Returns tt).
Proof. exact (addFilter_outcome filter c). Qed.

Lemma sameSurroundings_refl (c : Component) : sameSurroundings c c.
Proof. repeat split. Qed.

Lemma sameSurroundings_trans (c1 c2 c3 : Component) :
  sameSurroundings c1 c2 -> sameSurroundings c2 c3 -> sameSurroundings c1 c3.
Proof.
  unfold sameSurroundings. intros (A1 & A2 & A3 & A4 & A5 & A6)
    (B1 & B2 & B3 & B4 & B5 & B6).
  repeat split; congruence.
Qed.

Lemma addFilter_surroundings (filter : Filter) (c : Component) :
  sameSurroundings c (snd (addFilter filter c)).
Proof.
  destruct (key_dec filter c) as [Hin | Hout].
  - destruct (key_present _ _ Hin) as (n & x & Hn & Hx & _).
    unfold addFilter, bind, this. rewrite Hn.
    replace (Z.of_nat n >? -1)%Z with true by lia.
    cbn [newArray]. destruct (defaultFilters (props c)) as [defaults|] eqn:Hd.
    + cbn [ret items]. rewrite !get_of_nat, Hx.
      destruct (nth_error (items defaults) n) as [d|]; cbn;
        [destruct (FilterType_eqb (type d) Enum); cbn;
         [destruct (FilterType_eqb (type x) Enum); cbn|]|];
        repeat split.
    + cbn. repeat split.
  - rewrite (addFilter_new filter c Hout). repeat split.
Qed.

Lemma forEach_addFilter_surroundings (fs : list Filter) (c : Component) :
  sameSurroundings c (snd (forEach fs addFilter c)).
Proof.
  revert c. induction fs as [|f fs IH]; intros c; cbn [forEach].
  - apply sameSurroundings_refl.
  - unfold bind. pose proof (addFilter_surroundings f c) as H.
    destruct (addFilter f c) as [[u|] c1]; cbn [snd] in *; [|exact H].
    exact (sameSurroundings_trans _ _ _ H (IH c1)).
Qed.

Lemma forEach_map {A B} (g : A -> B) (f : B -> M unit) (l : list A)
  (c : Component) :
  forEach l (fun x => f (g x)) c = forEach (map g l) f c.
Proof.
  revert c. induction l as [|x l IH]; intros c; cbn [forEach map].
  - reflexivity.
  - unfold bind. destruct (f (g x) c) as [[u|] c1]; [apply IH|reflexivity].
Qed.

(** The function behind [matchTags] is [addFilter] on the filters of the
    matches, in their order. *)
Lemma matchTags_func_forEach (searchTerm : jsstring) (matchEnd : bool)
  (c : Component) :
  matchTags_func searchTerm matchEnd c
  = forEach (map tagFilter (scan (filterPattern matchEnd) 0 searchTerm))
      addFilter c.
Proof.
  unfold matchTags_func, String_match.
  destruct (scan (filterPattern matchEnd) 0 searchTerm) as [|m ms];
    [reflexivity|].
  cbn [List.length Nat.ltb Nat.leb]. apply forEach_map.
Qed.

Lemma matchTags_func_surroundings
  (searchTerm : jsstring) (matchEnd : bool) (c : Component) :
  sameSurroundings c (snd (matchTags_func searchTerm matchEnd c)).
Proof.
  rewrite matchTags_func_forEach. apply forEach_addFilter_surroundings.
Qed.

(** X5. The function behind [matchTags] leaves the search term as it is:
    whatever the text, and whether the run returns or throws, the text of
    the matched tokens is not taken out of the search term. *)
Theorem matchTags_keeps_search_term
  (searchTerm : jsstring) (matchEnd : bool) (c : Component) :
  State.searchTerm (state (snd (matchTags_func searchTerm matchEnd c)))
  = State.searchTerm (state c).
Proof.
  destruct (matchTags_func_surroundings searchTerm matchEnd c)
    as (_ & _ & _ & _ & H & _).
  exact H.
Qed.

(** The keys of the filters under [addFilter]: none goes away, and the key
    of the filter is there when the call returns. *)
Lemma addFilter_keys (filter : Filter) (c : Component) :
  (forall k, In k (keysOf c) -> In k (keysOf (snd (addFilter filter c))))
  /\ (In (key filter) (keysOf c) ->
      keysOf (snd (addFilter filter c)) = keysOf c)
  /\ (fst (addFilter filter c) = Returns tt ->
      In (key filter) (keysOf (snd (addFilter filter c)))).
Proof.
  unfold keysOf. destruct (key_dec filter c) as [Hin | Hout].
  - destruct (addFilter_known filter c Hin) as (-> & _ & _). auto.
  - rewrite (addFilter_new filter c Hout). cbn.
    split; [|split; [contradiction|]].
    + intros k Hk. destruct (persistent filter) as [[|]|]; cbn [map];
        try (rewrite map_app, in_app_iff; left; exact Hk).
      right; exact Hk.
    + intros _. destruct (persistent filter) as [[|]|]; cbn [map];
        try (rewrite map_app, in_app_iff; right; left; reflexivity).
      left; reflexivity.
Qed.

Lemma forEach_addFilter_keys (fs : list Filter) (c : Component) :
  (forall k, In k (keysOf c) ->
             In k (keysOf (snd (forEach fs addFilter c))))
  /\ ((forall f, In f fs -> In (key f) (keysOf c)) ->
      keysOf (snd (forEach fs addFilter c)) = keysOf c)
  /\ (fst (forEach fs addFilter c) = Returns tt ->
      forall f, In f fs -> In (key f) (keysOf (snd (forEach fs addFilter c))))
  /\ (forall f fs', fs = f :: fs' ->
                    In (key f) (keysOf (snd (forEach fs addFilter c)))).
Proof.
  revert c. induction fs as [|f fs IH]; intros c; cbn [forEach].
  - cbn. repeat split; auto; try (intros _ g []). intros g fs' H; discriminate.
  - destruct (addFilter_keys f c) as (Hgrow & Hsame & Hin).
    pose proof (addFilter_outcome f c) as (Hiff & _ & Hret).
    unfold bind. destruct (addFilter f c) as [[[]|] c1] eqn:E; cbn [fst snd] in *.
    + destruct (IH c1) as (IHgrow & IHsame & IHin & _).
      split; [|split; [|split]].
      * intros k Hk. apply IHgrow, Hgrow, Hk.
      * intros Hall. rewrite IHsame.
        -- apply Hsame, Hall; left; reflexivity.
        -- intros g Hg. apply Hgrow, Hall; right; exact Hg.
      * intros Hr g [<- | Hg]; [apply IHgrow, Hin; reflexivity|].
        apply IHin; assumption.
      * intros g fs' Hg. injection Hg as <- _. apply IHgrow, Hin; reflexivity.
    + destruct Hiff as [Hiff _]. destruct (Hiff eq_refl) as [Hk _].
      split; [|split; [|split]].
      * exact Hgrow.
      * intros _. apply Hsame, Hk.
      * discriminate.
      * intros g fs' Hg. injection Hg as <- _. apply Hgrow, Hk.
Qed.

Lemma forEach_addFilter_returns (fs : list Filter) (c : Component) :
  defaultFilters (props c) <> None ->
  fst (forEach fs addFilter c) = Returns tt.
Proof.
  revert c. induction fs as [|f fs IH]; intros c Hd; cbn [forEach].
  - reflexivity.
  - pose proof (addFilter_outcome f c) as (Hiff & _ & Hret).
    pose proof (addFilter_surroundings f c) as (Hp & _).
    unfold bind. destruct (addFilter f c) as [[[]|] c1]; cbn [fst snd] in *.
    + apply IH. rewrite Hp. exact Hd.
    + destruct Hiff as [Hiff _]. destruct (Hiff eq_refl) as [_ Hn].
      contradiction.
Qed.

(** X6. With default filters, running the function behind [matchTags] again
    on the same text (the tokens stay in the search box) returns and leaves
    the keys of the filters as the first run left them: the filters of the
    tokens are not added twice. *)
Theorem matchTags_again_keeps_keys
  (searchTerm : jsstring) (matchEnd : bool) (c : Component) :
  defaultFilters (props c) <> None ->
  let once := snd (matchTags_func searchTerm matchEnd c) in
  let twice := snd (matchTags_func searchTerm matchEnd once) in
  fst (matchTags_func searchTerm matchEnd c) = Returns tt
  /\ fst (matchTags_func searchTerm matchEnd once) = Returns tt
  /\ keysOf twice = keysOf once.
Proof.
  intros Hd once twice.
  assert (Hd1 : defaultFilters (props once) <> None).
  { destruct (matchTags_func_surroundings searchTerm matchEnd c) as (Hp & _).
    fold once in Hp. rewrite Hp. exact Hd. }
  unfold twice, once. rewrite !matchTags_func_forEach.
  split; [apply forEach_addFilter_returns; exact Hd|].
  split.
  - apply forEach_addFilter_returns.
    rewrite <- matchTags_func_forEach. exact Hd1.
  - destruct (forEach_addFilter_keys
                (map tagFilter (scan (filterPattern matchEnd) 0 searchTerm))
                (snd (forEach
                        (map tagFilter
                           (scan (filterPattern matchEnd) 0 searchTerm))
                        addFilter c))) as (_ & Hsame & _).
    apply Hsame.
    destruct (forEach_addFilter_keys
                (map tagFilter (scan (filterPattern matchEnd) 0 searchTerm)) c)
      as (_ & _ & Hin & _).
    apply Hin. apply forEach_addFilter_returns; exact Hd.
Qed.

Lemma matchTags_again_keeps_keys_witness :
  let c :=
    mkComponent (mkProps None None false (Some (mkArray 0 [])))
      (State.make (mkArray 1 []) (-1) (lit "a:1 b!=2 ") true)
      (Some (mkInput (lit "a:1 b!=2 "))) None 2 [] in
  let once := snd (matchTags_func (lit "a:1 b!=2 ") false c) in
  keysOf once = [lit "a"; lit "b"]
  /\ keysOf (snd (matchTags_func (lit "a:1 b!=2 ") false once))
     = [lit "a"; lit "b"].
Proof.
  intros c once.
  destruct (matchTags_again_keeps_keys (lit "a:1 b!=2 ") false c
              ltac:(discriminate)) as (_ & _ & H).
  fold once in H. rewrite H. split; vm_compute; reflexivity.
Defined.

(** X7. Without default filters, running the function behind [matchTags]
    again on a text that has a match throws a [TypeError]: the filter of the
    first match finds its key and [addFilter] reads
    [this.props.defaultFilters[filterIndex]]. *)
Theorem matchTags_again_throws
  (searchTerm : jsstring) (matchEnd : bool) (c : Component) :
  defaultFilters (props c) = None ->
  String_match searchTerm (filterPattern matchEnd) <> None ->
  fst (matchTags_func searchTerm matchEnd
         (snd (matchTags_func searchTerm matchEnd c))) = TypeError.
Proof.
  intros Hd Hm.
  destruct (matchTags_func_surroundings searchTerm matchEnd c) as (Hp & _).
  rewrite !matchTags_func_forEach in *.
  unfold String_match in Hm.
  destruct (scan (filterPattern matchEnd) 0 searchTerm) as [|m ms];
    [contradiction Hm; reflexivity|].
  cbn [map] in *.
  destruct (forEach_addFilter_keys (tagFilter m :: map tagFilter ms) c)
    as (_ & _ & _ & Hfirst).
  specialize (Hfirst _ _ eq_refl).
  set (c1 := snd (forEach (tagFilter m :: map tagFilter ms) addFilter c)) in *.
  cbn [forEach]. unfold bind.
  rewrite (addFilter_known_throws (tagFilter m) c1 Hfirst); [reflexivity|].
  rewrite Hp. exact Hd.
Qed.

Lemma matchTags_again_throws_witness :
  fst (matchTags_func (lit "a:1 ") false (sample [] (lit "a:1 "))) = Returns tt
  /\ fst (matchTags_func (lit "a:1 ") false
            (snd (matchTags_func (lit "a:1 ") false (sample [] (lit "a:1 ")))))
     = TypeError.
Proof.
  split; [vm_compute; reflexivity|].
  apply (matchTags_again_throws (lit "a:1 ") false (sample [] (lit "a:1 ")));
    [reflexivity|vm_compute; discriminate].
Defined.

End AddFacts.


(** ** The tokens of the search text *)

Module MatchFacts.

Import JS JSFacts RegExp Searchable RegExpFacts TagFacts FilterFacts RunFacts.
Import ParseFacts AddFacts.

Local Open Scope js_scope.

(** The run on the matches [before ++ m :: after]: it gets to [m] when the
    calls for the matches before [m] return, and throws when they do not. *)
Lemma run_gets_to
  (searchTerm : jsstring) (matchEnd : bool)
  (before : list jsstring) (m : jsstring) (after : list jsstring)
  (c : Component) :
  scan (filterPattern matchEnd) 0 searchTerm = before ++ m :: after ->
  let each := fun x => addFilter (tagFilter x) in
  (fst (forEach before each c) = Returns tt ->
   callsAddFilter searchTerm matchEnd m (tagFilter m) c)
  /\ (fst (forEach before each c) <> Returns tt ->
      fst (matchTags_func searchTerm matchEnd c) = TypeError
      /\ defaultFilters (props c) = None).
Proof.
  intros E each. subst each.
  destruct (matchTags_func_matches _ matchEnd _ _ _ E) as [Hm Hc].
  assert (Hrun : matchTags_func searchTerm matchEnd c
                 = (forEach before (fun x => addFilter (tagFilter x)) ;;
                    addFilter (tagFilter m) ;;
                    forEach after (fun x => addFilter (tagFilter x))) c).
  { rewrite Hc.
    exact (forEach_middle (fun x => addFilter (tagFilter x)) before m after
             c). }
  split.
  - intros Hr. exists before, after.
    split; [exact Hm|]. split; [reflexivity|]. split; [exact Hr|].
    rewrite Hrun. unfold bind at 1.
    destruct (forEach before (fun x => addFilter (tagFilter x)) c)
      as [[[]|] c1]; [reflexivity|].
    discriminate Hr.
  - intros Hr. rewrite Hrun. unfold bind at 1.
    destruct (forEach before (fun x => addFilter (tagFilter x)) c)
      as [[[]|] c1] eqn:Eb; [contradiction Hr; reflexivity|].
    split; [reflexivity|].
    destruct (defaultFilters (props c)) as [d|] eqn:Hd; [|reflexivity].
    pose proof (forEach_addFilter_returns (map tagFilter before) c) as H.
    rewrite <- (forEach_map tagFilter addFilter before c) in H.
    rewrite Eb, Hd in H.
    discriminate (H ltac:(discriminate)).
Qed.

(** A token at a boundary, followed by white space, is parsed and passed to
    [addFilter] as the filter of the token with that white space. *)
Lemma token_passed
  (matchEnd : bool) (pre t post : jsstring) (w : N) :
  boundary pre = true -> token t -> isSpace w = true ->
  parsesAndPasses (pre ++ t ++ w :: post) matchEnd (t ++ [w])
    (tagFilter (t ++ [w])).
Proof.
  intros Hb Ht Hw.
  destruct (scan_token matchEnd pre t w post Hb Ht Hw) as (before & after & E).
  destruct (matchTags_func_matches _ matchEnd _ _ _ E) as [Hm Hc].
  split; [exists before, after; exact Hm|].
  split; [reflexivity|].
  split; [intros c; apply matchTags_timer|].
  assert (Hret : forall c,
             defaultFilters (props c) <> None ->
             fst (matchTags_func (pre ++ t ++ w :: post) matchEnd c)
             = Returns tt).
  { intros c Hd. rewrite matchTags_func_forEach.
    apply forEach_addFilter_returns. exact Hd. }
  assert (Hcalls : forall c,
             callsAddFilter (pre ++ t ++ w :: post) matchEnd (t ++ [w])
               (tagFilter (t ++ [w])) c
             \/ (fst (matchTags_func (pre ++ t ++ w :: post) matchEnd c)
                 = TypeError
                 /\ defaultFilters (props c) = None)).
  { intros c.
    destruct (run_gets_to _ matchEnd before (t ++ [w]) after c E) as [H1 H2].
    destruct (fst (forEach before (fun x => addFilter (tagFilter x)) c))
      as [[]|] eqn:Eb.
    - left. apply H1. exact Eb.
    - right. apply H2. intros H.
      discriminate (eq_trans (eq_sym H) Eb). }
  split; [exact Hret|]. split; [|exact Hcalls].
  intros c Hr. split.
  - destruct (Hcalls c) as [H | [H _]]; [exact H|].
    rewrite H in Hr. discriminate Hr.
  - rewrite matchTags_func_forEach in *. rewrite E in *.
    destruct (forEach_addFilter_keys
                (map tagFilter (before ++ (t ++ [w]) :: after)) c)
      as (_ & _ & Hin & _).
    apply (Hin Hr). apply in_map. apply in_or_app. right; left; reflexivity.
Qed.

(** C1 (amended). For every search string in which a token [key:value]
    stands at a boundary and is followed by white space, the key matching
    [[a-z][a-z0-9]*] (in either case) and the value being non-empty, without
    white space and without an equals sign, [matchTags] (for either
    [matchEnd]) has the token with that white space among its matches and
    parses it into a filter with that key: of type include with that value,
    or, when the value starts with an exclamation mark, of type exclude with
    the value behind the mark.  It passes this filter to [addFilter] on
    every component on which the run returns, which every component with
    default filters is, and a filter of that key is among the filters
    afterwards; a run that does not get to the token throws a [TypeError],
    on a component without default filters. *)
Theorem matchTags_key_colon_value
  (matchEnd : bool) (pre k v post : jsstring) (w : N) :
  boundary pre = true ->
  isKey k = true ->
  isValue v = true ->
  occurs (ch "=") v = false ->
  isSpace w = true ->
  parsesAndPasses (pre ++ k ++ ch ":" :: v ++ w :: post) matchEnd
    (k ++ ch ":" :: v ++ [w])
    (newFilter (if negated v then Exclude else Include) k
       (if negated v then tl v else v)).
Proof.
  intros Hb Hk Hv He Hw.
  assert (Ht : token (k ++ ch ":" :: v))
    by (apply (@token_intro k [] (ch ":") v); auto).
  pose proof (token_passed matchEnd pre _ post w Hb Ht Hw) as H.
  rewrite <- !app_assoc in H. cbn [app] in H.
  rewrite (tagFilter_colon k v [w] Hk Hv He) in H
    by (cbn; rewrite Hw; reflexivity).
  exact H.
Qed.

Lemma matchTags_key_colon_value_witness :
  boundary (lit "error ") = true
  /\ isKey (lit "tag") = true
  /\ isValue (lit "net") = true
  /\ occurs (ch "=") (lit "net") = false
  /\ isSpace (ch " ") = true
  /\ parsesAndPasses (lit "error tag:net rest") false (lit "tag:net ")
       (newFilter Include (lit "tag") (lit "net")).
Proof.
  repeat (split; [reflexivity|]).
  exact (matchTags_key_colon_value false (lit "error ") (lit "tag")
           (lit "net") (lit "rest") (ch " ")
           eq_refl eq_refl eq_refl eq_refl eq_refl).
Defined.

(** On the sample component the function behind [matchTags] calls
    [addFilter] with the filter of the only match of [text]. *)
Lemma only_match_called (text : jsstring) (matchEnd : bool) :
  String_match text (filterPattern matchEnd) = Some [text] ->
  callsAddFilter text matchEnd text (tagFilter text) (sample [] []).
Proof.
  intros Hs. exists [], []. split; [exact Hs|]. split; [reflexivity|].
  split; [reflexivity|]. unfold matchTags_func. rewrite Hs. reflexivity.
Qed.

(** C1 as stated fails on values that start with an exclamation mark or
    hold an equals sign.  On ["a:!b "] the filter that goes to [addFilter]
    is of type exclude with the value ["b"]; on ["a:b=c "] the match is split
    at the equals sign, into the key ["a:b"] and the value ["c"].  In neither
    case is it the include filter of the key and the value of the token. *)
Lemma matchTags_key_colon_value_counterexample :
  (boundary [] = true /\ isKey (lit "a") = true /\ isValue (lit "!b") = true
   /\ isSpace (ch " ") = true
   /\ callsAddFilter (lit "a:!b ") false (lit "a:!b ")
        (newFilter Exclude (lit "a") (lit "b")) (sample [] [])
   /\ items (State.filters
               (state (snd (matchTags_func (lit "a:!b ") false (sample [] [])))))
      = [newFilter Exclude (lit "a") (lit "b")]
   /\ (forall c,
         ~ callsAddFilter (lit "a:!b ") false (lit "a:!b ")
             (newFilter Include (lit "a") (lit "!b")) c))
  /\ (isValue (lit "b=c") = true
      /\ tagFilter (lit "a:b=c ") = newFilter Include (lit "a:b") (lit "c")
      /\ items (State.filters
                  (state (snd (matchTags_func (lit "a:b=c ") false
                                 (sample [] [])))))
         = [newFilter Include (lit "a:b") (lit "c")]
      /\ (forall c,
            ~ callsAddFilter (lit "a:b=c ") false (lit "a:b=c ")
                (newFilter Include (lit "a") (lit "b=c")) c)).
Proof.
  split.
  - do 4 (split; [reflexivity|]). split; [|split].
    + exact (only_match_called (lit "a:!b ") false eq_refl).
    + vm_compute. reflexivity.
    + intros c (before & after & _ & Hf & _). vm_compute in Hf.
      discriminate Hf.
  - split; [reflexivity|]. split; [vm_compute; reflexivity|].
    split; [vm_compute; reflexivity|].
    intros c (before & after & _ & Hf & _). vm_compute in Hf.
    discriminate Hf.
Qed.

(** C2 (amended). For every search string in which a token [key!=value]
    stands at a boundary and is followed by white space, the key matching
    [[a-z][a-z0-9]*] (in either case) and the value being non-empty, without
    white space and without a colon, [matchTags] (for either [matchEnd]) has
    the token with that white space among its matches and parses it into a
    filter of type exclude, with the key without the exclamation mark, and
    with the value, less a leading exclamation mark when it has one.  The
    run gets to the token, and passes the filter to [addFilter], on every
    component on which it returns, which every component with default
    filters is; a run that does not get to the token throws a [TypeError],
    on a component without default filters. *)
Theorem matchTags_key_bang_equals_value
  (matchEnd : bool) (pre k v post : jsstring) (w : N) :
  boundary pre = true ->
  isKey k = true ->
  isValue v = true ->
  occurs (ch ":") v = false ->
  isSpace w = true ->
  parsesAndPasses (pre ++ k ++ ch "!" :: ch "=" :: v ++ w :: post) matchEnd
    (k ++ ch "!" :: ch "=" :: v ++ [w])
    (newFilter Exclude k (if negated v then tl v else v)).
Proof.
  intros Hb Hk Hv Hc Hw.
  assert (Ht : token (k ++ [ch "!"] ++ ch "=" :: v))
    by (apply (@token_intro k [ch "!"] (ch "=") v); auto).
  pose proof (token_passed matchEnd pre _ post w Hb Ht Hw) as H.
  rewrite <- !app_assoc in H. cbn [app] in H.
  rewrite (tagFilter_bang_equals k v [w] Hk Hv Hc) in H
    by (cbn; rewrite Hw; reflexivity).
  exact H.
Qed.

Lemma matchTags_key_bang_equals_value_witness :
  boundary (lit "error ") = true
  /\ isKey (lit "tag") = true
  /\ isValue (lit "net") = true
  /\ occurs (ch ":") (lit "net") = false
  /\ isSpace (ch " ") = true
  /\ parsesAndPasses (lit "error tag!=net rest") false (lit "tag!=net ")
       (newFilter Exclude (lit "tag") (lit "net")).
Proof.
  repeat (split; [reflexivity|]).
  exact (matchTags_key_bang_equals_value false (lit "error ") (lit "tag")
           (lit "net") (lit "rest") (ch " ")
           eq_refl eq_refl eq_refl eq_refl eq_refl).
Defined.

(** C2 as stated fails on values that hold a colon or start with an
    exclamation mark.  On ["a!=b:c "] the match is split at the colon, into
    the key ["a!=b"] and the value ["c"], and the filter is of type include;
    on ["a!=!b "] the value of the filter is ["b"]. *)
Lemma matchTags_key_bang_equals_value_counterexample :
  (boundary [] = true /\ isKey (lit "a") = true /\ isValue (lit "b:c") = true
   /\ isSpace (ch " ") = true
   /\ tagFilter (lit "a!=b:c ") = newFilter Include (lit "a!=b") (lit "c")
   /\ items (State.filters
               (state (snd (matchTags_func (lit "a!=b:c ") false
                              (sample [] [])))))
      = [newFilter Include (lit "a!=b") (lit "c")]
   /\ (forall c,
         ~ callsAddFilter (lit "a!=b:c ") false (lit "a!=b:c ")
             (newFilter Exclude (lit "a") (lit "b:c")) c))
  /\ (isValue (lit "!b") = true
      /\ callsAddFilter (lit "a!=!b ") false (lit "a!=!b ")
           (newFilter Exclude (lit "a") (lit "b")) (sample [] [])
      /\ items (State.filters
                  (state (snd (matchTags_func (lit "a!=!b ") false
                                 (sample [] [])))))
         = [newFilter Exclude (lit "a") (lit "b")]
      /\ (forall c,
            ~ callsAddFilter (lit "a!=!b ") false (lit "a!=!b ")
                (newFilter Exclude (lit "a") (lit "!b")) c)).
Proof.
  split.
  - do 4 (split; [reflexivity|]). split; [vm_compute; reflexivity|].
    split; [vm_compute; reflexivity|].
    intros c (before & after & _ & Hf & _). vm_compute in Hf.
    discriminate Hf.
  - split; [reflexivity|]. split; [|split].
    + exact (only_match_called (lit "a!=!b ") false eq_refl).
    + vm_compute. reflexivity.
    + intros c (before & after & _ & Hf & _). vm_compute in Hf.
      discriminate Hf.
Qed.

(** X1. A token of any of the four forms [key:value], [key=value],
    [key!:value] and [key!=value] that stands at a boundary and is followed
    by white space, with a value that holds neither a colon nor an equals
    sign, is parsed into a filter of its key: of type exclude when the key
    is followed by an exclamation mark or the value starts with one (which
    is dropped from the value), of type include otherwise.  The run passes
    this filter to [addFilter] on every component on which it returns, which
    every component with default filters is; a run that does not get to the
    token throws a [TypeError], on a component without default filters. *)
Theorem matchTags_token_forms
  (matchEnd : bool) (pre k b : jsstring) (sep : N) (v post : jsstring) (w : N) :
  boundary pre = true ->
  isKey k = true ->
  b = [] \/ b = [ch "!"] ->
  colonOrEquals sep = true ->
  isValue v = true ->
  occurs (ch ":") v = false ->
  occurs (ch "=") v = false ->
  isSpace w = true ->
  parsesAndPasses (pre ++ (k ++ b ++ sep :: v) ++ w :: post) matchEnd
    ((k ++ b ++ sep :: v) ++ [w])
    (newFilter
       (match b with
        | [] => if negated v then Exclude else Include
        | _ :: _ => Exclude
        end) k (if negated v then tl v else v)).
Proof.
  intros Hpre Hk Hb Hsep Hv Hcol Heq Hw.
  assert (Ht : token (k ++ b ++ sep :: v)) by (apply token_intro; auto).
  pose proof (token_passed matchEnd pre _ post w Hpre Ht Hw) as H.
  replace (tagFilter ((k ++ b ++ sep :: v) ++ [w]))
    with (newFilter
            (match b with
             | [] => if negated v then Exclude else Include
             | _ :: _ => Exclude
             end) k (if negated v then tl v else v)) in H; [exact H|].
  rewrite <- !app_assoc. cbn [app]. symmetry.
  apply tagFilter_token; auto. cbn. rewrite Hw. reflexivity.
Qed.

Lemma matchTags_token_forms_witness :
  parsesAndPasses (lit "x level=warn y") false (lit "level=warn ")
    (newFilter Include (lit "level") (lit "warn"))
  /\ parsesAndPasses (lit "x level!:warn y") false (lit "level!:warn ")
       (newFilter Exclude (lit "level") (lit "warn")).
Proof.
  split.
  - exact (matchTags_token_forms false (lit "x ") (lit "level") [] (ch "=")
             (lit "warn") (lit "y") (ch " ")
             eq_refl eq_refl (or_introl eq_refl) eq_refl eq_refl eq_refl
             eq_refl eq_refl).
  - exact (matchTags_token_forms false (lit "x ") (lit "level") [ch "!"]
             (ch ":") (lit "warn") (lit "y") (ch " ")
             eq_refl eq_refl (or_intror eq_refl) eq_refl eq_refl eq_refl
             eq_refl eq_refl).
Defined.

(** The keys of the filters after [addFilter] are keys of the filters before
    it or the key of the filter. *)
Lemma addFilter_keys_from (filter : Filter) (c : Component) (k : jsstring) :
  In k (keysOf (snd (addFilter filter c))) ->
  In k (keysOf c) \/ k = key filter.
Proof.
  destruct (key_dec filter c) as [Hin | Hout].
  - destruct (addFilter_keys filter c) as (_ & Hsame & _).
    rewrite (Hsame Hin). auto.
  - unfold keysOf. rewrite (addFilter_new filter c Hout). cbn.
    destruct (persistent filter) as [[|]|]; cbn [map];
      rewrite ?map_app, ?in_app_iff; cbn [map In]; intuition auto.
Qed.

Lemma forEach_addFilter_keys_from
  (fs : list Filter) (c : Component) (k : jsstring) :
  In k (keysOf (snd (forEach fs addFilter c))) ->
  In k (keysOf c) \/ In k (map key fs).
Proof.
  revert c. induction fs as [|f fs IH]; intros c; cbn [forEach map].
  - auto.
  - unfold bind. pose proof (addFilter_keys_from f c k) as Hf.
    destruct (addFilter f c) as [[u|] c1]; cbn [snd] in *.
    + intros H. destruct (IH c1 H) as [H1 | H1]; [|right; right; exact H1].
      destruct (Hf H1) as [H2 | ->]; [left; exact H2|right; left; reflexivity].
    + intros H. destruct (Hf H) as [H2 | ->];
        [left; exact H2|right; left; reflexivity].
Qed.

(** C3 (amended). Enter in the focused search box, with the input attached,
    commits a partial match: the handler calls [matchTags] with the text of
    the input and [matchEnd] true, and the end of the timer runs the function
    on them.  A token [key:value] that stands at a boundary at the very end
    of the text, with no white space behind it, is then the last match.  When
    the calls of [addFilter] for the matches before it return, the run gets
    to the token and calls [addFilter] with the filter parsed from it; when
    moreover no filter of the component and no match before it has the key of
    this filter, the run returns and the filter is the last of the filters
    afterwards.  On a component with default filters the run returns, and
    whenever it returns a filter of that key is among the filters.  While
    typing, [matchTags] is called with [matchEnd] false; then every match is
    a token followed by white space, and the token at the end of the text is
    not among the matches. *)
Theorem enter_commits_partial_match
  (platform : jsstring) (e : Event.t) (c : Component) (input : HTMLInputElement)
  (pre k v : jsstring) :
  Event.key e = lit "Enter" ->
  hasFocus c = true ->
  _inputRef c = Some input ->
  input_value input = pre ++ k ++ ch ":" :: v ->
  boundary pre = true ->
  isKey k = true ->
  isValue v = true ->
  let text := input_value input in
  let tok := k ++ ch ":" :: v in
  let filter := tagFilter tok in
  let each := fun m => addFilter (tagFilter m) in
  let c0 := set_pending None c in
  let r := (onKeyDown platform e ;; trailingEdge) c in
  onKeyDown platform e c = matchTags text true c
  /\ r = matchTags_func text true c0
  /\ (occurs (ch "=") v = false ->
      filter
      = newFilter (if negated v then Exclude else Include) k
          (if negated v then tl v else v))
  /\ (exists before,
        String_match text (filterPattern true) = Some (before ++ [tok])
        /\ (fst (forEach before each c0) = Returns tt ->
            callsAddFilter text true tok filter c0
            /\ ((forall m, In m before -> key (tagFilter m) <> key filter) ->
                ~ In (key filter) (keysOf c) ->
                fst r = Returns tt
                /\ exists front,
                     items (State.filters (state (snd r)))
                     = front ++ [filter])))
  /\ (defaultFilters (props c) <> None -> fst r = Returns tt)
  /\ (fst r = Returns tt ->
      callsAddFilter text true tok filter c0
      /\ In (key filter) (keysOf (snd r)))
  /\ (forall value c1,
        pending (snd (onChangeSearchTerm value c1)) = Some (value, false))
  /\ (forall s ms,
        String_match s (filterPattern false) = Some ms ->
        forall m, In m ms ->
                  exists t w, token t /\ isSpace w = true /\ m = t ++ [w])
  /\ (forall ms,
        String_match text (filterPattern false) = Some ms -> ~ In tok ms).
Proof.
  intros He Hf Hi Hv Hb Hk Hval text tok filter each c0 r.
  assert (Ht : token tok) by (apply (@token_intro k [] (ch ":") v); auto).
  assert (Hkey : onKeyDown platform e c = matchTags text true c).
  { unfold onKeyDown, bind, this. rewrite He, Hf, Hi. reflexivity. }
  assert (Hr : r = matchTags_func text true c0).
  { unfold r. unfold bind at 1. rewrite Hkey. reflexivity. }
  destruct (scan_token_end pre tok Hb Ht) as (before & E).
  fold tok in Hv. rewrite <- Hv in E. fold text in E.
  destruct (matchTags_func_matches text true before tok [] E) as [Hm Hc].
  destruct (run_gets_to text true before tok [] c0 E) as [Hget Hstop].
  fold each in Hget, Hstop. fold filter in Hget.
  assert (Hlast : r = (forEach before each ;; addFilter filter) c0).
  { rewrite Hr, Hc. exact (forEach_last each before tok c0). }
  assert (Hret : fst r = Returns tt ->
                 callsAddFilter text true tok filter c0
                 /\ In (key filter) (keysOf (snd r))).
  { intros H. split.
    - apply Hget.
      destruct (fst (forEach before each c0)) as [[]|] eqn:Eb;
        [reflexivity|].
      destruct Hstop as [Hs _]; [discriminate|].
      rewrite <- Hr, H in Hs. discriminate Hs.
    - rewrite Hr in *. rewrite matchTags_func_forEach in *. rewrite E in *.
      destruct (forEach_addFilter_keys (map tagFilter (before ++ [tok])) c0)
        as (_ & _ & Hin & _).
      apply (Hin H). apply in_map. apply in_or_app. right; left; reflexivity. }
  split; [exact Hkey|]. split; [exact Hr|].
  split; [|split; [|split; [|split; [exact Hret|split; [|split]]]]].
  - intros Heq. unfold filter, tok.
    rewrite <- (app_nil_r v) at 1.
    apply (tagFilter_colon k v [] Hk Hval Heq). reflexivity.
  - exists before. split; [exact Hm|]. intros Hb0.
    split; [apply Hget; exact Hb0|]. intros Hother Hnew.
    rewrite Hlast. unfold bind.
    destruct (forEach before each c0) as [[[]|] c1] eqn:Eb;
      [|discriminate (eq_trans (eq_sym Hb0) (f_equal fst Eb))].
    assert (Hn1 : ~ In (key filter)
                    (map key (items (State.filters (state c1))))).
    { intros Hin.
      assert (Hc1 : c1 = snd (forEach (map tagFilter before) addFilter c0)).
      { rewrite <- (forEach_map tagFilter addFilter before c0).
        fold each. rewrite Eb. reflexivity. }
      fold (keysOf c1) in Hin. rewrite Hc1 in Hin.
      destruct (forEach_addFilter_keys_from _ _ _ Hin) as [H | H].
      - apply Hnew. exact H.
      - rewrite map_map in H. apply in_map_iff in H as (m & Em & Hin').
        exact (Hother m Hin' Em). }
    rewrite (addFilter_new filter c1 Hn1).
    assert (Hp : persistent filter = None) by apply tagFilter_persistent.
    rewrite Hp.
    split; [reflexivity|].
    exists (items (State.filters (state c1))). reflexivity.
  - intros Hd. rewrite Hr, matchTags_func_forEach.
    apply forEach_addFilter_returns. exact Hd.
  - intros value c1. reflexivity.
  - intros s ms Hms m Hin. apply (scan_matches_spaced s).
    unfold String_match in Hms.
    destruct (scan (filterPattern false) 0 s); [discriminate|].
    injection Hms as <-. exact Hin.
  - intros ms Hms. exact (end_token_not_matched text tok ms Ht Hms).
Qed.

Lemma enter_commits_partial_match_witness :
  let c := sample [] (lit "error tag:net") in
  let enter := Event.make (lit "Enter") false false in
  hasFocus c = true
  /\ boundary (lit "error ") = true
  /\ isKey (lit "tag") = true
  /\ isValue (lit "net") = true
  /\ String_match (lit "error tag:net") (filterPattern true)
     = Some [lit "tag:net"]
  /\ String_match (lit "error tag:net") (filterPattern false) = None
  /\ items (State.filters
              (state (snd ((onKeyDown (lit "linux") enter ;; trailingEdge) c))))
     = [newFilter Include (lit "tag") (lit "net")].
Proof.
  intros c enter.
  pose proof (enter_commits_partial_match (lit "linux") enter c
                (mkInput (lit "error tag:net"))
                (lit "error ") (lit "tag") (lit "net")
                eq_refl eq_refl eq_refl eq_refl eq_refl eq_refl eq_refl)
    as (_ & Hr & _).
  repeat (split; [vm_compute; reflexivity|]).
  rewrite Hr. vm_compute. reflexivity.
Defined.

(** C3 as stated fails when a filter has the key of the token.  With a
    filter of the key ["tag"] and default filters, Enter on ["tag:net"] and
    the end of the timer return and leave the filters as they were: the
    token is matched, and its filter is not added.  Without default filters,
    Enter on ["a:1 b:2"] with a filter of the key ["a"] throws at the first
    match: the end token is matched, and its filter is not added. *)
Lemma enter_commits_partial_match_counterexample :
  let old := newFilter Include (lit "tag") (lit "old") in
  let a1 := newFilter Include (lit "a") (lit "1") in
  let enter := Event.make (lit "Enter") false false in
  let c :=
    mkComponent (mkProps None None false (Some (mkArray 0 [])))
      (State.make (mkArray 1 [old]) (-1) (lit "tag:net") true)
      (Some (mkInput (lit "tag:net"))) None 2 [] in
  let r := (onKeyDown (lit "linux") enter ;; trailingEdge) c in
  let c' := sample [a1] (lit "a:1 b:2") in
  let r' := (onKeyDown (lit "linux") enter ;; trailingEdge) c' in
  (hasFocus c = true
   /\ boundary [] = true /\ isKey (lit "tag") = true
   /\ isValue (lit "net") = true
   /\ String_match (lit "tag:net") (filterPattern true) = Some [lit "tag:net"]
   /\ tagFilter (lit "tag:net") = newFilter Include (lit "tag") (lit "net")
   /\ fst r = Returns tt
   /\ items (State.filters (state (snd r))) = [old])
  /\ (hasFocus c' = true
      /\ boundary (lit "a:1 ") = true /\ isKey (lit "b") = true
      /\ isValue (lit "2") = true
      /\ String_match (lit "a:1 b:2") (filterPattern true)
         = Some [lit "a:1 "; lit "b:2"]
      /\ tagFilter (lit "b:2") = newFilter Include (lit "b") (lit "2")
      /\ fst r' = TypeError
      /\ items (State.filters (state (snd r'))) = [a1]).
Proof.
  intros old a1 enter c r c' r'.
  split; repeat (split; [vm_compute; reflexivity|]); vm_compute; reflexivity.
Qed.

End MatchFacts.

(** ** The keys of the filters of the search text *)

Module KeyShape.

Import JS JSFacts RegExp Searchable RegExpFacts TagFacts RunFacts ParseFacts.

Lemma slice_without_last (s : jsstring) :
  slice s 0 (-1) = firstn (List.length s - 1) s.
Proof.
  unfold slice, len.
  change (0 <? 0)%Z with false. change (-1 <? 0)%Z with true. cbv iota.
  replace (Z.to_nat (Z.min 0 (Z.of_nat (List.length s)))) with O by lia.
  replace (Z.to_nat (Z.max (Z.of_nat (List.length s) + -1) 0
                     - Z.min 0 (Z.of_nat (List.length s))))
    with (List.length s - 1)%nat by lia.
  reflexivity.
Qed.

Lemma letter_not_separator (l : N) :
  letter l = true ->
  N.eqb l (ch ":") = false /\ N.eqb l (ch "=") = false
  /\ N.eqb l (ch "!") = false.
Proof.
  unfold letter. change (ch ":") with 58%N. change (ch "=") with 61%N.
  change (ch "!") with 33%N. lia.
Qed.

(** The key of the filter of a text that starts with a letter starts with
    that letter. *)
Lemma tagFilter_key_head (l : N) (m : jsstring) :
  letter l = true -> exists rest, key (tagFilter (l :: m)) = l :: rest.
Proof.
  intros Hl. destruct (letter_not_separator l Hl) as (Hc & He & Hb).
  unfold tagFilter.
  set (separator := if (indexOf (l :: m) (ch ":") >? indexOf (l :: m) (ch "="))%Z
                    then ch ":" else ch "=").
  assert (Hsep : N.eqb l separator = false)
    by (unfold separator; destruct (_ >? _)%Z; assumption).
  cbn [split]. destruct (split m separator) as [p ps]. rewrite Hsep.
  destruct (indexOf (trim (join ps separator)) (ch "!") =? 0)%Z.
  - destruct (indexOf (l :: p) (ch "!") =? len (l :: p) - 1)%Z eqn:E;
      cbn [key newFilter]; [|exists p; reflexivity].
    rewrite slice_without_last. destruct p as [|x p].
    + cbn [indexOf] in E. rewrite Hb in E. discriminate E.
    + cbn [List.length]. replace (S (S (List.length p)) - 1)%nat
        with (S (List.length p)) by lia.
      cbn [firstn]. eexists; reflexivity.
  - destruct (indexOf (l :: p) (ch "!") =? len (l :: p) - 1)%Z eqn:E;
      cbn [key newFilter]; [|exists p; reflexivity].
    rewrite slice_without_last. destruct p as [|x p].
    + cbn [indexOf] in E. rewrite Hb in E. discriminate E.
    + cbn [List.length]. replace (S (S (List.length p)) - 1)%nat
        with (S (List.length p)) by lia.
      cbn [firstn]. eexists; reflexivity.
Qed.

Lemma tagFilter_made (m : jsstring) :
  type (tagFilter m) <> Enum /\ persistent (tagFilter m) = None
  /\ enum (tagFilter m) = None.
Proof.
  unfold tagFilter. destruct (split m _) as [k v].
  destruct (indexOf (trim (join v _)) (ch "!") =? 0)%Z;
    destruct (indexOf k (ch "!") =? len k - 1)%Z;
    repeat split; discriminate.
Qed.

(** X8. Every filter that the function behind [matchTags] makes of a match
    has a key that is not empty and starts with a letter; its type is include
    or exclude, and it has no [persistent] and no [enum] field. *)
Theorem match_filter_key_starts_with_letter
  (matchEnd : bool) (s : jsstring) (ms : list jsstring) (m : jsstring) :
  String_match s (filterPattern matchEnd) = Some ms ->
  In m ms ->
  (exists l rest, key (tagFilter m) = l :: rest /\ letter l = true)
  /\ type (tagFilter m) <> Enum
  /\ persistent (tagFilter m) = None
  /\ enum (tagFilter m) = None.
Proof.
  intros Hm Hin. split; [|apply tagFilter_made].
  pose proof (scan_shape matchEnd s m 0 (String_match_In _ _ _ _ Hm Hin))
    as (t & Ht & Hcase).
  assert (Hhead : exists l m', m = l :: m' /\ letter l = true).
  { destruct Ht as [k b sep v Hk _ _ _].
    destruct k as [|l ks]; [discriminate|]. cbn [isKey] in Hk.
    apply andb_true_iff in Hk as [Hl _].
    destruct Hcase as [(w & _ & _ & _ & -> & _) | (_ & -> & _)];
      eexists l, _; (split; [reflexivity|exact Hl]). }
  destruct Hhead as (l & m' & -> & Hl).
  destruct (tagFilter_key_head l m' Hl) as (rest & E).
  exists l, rest; auto.
Qed.

Lemma match_filter_key_starts_with_letter_witness :
  exists l rest,
    key (tagFilter (lit "url!=http://x?a=b ")) = l :: rest /\ letter l = true.
Proof.
  apply (match_filter_key_starts_with_letter false
           (lit "see url!=http://x?a=b now")
           [lit "url!=http://x?a=b "] (lit "url!=http://x?a=b ")).
  - vm_compute. reflexivity.
  - left; reflexivity.
Defined.

End KeyShape.

(** ** Removing, replacing and clearing filters *)

Module OpsFacts.

Import JS JSFacts Searchable KeyFacts FilterFacts.

Local Open Scope js_scope.

Lemma removeFilter_result (index : Z) (c : Component) :
  let after := snd (removeFilter index c) in
  fst (removeFilter index c) = Returns tt
  /\ items (State.filters (state after))
     = filteri (fun _ i => negb (Z.eqb i index))
         (items (State.filters (state c)))
  /\ State.focusedToken (state after) = (-1)%Z
  /\ State.searchTerm (state after) = State.searchTerm (state c)
  /\ exists before,
       log after
       = log c ++ before ++ (if isSome (_inputRef c) then [focus] else []).
Proof.
  unfold removeFilter, bind, this, newArray, setState. cbn.
  destruct (_inputRef c); cbn; repeat split; exists [];
    rewrite ?app_nil_r; reflexivity.
Qed.

Lemma filter_from_beyond {A} (l : list A) (i index : Z) :
  (i + Z.of_nat (List.length l) <= index)%Z ->
  filter_from i (fun _ j => negb (Z.eqb j index)) l = l.
Proof.
  revert i. induction l as [|x l IH]; intros i Hi; cbn [filter_from].
  - reflexivity.
  - cbn [List.length] in Hi. replace (i =? index)%Z with false by lia.
    cbn [negb]. rewrite IH by lia. reflexivity.
Qed.

(** X9. [removeFilter] with an index outside the filters (negative, or at or
    beyond their number) removes nothing: the filters are the same, in the
    same order; the focused token is reset to -1 all the same.  With an
    index inside, the filters are one fewer. *)
Theorem removeFilter_bounds (index : Z) (c : Component) :
  let filters := items (State.filters (state c)) in
  let after := state (snd (removeFilter index c)) in
  fst (removeFilter index c) = Returns tt
  /\ State.focusedToken after = (-1)%Z
  /\ ((index < 0 \/ Z.of_nat (List.length filters) <= index)%Z ->
      items (State.filters after) = filters)
  /\ ((0 <= index < Z.of_nat (List.length filters))%Z ->
      S (List.length (items (State.filters after))) = List.length filters).
Proof.
  intros filters after.
  destruct (removeFilter_result index c) as (Hr & Hi & Hf & _).
  fold after in Hi, Hf. fold filters in Hi.
  split; [exact Hr|]. split; [exact Hf|]. split.
  - intros [H | H]; rewrite Hi; unfold filteri.
    + apply filter_from_keep; exact H.
    + apply filter_from_beyond; lia.
  - intros H. rewrite Hi. unfold filteri.
    rewrite (filter_from_remove filters 0 index (Z.to_nat index)) by lia.
    rewrite length_app, length_firstn, length_skipn. lia.
Qed.

Lemma removeFilter_bounds_witness :
  let a := newFilter Include (lit "a") (lit "1") in
  let b := newFilter Exclude (lit "b") (lit "2") in
  items (State.filters (state (snd (removeFilter (-1) (sample [a; b] [])))))
  = [a; b]
  /\ items (State.filters (state (snd (removeFilter 2 (sample [a; b] [])))))
     = [a; b].
Proof.
  intros a b.
  destruct (removeFilter_bounds (-1) (sample [a; b] [])) as (_ & _ & H1 & _).
  destruct (removeFilter_bounds 2 (sample [a; b] [])) as (_ & _ & H2 & _).
  split; [apply H1; left; lia|apply H2; right; cbn; lia].
Defined.

(** X10. The keyboard does not remove a filter while the text is edited:
    Backspace with no token focused and a search term that is not empty
    returns and leaves the filters and the search term as they are, and
    Delete with no token focused does nothing at all. *)
Theorem keys_without_focused_token
  (platform : jsstring) (e : Event.t) (c : Component) :
  State.focusedToken (state c) = (-1)%Z ->
  (Event.key e = lit "Backspace" ->
   State.searchTerm (state c) <> [] ->
   let after := state (snd (onKeyDown platform e c)) in
   fst (onKeyDown platform e c) = Returns tt
   /\ items (State.filters after) = items (State.filters (state c))
   /\ State.searchTerm after = State.searchTerm (state c))
  /\ (Event.key e = lit "Delete" -> onKeyDown platform e c = (Returns tt, c)).
Proof.
  intros Hf. split.
  - intros He Hs. cbv zeta.
    assert (Hne : str_eqb (State.searchTerm (state c)) [] = false)
      by (apply str_eqb_neq; exact Hs).
    unfold onKeyDown, hasFocus, bind, this. rewrite He, Hf, Hne.
    key_tests. change (-1 =? -1)%Z with true.
    destruct (State.hasFocus (state c)); cbn -[removeFilter]; [|auto].
    destruct (removeFilter_result (-1) c) as (Hr & Hi & _ & Hst & _).
    rewrite Hr, Hst, Hi. split; [reflexivity|]. split; [|reflexivity].
    apply filter_from_keep. lia.
  - intros He. unfold onKeyDown, hasFocus, bind, this. rewrite He, Hf.
    key_tests. cbn. rewrite andb_false_r. reflexivity.
Qed.

Lemma keys_without_focused_token_witness :
  let a := newFilter Include (lit "a") (lit "1") in
  items (State.filters
           (state (snd (onKeyDown (lit "linux")
                          (Event.make (lit "Backspace") false false)
                          (sample [a] (lit "ab"))))))
  = [a]
  /\ onKeyDown (lit "linux") (Event.make (lit "Delete") false false)
       (sample [a] (lit "ab"))
     = (Returns tt, sample [a] (lit "ab")).
Proof.
  intros a.
  destruct (keys_without_focused_token (lit "linux")
              (Event.make (lit "Backspace") false false)
              (sample [a] (lit "ab")) eq_refl) as [H _].
  destruct (keys_without_focused_token (lit "linux")
              (Event.make (lit "Delete") false false)
              (sample [a] (lit "ab")) eq_refl) as [_ H'].
  split.
  - destruct (H eq_refl ltac:(discriminate)) as (_ & -> & _). reflexivity.
  - apply H'; reflexivity.
Defined.

(** The filters after [addFilter] of a known key: the same, but for the
    [enum] of the filter of that key. *)
Lemma addFilter_known_items (filter : Filter) (c : Component) :
  In (key filter) (map key (items (State.filters (state c)))) ->
  exists n x e,
    nth_error (items (State.filters (state c))) n = Some x
    /\ (items (State.filters (state (snd (addFilter filter c))))
        = items (State.filters (state c))
        \/ items (State.filters (state (snd (addFilter filter c))))
           = set_nth (items (State.filters (state c))) n (set_enum x e)).
Proof.
  intros H. destruct (key_present _ _ H) as (n & x & Hn & Hx & Hk).
  exists n, x.
  unfold addFilter, bind, this. rewrite Hn.
  replace (Z.of_nat n >? -1)%Z with true by lia.
  cbn [newArray]. destruct (defaultFilters (props c)) as [defaults|].
  - cbn [ret items]. rewrite !get_of_nat, Nat2Z.id, Hx.
    destruct (nth_error (items defaults) n) as [d|]; cbn;
      [destruct (FilterType_eqb (type d) Enum); cbn;
       [destruct (FilterType_eqb (type x) Enum); cbn|]|];
      try (exists None; auto; fail).
    exists (enum d); auto.
  - cbn. exists None; auto.
Qed.

Lemma set_nth_flags (l : list Filter) (n : nat) (x y : Filter) :
  nth_error l n = Some x -> isPersistent y = isPersistent x ->
  map isPersistent (set_nth l n y) = map isPersistent l.
Proof.
  revert n. induction l as [|z l IH]; intros [|n] H E; try discriminate.
  - injection H as ->. cbn. rewrite E. reflexivity.
  - cbn [set_nth map]. rewrite (IH n H E). reflexivity.
Qed.

Lemma none_persistent_flags (l1 l2 : list Filter) :
  map isPersistent l1 = map isPersistent l2 ->
  forallb (fun g => negb (isPersistent g)) l1
  = forallb (fun g => negb (isPersistent g)) l2.
Proof.
  revert l2. induction l1 as [|f l1 IH]; intros [|g l2] H; try discriminate.
  - reflexivity.
  - cbn [map] in H. injection H as Hf H. cbn [forallb].
    rewrite Hf, (IH l2 H). reflexivity.
Qed.

Lemma persistentFirst_flags (l1 l2 : list Filter) :
  map isPersistent l1 = map isPersistent l2 ->
  persistentFirst l1 = persistentFirst l2.
Proof.
  revert l2. induction l1 as [|f l1 IH]; intros [|g l2] H; try discriminate.
  - reflexivity.
  - cbn [map] in H. injection H as Hf H. cbn [persistentFirst].
    rewrite Hf, (IH l2 H). destruct (isPersistent g); [reflexivity|].
    apply none_persistent_flags. exact H.
Qed.

Lemma none_persistent_first (l : list Filter) :
  forallb (fun g => negb (isPersistent g)) l = true -> persistentFirst l = true.
Proof.
  induction l as [|f l IH]; cbn [forallb persistentFirst]; [reflexivity|].
  intros H. apply andb_true_iff in H as [Hf H].
  destruct (isPersistent f); [discriminate|exact H].
Qed.

Lemma all_persistent_first (l : list Filter) :
  forallb isPersistent l = true -> persistentFirst l = true.
Proof.
  induction l as [|f l IH]; cbn [forallb persistentFirst]; [reflexivity|].
  intros H. apply andb_true_iff in H as [-> H]. auto.
Qed.

Lemma forallb_filter_from {A} (q : A -> bool) (p : A -> Z -> bool)
  (l : list A) (i : Z) :
  forallb q l = true -> forallb q (filter_from i p l) = true.
Proof.
  revert i. induction l as [|x l IH]; intros i H; cbn [filter_from];
    [reflexivity|].
  cbn [forallb] in H. apply andb_true_iff in H as [Hx H].
  destruct (p x i); cbn [forallb]; rewrite ?Hx, (IH _ H); reflexivity.
Qed.

Lemma persistentFirst_filter_from (p : Filter -> Z -> bool) (l : list Filter)
  (i : Z) :
  persistentFirst l = true -> persistentFirst (filter_from i p l) = true.
Proof.
  revert i. induction l as [|f l IH]; intros i H; cbn [filter_from];
    [reflexivity|].
  cbn [persistentFirst] in H. destruct (isPersistent f) eqn:Hf.
  - destruct (p f i); cbn [persistentFirst]; rewrite ?Hf; apply IH; exact H.
  - pose proof (forallb_filter_from _ p l (i + 1) H) as Hall.
    destruct (p f i); cbn [persistentFirst]; rewrite ?Hf;
      [exact Hall|apply none_persistent_first; exact Hall].
Qed.

Lemma persistentFirst_snoc (l : list Filter) (f : Filter) :
  persistentFirst l = true -> isPersistent f = false ->
  persistentFirst (l ++ [f]) = true.
Proof.
  intros H Hf. induction l as [|g l IH]; cbn [app persistentFirst].
  - rewrite Hf. reflexivity.
  - cbn [persistentFirst] in H. destruct (isPersistent g); [auto|].
    rewrite forallb_app, H. cbn. rewrite Hf. reflexivity.
Qed.

(** X11. Persistent filters stay at the front: when no persistent filter
    stands behind a filter that is not persistent, the same holds after
    [addFilter] (whether it returns or throws), after [removeFilter] and
    after [clear]. *)
Theorem persistent_filters_stay_in_front
  (filter : Filter) (index : Z) (c : Component) :
  persistentFirst (items (State.filters (state c))) = true ->
  persistentFirst (items (State.filters (state (snd (addFilter filter c)))))
  = true
  /\ persistentFirst
       (items (State.filters (state (snd (removeFilter index c))))) = true
  /\ persistentFirst (items (State.filters (state (snd (clear c))))) = true.
Proof.
  intros H. split; [|split].
  - destruct (in_dec (list_eq_dec N.eq_dec) (key filter)
                (map key (items (State.filters (state c))))) as [Hin | Hout].
    + destruct (addFilter_known_items filter c Hin)
        as (n & x & e & Hx & [-> | ->]); [exact H|].
      rewrite (persistentFirst_flags _ (items (State.filters (state c))));
        [exact H|].
      apply (set_nth_flags _ n x); [exact Hx|reflexivity].
    + rewrite (addFilter_new filter c Hout). cbn [snd state set_state
        with_focusedToken with_filters State.filters items].
      destruct (persistent filter) as [[|]|] eqn:Hp.
      * cbn [persistentFirst]. unfold isPersistent at 1. rewrite Hp. exact H.
      * apply persistentFirst_snoc; [exact H|].
        unfold isPersistent. rewrite Hp. reflexivity.
      * apply persistentFirst_snoc; [exact H|].
        unfold isPersistent. rewrite Hp. reflexivity.
  - destruct (removeFilter_result index c) as (_ & -> & _).
    apply persistentFirst_filter_from. exact H.
  - unfold clear, bind, this. cbn. apply all_persistent_first.
    apply forallb_forall. intros f Hf. apply filter_In in Hf as [_ Hf].
    unfold isPersistent. destruct (persistent f) as [[|]|];
      [reflexivity|discriminate|discriminate].
Qed.

Lemma persistent_filters_stay_in_front_witness :
  let p := mkFilter Include (lit "p") (Str (lit "1")) None (Some true) in
  let a := newFilter Include (lit "a") (lit "2") in
  let q := mkFilter Enum (lit "q") (Strs []) (Some []) (Some true) in
  persistentFirst [p; a] = true
  /\ persistentFirst
       (items (State.filters (state (snd (addFilter q (sample [p; a] []))))))
     = true
  /\ items (State.filters (state (snd (addFilter q (sample [p; a] [])))))
     = [q; p; a].
Proof.
  intros p a q. split; [reflexivity|].
  destruct (persistent_filters_stay_in_front q 0 (sample [p; a] []) eq_refl)
    as (H & _ & _).
  split; [exact H|reflexivity].
Defined.






(** X13. [replaceFilter] follows [splice]: an index inside the filters
    replaces the filter at that index and keeps the others in place; an index
    at or beyond their number appends the filter; a negative index counts
    from the end.  The focused token and the search term stay as they are. *)
Theorem replaceFilter_by_index (index : Z) (filter : Filter) (c : Component) :
  let filters := items (State.filters (state c)) in
  let after := state (snd (replaceFilter index filter c)) in
  fst (replaceFilter index filter c) = Returns tt
  /\ State.focusedToken after = State.focusedToken (state c)
  /\ State.searchTerm after = State.searchTerm (state c)
  /\ (forall k, index = Z.of_nat k -> (k < List.length filters)%nat ->
                items (State.filters after)
                = firstn k filters ++ filter :: skipn (S k) filters)
  /\ ((Z.of_nat (List.length filters) <= index)%Z ->
      items (State.filters after) = filters ++ [filter])
  /\ (forall j, index = (- Z.of_nat j)%Z ->
                (1 <= j <= List.length filters)%nat ->
                items (State.filters after)
                = firstn (List.length filters - j) filters
                  ++ filter :: skipn (S (List.length filters - j)) filters).
Proof.
  intros filters after.
  assert (E : items (State.filters after) = splice filters index 1 filter)
    by reflexivity.
  split; [reflexivity|]. split; [reflexivity|]. split; [reflexivity|].
  rewrite E. unfold splice. split; [|split].
  - intros k -> Hk.
    replace (Z.of_nat k <? 0)%Z with false by lia.
    replace (Z.to_nat (Z.min (Z.of_nat k) (Z.of_nat (List.length filters))))
      with k by lia.
    replace (Z.to_nat
               (Z.min (Z.of_nat k) (Z.of_nat (List.length filters))
                + Z.min (Z.max 1 0)
                    (Z.of_nat (List.length filters)
                     - Z.min (Z.of_nat k) (Z.of_nat (List.length filters)))))
      with (S k) by lia.
    reflexivity.
  - intros H.
    replace (index <? 0)%Z with false by lia.
    replace (Z.to_nat (Z.min index (Z.of_nat (List.length filters))))
      with (List.length filters) by lia.
    replace (Z.to_nat
               (Z.min index (Z.of_nat (List.length filters))
                + Z.min (Z.max 1 0)
                    (Z.of_nat (List.length filters)
                     - Z.min index (Z.of_nat (List.length filters)))))
      with (List.length filters) by lia.
    rewrite firstn_all, skipn_all. reflexivity.
  - intros j -> Hj.
    replace (- Z.of_nat j <? 0)%Z with true by lia.
    replace (Z.to_nat (Z.max (Z.of_nat (List.length filters) + - Z.of_nat j) 0))
      with (List.length filters - j)%nat by lia.
    replace (Z.to_nat
               (Z.max (Z.of_nat (List.length filters) + - Z.of_nat j) 0
                + Z.min (Z.max 1 0)
                    (Z.of_nat (List.length filters)
                     - Z.max (Z.of_nat (List.length filters) + - Z.of_nat j) 0)))
      with (S (List.length filters - j)) by lia.
    reflexivity.
Qed.

Lemma replaceFilter_by_index_witness :
  let a := newFilter Include (lit "a") (lit "1") in
  let b := newFilter Exclude (lit "b") (lit "2") in
  let x := newFilter Exclude (lit "a") (lit "1") in
  items (State.filters (state (snd (replaceFilter 0 x (sample [a; b] [])))))
  = [x; b]
  /\ items (State.filters (state (snd (replaceFilter 5 x (sample [a; b] [])))))
     = [a; b; x]
  /\ items (State.filters (state (snd (replaceFilter (-1) x (sample [a; b] [])))))
     = [a; x].
Proof.
  intros a b x.
  destruct (replaceFilter_by_index 0 x (sample [a; b] []))
    as (_ & _ & _ & H0 & _).
  destruct (replaceFilter_by_index 5 x (sample [a; b] []))
    as (_ & _ & _ & _ & H5 & _).
  destruct (replaceFilter_by_index (-1) x (sample [a; b] []))
    as (_ & _ & _ & _ & _ & Hm).
  split; [|split].
  - apply (H0 0%nat); [reflexivity|cbn; lia].
  - apply H5. cbn; lia.
  - apply (Hm 1%nat); [reflexivity|cbn; lia].
Defined.

Lemma In_filter_from {A} (p : A -> Z -> bool) (l : list A) (i : Z) (x : A) :
  In x (filter_from i p l) -> In x l.
Proof.
  revert i. induction l as [|y l IH]; intros i; cbn [filter_from]; [auto|].
  destruct (p y i); cbn [In]; intros H.
  - destruct H as [-> | H]; [left; reflexivity|right; eapply IH; exact H].
  - right; eapply IH; exact H.
Qed.

Lemma NoDup_keys_filter_from (p : Filter -> Z -> bool) (l : list Filter)
  (i : Z) :
  NoDup (map key l) -> NoDup (map key (filter_from i p l)).
Proof.
  revert i. induction l as [|x l IH]; intros i H; cbn [filter_from];
    [constructor|].
  cbn [map] in H. inversion H as [|? ? Hx Hl]; subst.
  destruct (p x i); [|apply IH; exact Hl].
  cbn [map]. constructor; [|apply IH; exact Hl].
  intros Hin. apply Hx. apply in_map_iff in Hin as (y & Ey & Hy).
  apply in_map_iff. exists y. split; [exact Ey|].
  eapply In_filter_from; exact Hy.
Qed.

Lemma NoDup_keys_filter (p : Filter -> bool) (l : list Filter) :
  NoDup (map key l) -> NoDup (map key (List.filter p l)).
Proof.
  induction l as [|x l IH]; intros H; cbn [List.filter]; [constructor|].
  cbn [map] in H. inversion H as [|? ? Hx Hl]; subst.
  destruct (p x); [|apply IH; exact Hl].
  cbn [map]. constructor; [|apply IH; exact Hl].
  intros Hin. apply Hx. apply in_map_iff in Hin as (y & Ey & Hy).
  apply in_map_iff. exists y. split; [exact Ey|].
  apply filter_In in Hy as [Hy _]. exact Hy.
Qed.

Lemma clear_result (c : Component) :
  clear c
  = (Returns tt,
     set_state
       (with_searchTerm []
          (with_filters
             (mkArray (fresh c)
                (List.filter
                   (fun f => isSome (persistent f)
                             && match persistent f with
                                | Some true => true
                                | _ => false
                                end)
                   (items (State.filters (state c)))))
             (state c)))
       (set_fresh (S (fresh c)) c)).
Proof. reflexivity. Qed.

(** X14. Pairwise distinct keys of the filters stay pairwise distinct under
    [removeFilter] and under [clear]. *)
Theorem remove_and_clear_keep_keys_unique (index : Z) (c : Component) :
  NoDup (keysOf c) ->
  NoDup (keysOf (snd (removeFilter index c)))
  /\ NoDup (keysOf (snd (clear c))).
Proof.
  unfold keysOf. intros H. split.
  - destruct (removeFilter_result index c) as (_ & -> & _).
    apply NoDup_keys_filter_from. exact H.
  - rewrite clear_result. cbn. apply NoDup_keys_filter. exact H.
Qed.

Lemma remove_and_clear_keep_keys_unique_witness :
  let a := newFilter Include (lit "a") (lit "1") in
  let b := newFilter Exclude (lit "b") (lit "2") in
  NoDup (keysOf (sample [a; b] []))
  /\ NoDup (keysOf (snd (removeFilter 0 (sample [a; b] []))))
  /\ NoDup (keysOf (snd (clear (sample [a; b] [])))).
Proof.
  intros a b.
  assert (H : NoDup (keysOf (sample [a; b] []))).
  { repeat constructor; cbn; intuition discriminate. }
  split; [exact H|].
  exact (remove_and_clear_keep_keys_unique 0 (sample [a; b] []) H).
Defined.

(** X15. [clear] is idempotent: a second [clear] leaves the filters and the
    search term as the first one left them. *)
Theorem clear_twice (c : Component) :
  let once := snd (clear c) in
  let twice := snd (clear once) in
  items (State.filters (state twice)) = items (State.filters (state once))
  /\ State.searchTerm (state twice) = State.searchTerm (state once)
  /\ State.focusedToken (state twice) = State.focusedToken (state c).
Proof.
  cbv zeta. rewrite !clear_result. cbn.
  split; [|repeat split].
  induction (items (State.filters (state c))) as [|f l IH]; [reflexivity|].
  cbn [List.filter]. destruct (persistent f) as [[|]|] eqn:Hp; cbn;
    rewrite ?Hp; cbn; rewrite ?IH; reflexivity.
Qed.

(** X16. Adding a filter with a new key and then removing the index at which
    it was put (0 for a persistent filter, the former number of filters for
    any other) gives back the filters as they were. *)
Theorem add_then_remove (filter : Filter) (c : Component) :
  ~ In (key filter) (keysOf c) ->
  let filters := items (State.filters (state c)) in
  let added := snd (addFilter filter c) in
  let index :=
    if isPersistent filter then 0%Z else Z.of_nat (List.length filters) in
  fst (addFilter filter c) = Returns tt
  /\ JS.get (items (State.filters (state added))) index = Some filter
  /\ items (State.filters (state (snd (removeFilter index added)))) = filters.
Proof.
  intros Hnew filters added index. unfold keysOf in Hnew.
  unfold added, index. rewrite (addFilter_new filter c Hnew).
  split; [reflexivity|].
  cbn [snd state set_state with_focusedToken with_filters State.filters items].
  unfold isPersistent. fold filters.
  destruct (persistent filter) as [[|]|].
  - split; [reflexivity|].
    destruct (removeFilter_result 0
                (set_state
                   (with_focusedToken (-1)
                      (with_filters (mkArray (fresh c) (filter :: filters))
                         (state c))) (set_fresh (S (fresh c)) c)))
      as (_ & -> & _).
    cbn [state set_state with_focusedToken with_filters State.filters items].
    unfold filteri. rewrite (filter_from_remove _ 0 0 0) by lia. reflexivity.
  - split.
    + rewrite get_of_nat, nth_error_app2, Nat.sub_diag by lia. reflexivity.
    + destruct (removeFilter_result (Z.of_nat (List.length filters))
                  (set_state
                     (with_focusedToken (-1)
                        (with_filters (mkArray (fresh c) (filters ++ [filter]))
                           (state c))) (set_fresh (S (fresh c)) c)))
        as (_ & -> & _).
      cbn [state set_state with_focusedToken with_filters State.filters items].
      unfold filteri.
      rewrite (filter_from_remove _ 0 _ (List.length filters)) by lia.
      rewrite firstn_app, Nat.sub_diag, firstn_all. cbn [firstn].
      rewrite skipn_all2 by (rewrite length_app; cbn; lia).
      rewrite !app_nil_r. reflexivity.
  - split.
    + rewrite get_of_nat, nth_error_app2, Nat.sub_diag by lia. reflexivity.
    + destruct (removeFilter_result (Z.of_nat (List.length filters))
                  (set_state
                     (with_focusedToken (-1)
                        (with_filters (mkArray (fresh c) (filters ++ [filter]))
                           (state c))) (set_fresh (S (fresh c)) c)))
        as (_ & -> & _).
      cbn [state set_state with_focusedToken with_filters State.filters items].
      unfold filteri.
      rewrite (filter_from_remove _ 0 _ (List.length filters)) by lia.
      rewrite firstn_app, Nat.sub_diag, firstn_all. cbn [firstn].
      rewrite skipn_all2 by (rewrite length_app; cbn; lia).
      rewrite !app_nil_r. reflexivity.
Qed.

Lemma add_then_remove_witness :
  let a := newFilter Include (lit "a") (lit "1") in
  let b := newFilter Exclude (lit "b") (lit "2") in
  ~ In (key b) (keysOf (sample [a] []))
  /\ items (State.filters
              (state (snd (removeFilter 1 (snd (addFilter b (sample [a] [])))))))
     = [a].
Proof.
  intros a b.
  assert (H : ~ In (key b) (keysOf (sample [a] []))).
  { cbn. intros [E | []]. discriminate E. }
  split; [exact H|].
  destruct (add_then_remove b (sample [a] []) H) as (_ & _ & E). exact E.
Defined.

End OpsFacts.

(** ** More on the keyboard *)

Module KeyboardFacts.

Import JS JSFacts Searchable KeyFacts OpsFacts.

Local Open Scope js_scope.

Lemma removeFilter_returns (index : Z) (c : Component) :
  fst (removeFilter index c) = Returns tt.
Proof. apply removeFilter_result. Qed.

(** The handler on a key other than Backspace returns. *)
Lemma onKeyDown_other_returns (platform : jsstring) (e : Event.t) (c : Component) :
  str_eqb (Event.key e) (lit "Backspace") = false ->
  fst (onKeyDown platform e c) = Returns tt.
Proof.
  intros Hk. unfold onKeyDown, bind, this. rewrite Hk. cbn [andb].
  destruct (str_eqb (Event.key e) (lit "f") && ctrlOrCmd platform e
            && isSome (_inputRef c)).
  { destruct (isSome (_inputRef c)); reflexivity. }
  destruct (str_eqb (Event.key e) (lit "Escape") && isSome (_inputRef c));
    [reflexivity|].
  destruct (str_eqb (Event.key e) (lit "Delete") && hasFocus c
            && (State.focusedToken (state c) >? -1)%Z);
    [apply removeFilter_returns|].
  destruct (str_eqb (Event.key e) (lit "Enter") && hasFocus c
            && isSome (_inputRef c)); [|reflexivity].
  destruct (_inputRef c); reflexivity.
Qed.

(** The handler on Backspace: it throws when it reads the last of no
    filters, and returns otherwise. *)
Lemma onKeyDown_backspace (platform : jsstring) (e : Event.t) (c : Component) :
  Event.key e = lit "Backspace" ->
  fst (onKeyDown platform e c)
  = if hasFocus c
       && Z.eqb (State.focusedToken (state c)) (-1)
       && str_eqb (State.searchTerm (state c)) []
       && isSome (_inputRef c)
       && match items (State.filters (state c)) with
          | [] => true
          | _ :: _ => false
          end
    then TypeError else Returns tt.
Proof.
  intros He. unfold onKeyDown, bind, this. rewrite He. key_tests.
  cbn [andb]. destruct (hasFocus c); [|reflexivity]. cbn [andb].
  destruct (Z.eqb (State.focusedToken (state c)) (-1)
            && str_eqb (State.searchTerm (state c)) []
            && isSome (_inputRef c)) eqn:Ht.
  - destruct (items (State.filters (state c))) as [|f l] eqn:El.
    + reflexivity.
    + destruct (exists_last (l := f :: l) ltac:(discriminate)) as (q & z & ->).
      unfold get. rewrite length_app. cbn [List.length].
      replace (Z.of_nat (List.length q + 1) - 1 <? 0)%Z with false by lia.
      replace (Z.to_nat (Z.of_nat (List.length q + 1) - 1))
        with (List.length q) by lia.
      rewrite nth_error_app2, Nat.sub_diag by lia. cbn [nth_error ret].
      rewrite andb_false_r.
      destruct (negb match persistent z with Some b => b | None => false end);
        [reflexivity|apply removeFilter_returns].
  - cbn -[removeFilter]. apply removeFilter_returns.
Qed.

(** X17. The keydown handler throws in one case only: Backspace when the
    search box has the focus, no token is focused, the search term is empty,
    the input is attached and there is no filter.  In every other case it
    returns. *)
Theorem onKeyDown_throws_iff (platform : jsstring) (e : Event.t) (c : Component) :
  (fst (onKeyDown platform e c) = TypeError
   <-> Event.key e = lit "Backspace"
       /\ State.hasFocus (state c) = true
       /\ State.focusedToken (state c) = (-1)%Z
       /\ State.searchTerm (state c) = []
       /\ _inputRef c <> None
       /\ items (State.filters (state c)) = [])
  /\ (fst (onKeyDown platform e c) <> TypeError ->
      fst (onKeyDown platform e c) = Returns tt).
Proof.
  assert (Hno : forall P : Prop, ~ P ->
            ((@Returns unit tt = TypeError <-> P)
             /\ (@Returns unit tt <> TypeError -> @Returns unit tt = Returns tt))).
  { intros P HP. split; [split; [discriminate|intros H; contradiction]|auto]. }
  destruct (str_eqb (Event.key e) (lit "Backspace")) eqn:Hk.
  - apply str_eqb_eq in Hk. rewrite (onKeyDown_backspace platform e c Hk).
    unfold hasFocus.
    destruct (Z.eqb_spec (State.focusedToken (state c)) (-1)) as [Hf | Hf];
      cbn [negb orb andb].
    + destruct (State.hasFocus (state c)) eqn:Hh; cbn [andb].
      * destruct (str_eqb (State.searchTerm (state c)) []) eqn:Hs; cbn [andb].
        -- apply str_eqb_eq in Hs.
           destruct (_inputRef c) as [input|]; cbn [isSome andb].
           ++ destruct (items (State.filters (state c))).
              ** split; [split; [intros _|reflexivity]|].
                 --- repeat split; auto. discriminate.
                 --- intros H; contradiction H; reflexivity.
              ** apply Hno. intros (_ & _ & _ & _ & _ & H); discriminate H.
           ++ apply Hno.
              intros (_ & _ & _ & _ & H & _); contradiction H; reflexivity.
        -- apply Hno. intros (_ & _ & _ & H & _).
           rewrite H in Hs. discriminate Hs.
      * apply Hno. intros (_ & H & _); discriminate H.
    + rewrite ?andb_false_r. cbn [andb]. apply Hno.
      intros (_ & _ & H & _); contradiction.
  - rewrite (onKeyDown_other_returns platform e c Hk). apply Hno.
    intros (H & _). rewrite H in Hk. discriminate Hk.
Qed.

(** What [addFilter] does to the filters depends on the props and on the
    filters only. *)
Lemma addFilter_agree (filter : Filter) (c c' : Component) :
  props c = props c' ->
  items (State.filters (state c)) = items (State.filters (state c')) ->
  fst (addFilter filter c) = fst (addFilter filter c')
  /\ props (snd (addFilter filter c)) = props (snd (addFilter filter c'))
  /\ items (State.filters (state (snd (addFilter filter c))))
     = items (State.filters (state (snd (addFilter filter c')))).
Proof.
  intros Hp Hl. unfold addFilter, bind, this. rewrite Hl, Hp.
  destruct (findIndex _ _ >? -1)%Z.
  - cbn [newArray]. destruct (defaultFilters (props c')) as [defaults|];
      [|cbn; auto].
    cbn [ret items]. destruct (get (items defaults) _) as [d|]; [|cbn; auto].
    destruct (FilterType_eqb (type d) Enum); [|cbn; auto].
    destruct (get (items (State.filters (state c'))) _) as [x|]; [|cbn; auto].
    destruct (FilterType_eqb (type x) Enum); cbn; auto.
  - cbn. auto.
Qed.

Lemma forEach_addFilter_agree (fs : list Filter) (c c' : Component) :
  props c = props c' ->
  items (State.filters (state c)) = items (State.filters (state c')) ->
  fst (forEach fs addFilter c) = fst (forEach fs addFilter c')
  /\ items (State.filters (state (snd (forEach fs addFilter c))))
     = items (State.filters (state (snd (forEach fs addFilter c')))).
Proof.
  revert c c'. induction fs as [|f fs IH]; intros c c' Hp Hl; cbn [forEach].
  - cbn. auto.
  - unfold bind. destruct (addFilter_agree f c c' Hp Hl) as (H1 & H2 & H3).
    destruct (addFilter f c) as [[u|] c1];
      destruct (addFilter f c') as [[u'|] c1']; cbn [fst snd] in *;
      try discriminate.
    + apply IH; assumption.
    + auto.
Qed.

Lemma matchTags_func_agree
  (searchTerm : jsstring) (matchEnd : bool) (c c' : Component) :
  props c = props c' ->
  items (State.filters (state c)) = items (State.filters (state c')) ->
  fst (matchTags_func searchTerm matchEnd c)
  = fst (matchTags_func searchTerm matchEnd c')
  /\ items (State.filters (state (snd (matchTags_func searchTerm matchEnd c))))
     = items (State.filters
                (state (snd (matchTags_func searchTerm matchEnd c')))).
Proof.
  intros Hp Hl. rewrite !AddFacts.matchTags_func_forEach.
  apply forEach_addFilter_agree; assumption.
Qed.

(** X18. Of the calls of the debounced [matchTags] before its timer ends,
    only the last one runs.  With the search box focused and the input
    attached: a change of the text after Enter replaces the commit, so that
    the function runs on the new text without [matchEnd]; Enter after a
    change of the text makes it run on the new text, which the input holds
    by then, with [matchEnd].  In either order the outcome and the filters
    afterwards are those of that one run on the component, the search term is
    the new text, and nothing is pending when the timer has ended. *)
Theorem last_call_of_matchTags_runs
  (platform : jsstring) (e : Event.t) (c : Component) (input : HTMLInputElement)
  (value : jsstring) :
  Event.key e = lit "Enter" ->
  State.hasFocus (state c) = true ->
  _inputRef c = Some input ->
  let enterThenChange :=
    (onKeyDown platform e ;; onChangeSearchTerm value ;; trailingEdge) c in
  let changeThenEnter :=
    (onChangeSearchTerm value ;; onKeyDown platform e ;; trailingEdge) c in
  (fst enterThenChange = fst (matchTags_func value false c)
   /\ items (State.filters (state (snd enterThenChange)))
      = items (State.filters (state (snd (matchTags_func value false c))))
   /\ State.searchTerm (state (snd enterThenChange)) = value
   /\ pending (snd enterThenChange) = None)
  /\ (fst changeThenEnter = fst (matchTags_func value true c)
      /\ items (State.filters (state (snd changeThenEnter)))
         = items (State.filters (state (snd (matchTags_func value true c))))
      /\ State.searchTerm (state (snd changeThenEnter)) = value
      /\ pending (snd changeThenEnter) = None).
Proof.
  intros He Hh Hi enterThenChange changeThenEnter.
  assert (Hf : forall c0 i, State.hasFocus (state c0) = true ->
                            _inputRef c0 = Some i ->
                            onKeyDown platform e c0
                            = (Returns tt,
                               set_pending (Some (input_value i, true)) c0)).
  { intros c0 i H0 H1. unfold onKeyDown, hasFocus, bind, this.
    rewrite He, H0, H1. key_tests. rewrite orb_true_r. reflexivity. }
  set (typed :=
         set_state (with_searchTerm value (state c))
           (set_inputRef (Some (mkInput value)) c)).
  assert (Hrun : forall matchEnd,
             let r := matchTags_func value matchEnd (set_pending None typed) in
             fst r = fst (matchTags_func value matchEnd c)
             /\ items (State.filters (state (snd r)))
                = items (State.filters
                           (state (snd (matchTags_func value matchEnd c))))
             /\ State.searchTerm (state (snd r)) = value
             /\ pending (snd r) = None).
  { intros matchEnd r.
    destruct (matchTags_func_agree value matchEnd (set_pending None typed) c
                eq_refl eq_refl) as [H1 H2].
    destruct (AddFacts.matchTags_func_surroundings value matchEnd
                (set_pending None typed)) as (_ & _ & Hp & _ & Hs & _).
    repeat split; assumption. }
  split.
  - assert (E : enterThenChange
                = matchTags_func value false (set_pending None typed)).
    { unfold enterThenChange. unfold bind at 1. rewrite (Hf c input Hh Hi).
      unfold onChangeSearchTerm, setInputValue, bind. cbn [_inputRef
        set_pending]. rewrite Hi. reflexivity. }
    rewrite E. apply Hrun.
  - assert (E : changeThenEnter
                = matchTags_func value true (set_pending None typed)).
    { unfold changeThenEnter. unfold bind at 1.
      unfold onChangeSearchTerm at 1. unfold setInputValue, bind at 1.
      rewrite Hi. cbn [setState matchTags setPending bind].
      unfold bind at 1.
      rewrite (Hf _ (mkInput value)) by (cbn; auto). reflexivity. }
    rewrite E. apply Hrun.
Qed.

Lemma last_call_of_matchTags_runs_witness :
  let c := sample [] (lit "a:1") in
  let enter := Event.make (lit "Enter") false false in
  items (State.filters
           (state (snd ((onKeyDown (lit "linux") enter ;;
                         onChangeSearchTerm (lit "a:1x") ;; trailingEdge) c))))
  = []
  /\ items (State.filters
              (state (snd ((onChangeSearchTerm (lit "a:1x") ;;
                            onKeyDown (lit "linux") enter ;; trailingEdge) c))))
     = [newFilter Include (lit "a") (lit "1x")].
Proof.
  intros c enter.
  destruct (last_call_of_matchTags_runs (lit "linux") enter c
              (mkInput (lit "a:1")) (lit "a:1x") eq_refl eq_refl eq_refl)
    as ((_ & H1 & _) & (_ & H2 & _)).
  rewrite H1, H2. split; vm_compute; reflexivity.
Defined.

End KeyboardFacts.

(** ** More on the update of the component *)

Module UpdateFacts.

Import JS JSFacts Searchable FilterFacts PersistFacts.

Local Open Scope js_scope.

Lemma In_set_nth_self {A} (l : list A) (n : nat) (x z : A) :
  nth_error l n = Some x -> In z (set_nth l n z).
Proof.
  revert n. induction l as [|y l IH]; intros [|n] H; try discriminate.
  - left; reflexivity.
  - right; eapply IH; exact H.
Qed.

Lemma In_set_nth_other {A} (l : list A) (n : nat) (x y z : A) :
  In x l -> nth_error l n = Some y -> y <> x -> In x (set_nth l n z).
Proof.
  revert n. induction l as [|w l IH]; intros [|n] Hx Hn Hne; try discriminate.
  - destruct Hx as [-> | Hx]; [|right; exact Hx].
    injection Hn as ->. contradiction Hne; reflexivity.
  - destruct Hx as [-> | Hx]; [left; reflexivity|].
    right; eapply IH; eauto.
Qed.

(** One step of the merge: the keys. *)
Lemma mergeDefault_keys (l : list Filter) (d : Filter) :
  (In (key d) (map key l) -> map key (mergeDefault l d) = map key l)
  /\ (~ In (key d) (map key l) ->
      map key (mergeDefault l d) = map key l ++ [key d])
  /\ In d (mergeDefault l d)
  /\ (forall x, In x l -> key x <> key d -> In x (mergeDefault l d)).
Proof.
  unfold mergeDefault.
  destruct (in_dec (list_eq_dec N.eq_dec) (key d) (map key l)) as [Hin | Hout].
  - destruct (key_present d l Hin) as (n & x & Hn & Hx & Hk).
    rewrite Hn. replace (Z.of_nat n >? -1)%Z with true by lia.
    rewrite Nat2Z.id.
    split; [|split; [contradiction|split]].
    + intros _. apply (set_nth_keys l n x d Hx). congruence.
    + eapply In_set_nth_self; exact Hx.
    + intros y Hy Hne. eapply In_set_nth_other; eauto. congruence.
  - rewrite (key_absent d l Hout). cbn.
    split; [contradiction|split; [|split]].
    + intros _. apply map_app.
    + apply in_or_app; right; left; reflexivity.
    + intros y Hy _. apply in_or_app; left; exact Hy.
Qed.

Lemma merge_keys (defaults l : list Filter) :
  (exists extra, map key (fold_left mergeDefault defaults l) = map key l ++ extra)
  /\ (forall d, In d defaults ->
                In (key d) (map key (fold_left mergeDefault defaults l)))
  /\ (NoDup (map key l) -> NoDup (map key (fold_left mergeDefault defaults l)))
  /\ (NoDup (map key defaults) ->
      forall d, In d defaults -> In d (fold_left mergeDefault defaults l)).
Proof.
  revert l. induction defaults as [|d ds IH]; intros l; cbn [fold_left].
  - split; [exists []; rewrite app_nil_r; reflexivity|].
    split; [intros d []|]. split; [auto|intros _ d []].
  - destruct (mergeDefault_keys l d) as (Hin & Hout & Hself & Hother).
    destruct (IH (mergeDefault l d)) as ((extra & He) & Hall & Hnd & Hmem).
    assert (Hgrow : forall k, In k (map key (mergeDefault l d)) ->
                              In k (map key (fold_left mergeDefault ds
                                               (mergeDefault l d)))).
    { intros k Hk. rewrite He. apply in_or_app; left; exact Hk. }
    split; [|split; [|split]].
    + destruct (in_dec (list_eq_dec N.eq_dec) (key d) (map key l)) as [H | H].
      * exists extra. rewrite He, (Hin H). reflexivity.
      * exists (key d :: extra). rewrite He, (Hout H), <- app_assoc.
        reflexivity.
    + intros x [<- | Hx]; [|apply Hall; exact Hx].
      apply Hgrow. apply in_map. exact Hself.
    + intros H. apply Hnd.
      destruct (in_dec (list_eq_dec N.eq_dec) (key d) (map key l)) as [H' | H'].
      * rewrite (Hin H'). exact H.
      * rewrite (Hout H'). apply NoDup_snoc; assumption.
    + intros H x Hx. cbn [map] in H. inversion H as [|? ? Hd Hds]; subst.
      destruct Hx as [<- | Hx]; [|apply Hmem; assumption].
      clear - Hself Hd.
      revert Hself. generalize (mergeDefault l d). clear l.
      induction ds as [|d' ds IH]; intros l Hl; cbn [fold_left]; [exact Hl|].
      apply IH.
      * intros H. apply Hd. right; exact H.
      * destruct (mergeDefault_keys l d') as (_ & _ & _ & Hother).
        apply Hother; [exact Hl|]. intros E. apply Hd. left. symmetry; exact E.
Qed.

Lemma componentDidUpdate_cases
  (toUpperCase : jsstring -> jsstring)
  (prevProps : Props) (prevState : State.t) (c : Component) :
  componentDidUpdate toUpperCase prevProps prevState c
  = if truthy (getTableKey toUpperCase c) && stateChanged prevState c
    then (Returns tt,
          set_log
            (log c
             ++ setItem (getPersistKey toUpperCase c)
                  (State.searchTerm (state c))
                  (items (State.filters (state c)))
                :: (if onFilterChange (props c)
                    then [callOnFilterChange (State.filters (state c))]
                    else [])) c)
    else if differ (defaultFilters prevProps) (defaultFilters (props c))
    then match defaultFilters (props c) with
         | Some defaults =>
             (Returns tt,
              set_state
                (with_filters
                   (mkArray (fresh c)
                      (fold_left mergeDefault (items defaults)
                         (items (State.filters (state c)))))
                   (state c))
                (set_fresh (S (fresh c)) c))
         | None => (TypeError, set_fresh (S (fresh c)) c)
         end
    else (Returns tt, c).
Proof.
  unfold componentDidUpdate, bind, this, stateChanged. cbn [differ].
  destruct (truthy (getTableKey toUpperCase c)
            && (negb (str_eqb (State.searchTerm prevState)
                        (State.searchTerm (state c)))
                || negb (Nat.eqb (ref (State.filters prevState))
                           (ref (State.filters (state c)))))).
  - destruct (onFilterChange (props c));
      cbv beta iota delta [emit ret set_log log props state _inputRef pending
                           fresh];
      rewrite <- ?app_assoc; reflexivity.
  - destruct (differ (defaultFilters prevProps) (defaultFilters (props c)));
      [|reflexivity].
    cbn. destruct (defaultFilters (props c)); reflexivity.
Qed.

(** X19. When [componentDidUpdate] does not persist and the array of the
    default filters is a new one, the default filters are merged into the
    filters: the call returns and leaves the search term as it is; the keys
    of the filters stay in place and the keys of default filters that were
    missing follow them; every default filter has its key among the filters;
    pairwise distinct keys stay pairwise distinct; and when the default
    filters have pairwise distinct keys, each of them is one of the
    filters. *)
Theorem default_filters_merged
  (toUpperCase : jsstring -> jsstring)
  (prevProps : Props) (prevState : State.t) (c : Component)
  (defaults : FilterArray) :
  truthy (getTableKey toUpperCase c) && stateChanged prevState c = false ->
  differ (defaultFilters prevProps) (defaultFilters (props c)) = true ->
  defaultFilters (props c) = Some defaults ->
  let filters := items (State.filters (state c)) in
  let after := snd (componentDidUpdate toUpperCase prevProps prevState c) in
  let merged := items (State.filters (state after)) in
  fst (componentDidUpdate toUpperCase prevProps prevState c) = Returns tt
  /\ State.searchTerm (state after) = State.searchTerm (state c)
  /\ (exists extra, map key merged = map key filters ++ extra)
  /\ (forall d, In d (items defaults) -> In (key d) (map key merged))
  /\ (NoDup (map key filters) -> NoDup (map key merged))
  /\ (NoDup (map key (items defaults)) ->
      forall d, In d (items defaults) -> In d merged).
Proof.
  intros Hp Hd Hs filters after merged.
  unfold merged, after. rewrite componentDidUpdate_cases, Hp, Hd, Hs.
  cbn [fst snd state set_state with_filters State.filters items log set_fresh
       State.searchTerm].
  split; [reflexivity|]. split; [reflexivity|].
  apply merge_keys.
Qed.

Lemma default_filters_merged_witness :
  let a := newFilter Include (lit "a") (lit "1") in
  let a' := mkFilter Enum (lit "a") (Strs []) (Some [lit "x"]) (Some true) in
  let d := mkFilter Enum (lit "d") (Strs []) (Some [lit "y"]) (Some true) in
  let b := newFilter Exclude (lit "b") (lit "2") in
  let c :=
    mkComponent (mkProps None None false (Some (mkArray 5 [d; a'])))
      (State.make (mkArray 0 [a; b]) (-1) [] false) None None 6 [] in
  fst (componentDidUpdate asciiUpper (mkProps None None false None)
         (state c) c) = Returns tt
  /\ items (State.filters
              (state (snd (componentDidUpdate asciiUpper
                             (mkProps None None false None) (state c) c))))
     = [a'; b; d].
Proof.
  intros a a' d b c.
  destruct (default_filters_merged asciiUpper (mkProps None None false None)
              (state c) c (mkArray 5 [d; a']) eq_refl eq_refl eq_refl)
    as (H & _).
  split; [exact H|reflexivity].
Defined.


(** X21. Two components with a [tableKey] prop that have the same storage
    key have the same [tableKey]: tables with different table keys never
    share an item of local storage. *)
Theorem persist_key_injective
  (toUpperCase : jsstring -> jsstring) (c1 c2 : Component) :
  truthy (tableKey (props c1)) = true ->
  truthy (tableKey (props c2)) = true ->
  getPersistKey toUpperCase c1 = getPersistKey toUpperCase c2 ->
  tableKey (props c1) = tableKey (props c2).
Proof.
  unfold getPersistKey, getTableKey. intros H1 H2. rewrite H1, H2.
  destruct (tableKey (props c1)) as [[|x1 k1]|]; try discriminate.
  destruct (tableKey (props c2)) as [[|x2 k2]|]; try discriminate.
  cbn [orEmpty truthy]. intros E. apply app_inv_head in E. rewrite E.
  reflexivity.
Qed.

Lemma persist_key_injective_witness :
  let c1 := sampleTable (mkProps (Some (lit "logs")) None false None) in
  let c2 :=
    sampleTable (mkProps (Some (lit "logs")) (Some [lit "time"]) true None) in
  getPersistKey asciiUpper c1 = getPersistKey asciiUpper c2
  /\ tableKey (props c1) = tableKey (props c2).
Proof.
  intros c1 c2. split; [reflexivity|].
  apply (persist_key_injective asciiUpper c1 c2); reflexivity.
Defined.

End UpdateFacts.

(** ** Mounting: the saved state *)

Module MountFacts.

Import JS JSFacts Searchable FilterFacts UpdateFacts.

Local Open Scope js_scope.

(** The state that [componentDidMount] sets from a saved state. *)
Lemma restored_state (searchTerm : jsstring) (filters : FilterArray)
  (c : Component) :
  setState
    (fun s =>
       State.make filters (State.focusedToken s)
         (match searchTerm with
          | _ :: _ => searchTerm
          | [] => State.searchTerm s
          end)
         (State.hasFocus s)) c
  = (Returns tt,
     set_state
       (State.make filters (State.focusedToken (state c))
          (match searchTerm with
           | _ :: _ => searchTerm
           | [] => State.searchTerm (state c)
           end)
          (State.hasFocus (state c))) c).
Proof. reflexivity. Qed.

(** [componentDidMount] case by case. *)
Lemma componentDidMount_cases
  (toUpperCase : jsstring -> jsstring) (item : Stored) (w : Mounted) :
  let c := component w in
  let k := getPersistKey toUpperCase c in
  componentDidMount toUpperCase item w
  = if truthy (getTableKey toUpperCase c) then
      match item with
      | NoItem =>
          (Returns tt, mkMounted c (calls w ++ [addKeydownListener; getItem k]))
      | Unparsable =>
          (Returns tt,
           mkMounted c
             (calls w ++ [addKeydownListener; getItem k; removeItem k]))
      | Saved searchTerm filters =>
          let c1 := set_fresh (S (fresh c)) c in
          let restore (merged : list Filter) (c2 : Component) :=
            set_state
              (State.make (mkArray (fresh c) merged)
                 (State.focusedToken (state c2))
                 (match searchTerm with
                  | _ :: _ => searchTerm
                  | [] => State.searchTerm (state c2)
                  end)
                 (State.hasFocus (state c2))) c2 in
          match defaultFilters (props c) with
          | None =>
              (Returns tt,
               mkMounted (restore filters c1)
                 (calls w ++ [addKeydownListener; getItem k]))
          | Some defaults =>
              match foldM mergeSaved (items defaults) filters c1 with
              | (Returns merged, c2) =>
                  (Returns tt,
                   mkMounted (restore merged c2)
                     (calls w ++ [addKeydownListener; getItem k]))
              | (TypeError, c2) =>
                  (TypeError,
                   mkMounted c2 (calls w ++ [addKeydownListener; getItem k]))
              end
          end
      end
    else (Returns tt, mkMounted c (calls w ++ [addKeydownListener])).
Proof.
  intros c k. unfold componentDidMount, bindL, call, liftL, this, retL.
  cbn [component calls].
  fold c. destruct (truthy (getTableKey toUpperCase c)) eqn:Ht.
  - fold k. destruct item as [| |searchTerm filters].
    + cbn [component calls]. rewrite <- app_assoc. reflexivity.
    + cbn [component calls]. rewrite <- !app_assoc. reflexivity.
    + cbn [component calls newArray]. rewrite <- app_assoc. cbn [app].
      destruct (defaultFilters (props c)) as [defaults|].
      * cbn [component calls items ref].
        destruct (foldM mergeSaved (items defaults) filters
                    (set_fresh (S (fresh c)) c)) as [[merged|] c2];
          reflexivity.
      * reflexivity.
  - reflexivity.
Qed.

Lemma In_set_nth_inv {A} (l : list A) (n : nat) (x z : A) :
  In x (set_nth l n z) -> x = z \/ In x l.
Proof.
  revert n. induction l as [|y l IH]; intros [|n] H; cbn [set_nth] in H;
    try (right; exact H).
  - destruct H as [<- | H]; [left; reflexivity|right; right; exact H].
  - destruct H as [<- | H]; [right; left; reflexivity|].
    destruct (IH n H) as [-> | H']; [left; reflexivity|right; right; exact H'].
Qed.

Lemma NoDup_key_unique (l : list Filter) (x y : Filter) :
  NoDup (map key l) -> In x l -> In y l -> key x = key y -> x = y.
Proof.
  induction l as [|z l IH]; intros Hnd Hx Hy E; [destruct Hx|].
  cbn [map] in Hnd. inversion Hnd as [|? ? Hz Hl]; subst.
  destruct Hx as [-> | Hx], Hy as [-> | Hy]; auto.
  - contradiction Hz. rewrite E. apply in_map; exact Hy.
  - contradiction Hz. rewrite <- E. apply in_map; exact Hx.
Qed.

(** One call of the callback of [defaultFilters.forEach]. *)
Lemma mergeSaved_cases (l : list Filter) (d : Filter) (c : Component) :
  (~ In (key d) (map key l) -> mergeSaved l d c = (Returns l, c))
  /\ (In (key d) (map key l) ->
      exists n x,
        nth_error l n = Some x /\ key x = key d
        /\ mergeSaved l d c
           = (match enum (withDefaultEnum x d), value x with
              | Some entries, Strs values =>
                  Returns
                    (set_nth l n
                       (set_value (withDefaultEnum x d)
                          (Strs (List.filter
                                   (fun v => existsb (str_eqb v) entries)
                                   values))))
              | _, _ => TypeError
              end, c)).
Proof.
  split; intros H; unfold mergeSaved.
  - rewrite (key_absent d l H). reflexivity.
  - destruct (key_present d l H) as (n & x & Hn & Hx & Hk).
    exists n, x. split; [exact Hx|split; [exact Hk|]].
    rewrite Hn. replace (Z.of_nat n >? -1)%Z with true by lia.
    rewrite get_of_nat, Hx, Nat2Z.id. unfold withDefaultEnum.
    destruct (FilterType_eqb (type d) Enum).
    + cbn [enum set_enum value]. destruct (enum d); [|reflexivity].
      destruct (value x); reflexivity.
    + destruct (enum x); [|reflexivity]. destruct (value x); reflexivity.
Qed.

Lemma mergeSaved_component (l : list Filter) (d : Filter) (c : Component) :
  snd (mergeSaved l d c) = c.
Proof.
  destruct (mergeSaved_cases l d c) as [Hout Hin].
  destruct (in_dec (list_eq_dec N.eq_dec) (key d) (map key l)) as [H | H].
  - destruct (Hin H) as (n & x & _ & _ & ->). reflexivity.
  - rewrite (Hout H). reflexivity.
Qed.

Lemma foldM_mergeSaved_component (ds l : list Filter) (c : Component) :
  snd (foldM mergeSaved ds l c) = c.
Proof.
  revert l. induction ds as [|d ds IH]; intros l; cbn [foldM]; [reflexivity|].
  unfold bind. pose proof (mergeSaved_component l d c) as H.
  destruct (mergeSaved l d c) as [[r|] c1]; cbn [snd] in H; subst c1.
  - apply IH.
  - reflexivity.
Qed.

(** Default filters whose keys are not saved leave the saved filters. *)
Lemma foldM_mergeSaved_disjoint (ds l : list Filter) (c : Component) :
  (forall d, In d ds -> ~ In (key d) (map key l)) ->
  foldM mergeSaved ds l c = (Returns l, c).
Proof.
  induction ds as [|d ds IH]; intros H; cbn [foldM]; [reflexivity|].
  unfold bind.
  rewrite (proj1 (mergeSaved_cases l d c) (H d (or_introl eq_refl))).
  apply IH. intros d' Hd'. apply H. right; exact Hd'.
Qed.

(** One call that returns: the keys stay, the filters of other keys stay,
    and the filter of the key of the default filter has its values within
    its [enum]. *)
Lemma mergeSaved_returns (l r : list Filter) (d : Filter) (c c' : Component) :
  NoDup (map key l) ->
  mergeSaved l d c = (Returns r, c') ->
  map key r = map key l
  /\ (forall g, In g r -> key g <> key d -> In g l)
  /\ (forall g, In g l -> key g <> key d -> In g r)
  /\ (forall g, In g r -> key g = key d ->
        valuesWithinEnum g
        /\ (type d = Enum -> enum g = enum d)).
Proof.
  intros Hnd H. destruct (mergeSaved_cases l d c) as [Hout Hin].
  destruct (in_dec (list_eq_dec N.eq_dec) (key d) (map key l)) as [Hk | Hk].
  - destruct (Hin Hk) as (n & x & Hx & Ekey & E). rewrite E in H. clear E.
    destruct (enum (withDefaultEnum x d)) as [entries|] eqn:Ee;
      [|discriminate].
    destruct (value x) as [|values] eqn:Ev; [discriminate|].
    injection H as <- <-.
    set (z := set_value (withDefaultEnum x d)
                (Strs (List.filter (fun v => existsb (str_eqb v) entries)
                         values))).
    assert (Ez : key z = key x).
    { unfold z, withDefaultEnum.
      destruct (FilterType_eqb (type d) Enum); reflexivity. }
    destruct (set_nth_keys l n x z Hx Ez) as [Hkeys _].
    assert (Hz : valuesWithinEnum z
                 /\ (type d = Enum -> enum z = enum d)).
    { split.
      - exists entries,
          (List.filter (fun v => existsb (str_eqb v) entries) values).
        split; [exact Ee|split; [reflexivity|]].
        intros v Hv. apply filter_In in Hv as [_ Hv].
        apply existsb_exists in Hv as (e & He & Hve).
        apply str_eqb_eq in Hve. subst e. exact He.
      - intros Et. unfold z, withDefaultEnum. rewrite Et. reflexivity. }
    split; [exact Hkeys|split; [|split]].
    + intros g Hg Hne. destruct (In_set_nth_inv l n g z Hg) as [-> | Hl];
        [|exact Hl]. contradiction Hne. congruence.
    + intros g Hg Hne. eapply In_set_nth_other; eauto. congruence.
    + intros g Hg Eg.
      assert (g = z) as ->; [|exact Hz].
      apply (NoDup_key_unique (set_nth l n z)).
      * rewrite Hkeys. exact Hnd.
      * exact Hg.
      * eapply In_set_nth_self; exact Hx.
      * congruence.
  - rewrite (Hout Hk) in H. injection H as <- <-.
    split; [reflexivity|split; [auto|split; [auto|]]].
    intros g Hg Eg. contradiction Hk. rewrite <- Eg. apply in_map; exact Hg.
Qed.

(** The whole [forEach], when it returns. *)
Lemma foldM_mergeSaved_returns (ds l r : list Filter) (c c' : Component) :
  NoDup (map key l) ->
  foldM mergeSaved ds l c = (Returns r, c') ->
  map key r = map key l
  /\ (forall g, In g r -> (forall d, In d ds -> key g <> key d) -> In g l)
  /\ (forall g d, In g r -> In d ds -> key g = key d -> valuesWithinEnum g)
  /\ (NoDup (map key ds) ->
      forall g d, In g r -> In d ds -> key g = key d -> type d = Enum ->
                  enum g = enum d).
Proof.
  revert l. induction ds as [|d ds IH]; intros l Hnd H; cbn [foldM] in H.
  - injection H as <- <-.
    split; [reflexivity|split; [auto|split; [intros g d _ []|]]].
    intros _ g d _ [].
  - unfold bind in H.
    destruct (mergeSaved l d c) as [[r1|] c1] eqn:E1; [|discriminate].
    destruct (mergeSaved_returns l r1 d c c1 Hnd E1)
      as (Hk1 & Hback1 & _ & Hshape1).
    pose proof (mergeSaved_component l d c) as Hc. rewrite E1 in Hc.
    cbn [snd] in Hc. subst c1.
    assert (Hnd1 : NoDup (map key r1)) by (rewrite Hk1; exact Hnd).
    destruct (IH r1 Hnd1 H) as (Hk & Hback & Hshape & Henum).
    split; [congruence|split; [|split]].
    + intros g Hg Hne. apply Hback1.
      * apply Hback; [exact Hg|]. intros d' Hd'. apply Hne. right; exact Hd'.
      * apply Hne. left; reflexivity.
    + intros g d' Hg Hd' Eg.
      destruct (in_dec (list_eq_dec N.eq_dec) (key g) (map key ds))
        as [Hin | Hout].
      * apply in_map_iff in Hin as (d2 & E2 & Hd2).
        apply (Hshape g d2 Hg Hd2). congruence.
      * destruct Hd' as [<- | Hd'].
        -- apply (Hshape1 g); [|exact Eg].
           apply Hback; [exact Hg|]. intros d2 Hd2 E2. apply Hout.
           rewrite E2. apply in_map; exact Hd2.
        -- contradiction Hout. rewrite Eg. apply in_map; exact Hd'.
    + intros Hds g d' Hg Hd' Eg Et. cbn [map] in Hds.
      inversion Hds as [|? ? Hd Hds']; subst.
      destruct Hd' as [<- | Hd'].
      * apply (Hshape1 g); [|exact Eg|exact Et].
        apply Hback; [exact Hg|]. intros d2 Hd2 E2. apply Hd.
        rewrite <- Eg, E2. apply in_map; exact Hd2.
      * apply (Henum Hds' g d'); assumption.
Qed.

(** A saved filter with a string value and the key of a default filter
    stops the [forEach]. *)
Lemma foldM_mergeSaved_throws
  (ds l : list Filter) (x d : Filter) (v : jsstring) (c : Component) :
  NoDup (map key l) -> In x l -> value x = Str v ->
  In d ds -> key d = key x ->
  foldM mergeSaved ds l c = (TypeError, c).
Proof.
  revert l. induction ds as [|d0 ds IH]; intros l Hnd Hx Hv Hd Ek;
    [destruct Hd|].
  cbn [foldM]. unfold bind.
  destruct (list_eq_dec N.eq_dec (key d0) (key x)) as [E0 | N0].
  - destruct (proj2 (mergeSaved_cases l d0 c)) as (n & y & Hy & Eky & ->).
    { rewrite E0. apply in_map; exact Hx. }
    assert (y = x) as ->.
    { apply (NoDup_key_unique l); auto.
      - eapply nth_error_In; exact Hy.
      - congruence. }
    rewrite Hv. destruct (enum (withDefaultEnum x d0)); reflexivity.
  - destruct Hd as [-> | Hd]; [contradiction|].
    pose proof (mergeSaved_component l d0 c) as Hc.
    destruct (mergeSaved l d0 c) as [[r1|] c1] eqn:E1; cbn [snd] in Hc;
      subst c1; [|reflexivity].
    destruct (mergeSaved_returns l r1 d0 c c Hnd E1) as (Hk1 & _ & Hfwd & _).
    apply (IH r1); [|apply Hfwd; [exact Hx|congruence]|exact Hv|exact Hd
                   |exact Ek].
    rewrite Hk1; exact Hnd.
Qed.

(** X22. [componentDidMount] first registers the keydown listener; it reads
    local storage, once and under the key of the component, exactly when the
    component has a table key; it removes the item exactly when the text
    there cannot be parsed.  This holds also when the method throws.  Without
    a table key, without an item or with an item that cannot be parsed, the
    method returns and leaves the component as it is. *)
Theorem componentDidMount_host_calls
  (toUpperCase : jsstring -> jsstring) (item : Stored) (w : Mounted) :
  let c := component w in
  let k := getPersistKey toUpperCase c in
  let r := componentDidMount toUpperCase item w in
  calls (snd r)
  = calls w
    ++ addKeydownListener
       :: (if truthy (getTableKey toUpperCase c)
           then getItem k
                :: match item with
                   | Unparsable => [removeItem k]
                   | _ => []
                   end
           else [])
  /\ (truthy (getTableKey toUpperCase c) = false
      \/ (forall searchTerm filters, item <> Saved searchTerm filters) ->
      fst r = Returns tt /\ component (snd r) = c).
Proof.
  intros c k r. unfold r. rewrite componentDidMount_cases. cbv zeta.
  fold c k.
  destruct (truthy (getTableKey toUpperCase c)).
  - destruct item as [| |searchTerm filters].
    + split; [reflexivity|]. intros _; split; reflexivity.
    + split; [reflexivity|]. intros _; split; reflexivity.
    + split.
      * destruct (defaultFilters (props c)) as [defaults|]; [|reflexivity].
        destruct (foldM mergeSaved (items defaults) filters
                    (set_fresh (S (fresh c)) c)) as [[merged|] c2];
          reflexivity.
      * intros [H | H]; [discriminate|].
        contradiction (H searchTerm filters). reflexivity.
  - split; [reflexivity|]. intros _; split; reflexivity.
Qed.

Lemma componentDidMount_host_calls_witness :
  let w :=
    mkMounted (sampleTable (mkProps (Some (lit "t")) None false None)) [] in
  calls (snd (componentDidMount asciiUpper Unparsable w))
  = [addKeydownListener;
     getItem (lit "SEARCHABLE_STORAGE_KEY_t");
     removeItem (lit "SEARCHABLE_STORAGE_KEY_t")]
  /\ component (snd (componentDidMount asciiUpper Unparsable w)) = component w.
Proof.
  intros w.
  destruct (componentDidMount_host_calls asciiUpper Unparsable w) as [H1 H2].
  split; [exact H1|].
  apply H2. right. intros searchTerm filters; discriminate.
Defined.

(** X23. Round trip through local storage.  When [componentDidUpdate]
    persists the state of a component, it writes one item; a new component
    with the same props that is mounted on this item has the search term and
    the filters that were written, and has read the item under the key it was
    written under.  This needs that no default filter has the key of one of
    the filters; without default filters it always holds. *)
Theorem saved_state_round_trip
  (toUpperCase : jsstring -> jsstring)
  (prevProps : Props) (prevState : State.t) (c : Component) (n : nat) :
  truthy (getTableKey toUpperCase c) = true ->
  stateChanged prevState c = true ->
  (forall defaults d,
     defaultFilters (props c) = Some defaults -> In d (items defaults) ->
     ~ In (key d) (keysOf c)) ->
  exists k searchTerm filters rest,
    log (snd (componentDidUpdate toUpperCase prevProps prevState c))
    = log c ++ setItem k searchTerm filters :: rest
    /\ let r := componentDidMount toUpperCase (Saved searchTerm filters)
                  (mkMounted (construct (props c) n) []) in
       fst r = Returns tt
       /\ calls (snd r) = [addKeydownListener; getItem k]
       /\ State.searchTerm (state (component (snd r)))
          = State.searchTerm (state c)
       /\ items (State.filters (state (component (snd r))))
          = items (State.filters (state c)).
Proof.
  intros Hk Hs Hd.
  exists (getPersistKey toUpperCase c), (State.searchTerm (state c)),
    (items (State.filters (state c))),
    (if onFilterChange (props c)
     then [callOnFilterChange (State.filters (state c))] else []).
  split.
  { rewrite componentDidUpdate_cases, Hk, Hs. reflexivity. }
  intros r. unfold r. rewrite componentDidMount_cases. cbv zeta.
  cbn [component calls app].
  assert (Hp : props (construct (props c) n) = props c).
  { unfold construct. destruct (defaultFilters (props c)); reflexivity. }
  assert (Ht : getTableKey toUpperCase (construct (props c) n)
               = getTableKey toUpperCase c).
  { unfold getTableKey. rewrite Hp. reflexivity. }
  assert (Hkey : getPersistKey toUpperCase (construct (props c) n)
                 = getPersistKey toUpperCase c).
  { unfold getPersistKey. rewrite Ht. reflexivity. }
  assert (Hterm : State.searchTerm (state (construct (props c) n)) = []).
  { unfold construct. destruct (defaultFilters (props c)); reflexivity. }
  rewrite Ht, Hk, Hkey, Hp.
  destruct (defaultFilters (props c)) as [defaults|] eqn:Ed.
  - rewrite foldM_mergeSaved_disjoint
      by (intros d Hin; exact (Hd defaults d eq_refl Hin)).
    cbn [fst snd component calls state set_state set_fresh State.searchTerm
         State.filters items].
    rewrite Hterm.
    repeat split; destruct (State.searchTerm (state c)); reflexivity.
  - cbn [fst snd component calls state set_state set_fresh State.searchTerm
         State.filters items].
    rewrite Hterm.
    repeat split; destruct (State.searchTerm (state c)); reflexivity.
Qed.

Lemma saved_state_round_trip_witness :
  let c := sampleTable (mkProps (Some (lit "t")) None false None) in
  exists k searchTerm filters rest,
    log (snd (componentDidUpdate asciiUpper (props c) sampleBefore c))
    = log c ++ setItem k searchTerm filters :: rest
    /\ let r := componentDidMount asciiUpper (Saved searchTerm filters)
                  (mkMounted (construct (props c) 0) []) in
       fst r = Returns tt
       /\ calls (snd r) = [addKeydownListener; getItem k]
       /\ State.searchTerm (state (component (snd r)))
          = State.searchTerm (state c)
       /\ items (State.filters (state (component (snd r))))
          = items (State.filters (state c)).
Proof.
  intros c.
  apply (saved_state_round_trip asciiUpper (props c) sampleBefore c 0).
  - reflexivity.
  - reflexivity.
  - intros defaults d H. discriminate H.
Defined.

(** X24. [componentDidMount] throws a [TypeError], and sets no state, when
    the saved filters (with pairwise distinct keys) hold a filter whose
    value is a string, as the filters made from the text of the search box
    are, and a default filter has its key: the method calls [filter] on the
    string, or [map] on a missing [enum]. *)
Theorem componentDidMount_throws_on_string_value
  (toUpperCase : jsstring -> jsstring)
  (searchTerm : jsstring) (filters : list Filter) (w : Mounted)
  (defaults : FilterArray) (saved defaultFilter : Filter) (v : jsstring) :
  truthy (getTableKey toUpperCase (component w)) = true ->
  defaultFilters (props (component w)) = Some defaults ->
  NoDup (map key filters) ->
  In saved filters -> value saved = Str v ->
  In defaultFilter (items defaults) -> key defaultFilter = key saved ->
  let r := componentDidMount toUpperCase (Saved searchTerm filters) w in
  fst r = TypeError
  /\ state (component (snd r)) = state (component w).
Proof.
  intros Hk Hd Hnd Hin Hv Hdef Ekey r. unfold r.
  rewrite componentDidMount_cases. cbv zeta. rewrite Hk, Hd.
  rewrite (foldM_mergeSaved_throws (items defaults) filters saved defaultFilter
             v _ Hnd Hin Hv Hdef Ekey).
  split; reflexivity.
Qed.

Lemma componentDidMount_throws_on_string_value_witness :
  let d := mkFilter Enum (lit "a") (Strs []) (Some [lit "x"]) (Some true) in
  let a := newFilter Include (lit "a") (lit "1") in
  let w :=
    mkMounted
      (sampleTable
         (mkProps (Some (lit "t")) None false (Some (mkArray 5 [d])))) [] in
  fst (componentDidMount asciiUpper (Saved [] [a]) w) = TypeError
  /\ state (component (snd (componentDidMount asciiUpper (Saved [] [a]) w)))
     = state (component w).
Proof.
  intros d a w.
  apply (componentDidMount_throws_on_string_value asciiUpper [] [a] w
           (mkArray 5 [d]) a d (lit "1")).
  - reflexivity.
  - reflexivity.
  - repeat constructor. intros [].
  - left; reflexivity.
  - reflexivity.
  - left; reflexivity.
  - reflexivity.
Defined.

(** X25. When [componentDidMount] returns from merging the default filters
    into saved filters with pairwise distinct keys, the filters of the state
    have the keys of the saved filters in their order; a filter whose key is
    that of no default filter is a saved filter as it was; a filter whose key
    is that of a default filter has an [enum] and has only values of this
    [enum]; and when the default filters have pairwise distinct keys, its
    [enum] is that of the default filter if this one is an enum filter. *)
Theorem componentDidMount_values_within_enum
  (toUpperCase : jsstring -> jsstring)
  (searchTerm : jsstring) (filters : list Filter) (w : Mounted)
  (defaults : FilterArray) :
  truthy (getTableKey toUpperCase (component w)) = true ->
  defaultFilters (props (component w)) = Some defaults ->
  NoDup (map key filters) ->
  let r := componentDidMount toUpperCase (Saved searchTerm filters) w in
  let restored := items (State.filters (state (component (snd r)))) in
  fst r = Returns tt ->
  map key restored = map key filters
  /\ (forall g, In g restored ->
        (forall d, In d (items defaults) -> key g <> key d) -> In g filters)
  /\ (forall g d, In g restored -> In d (items defaults) -> key g = key d ->
        valuesWithinEnum g)
  /\ (NoDup (map key (items defaults)) ->
      forall g d, In g restored -> In d (items defaults) -> key g = key d ->
                  type d = Enum -> enum g = enum d).
Proof.
  intros Hk Hd Hnd r restored. unfold restored, r.
  rewrite componentDidMount_cases. cbv zeta. rewrite Hk, Hd.
  destruct (foldM mergeSaved (items defaults) filters
              (set_fresh (S (fresh (component w))) (component w)))
    as [[merged|] c2] eqn:E; [|discriminate].
  intros _.
  cbn [fst snd component state set_state State.filters items].
  exact (foldM_mergeSaved_returns _ _ _ _ _ Hnd E).
Qed.

Lemma componentDidMount_values_within_enum_witness :
  let d :=
    mkFilter Enum (lit "a") (Strs []) (Some [lit "x"; lit "y"]) (Some true) in
  let a :=
    mkFilter Enum (lit "a") (Strs [lit "x"; lit "z"]) (Some [lit "z"]) None in
  let w :=
    mkMounted
      (sampleTable
         (mkProps (Some (lit "t")) None false (Some (mkArray 5 [d])))) [] in
  let g :=
    mkFilter Enum (lit "a") (Strs [lit "x"]) (Some [lit "x"; lit "y"]) None in
  items (State.filters
           (state (component
                     (snd (componentDidMount asciiUpper (Saved [] [a]) w)))))
  = [g]
  /\ valuesWithinEnum g.
Proof.
  intros d a w g.
  destruct (componentDidMount_values_within_enum asciiUpper [] [a] w
              (mkArray 5 [d]) eq_refl eq_refl)
    as (_ & _ & H & _).
  - repeat constructor. intros [].
  - reflexivity.
  - split; [reflexivity|].
    apply (H g d); [left; reflexivity|left; reflexivity|reflexivity].
Defined.

End MountFacts.

(** ** Focus and the keyboard *)

Module FocusFacts.

Import JS JSFacts Searchable KeyFacts FilterFacts OpsFacts.

Local Open Scope js_scope.

(** Backspace in the focused, empty search box whose last token is not
    persistent. *)
Lemma backspace_focuses_last
  (platform : jsstring) (e : Event.t) (c : Component) (input : HTMLInputElement)
  (front : list Filter) (last : Filter) :
  Event.key e = lit "Backspace" ->
  _inputRef c = Some input ->
  State.hasFocus (state c) = true ->
  State.focusedToken (state c) = (-1)%Z ->
  State.searchTerm (state c) = [] ->
  items (State.filters (state c)) = front ++ [last] ->
  persistent last <> Some true ->
  onKeyDown platform e c
  = (Returns tt,
     set_state (with_focusedToken (Z.of_nat (List.length front)) (state c))
       (set_log (log c ++ [blur]) c)).
Proof.
  intros He Hi Hf Ht Hs Hl Hp.
  unfold onKeyDown, hasFocus, bind, this. rewrite He, Hf, Ht, Hs, Hi, Hl.
  cbn [str_eqb lit]. cbn -[Z.of_nat Z.sub].
  unfold get. rewrite length_app. cbn [List.length].
  replace (Z.of_nat (List.length front + 1) - 1 <? 0)%Z with false by lia.
  replace (Z.to_nat (Z.of_nat (List.length front + 1) - 1))
    with (List.length front) by lia.
  rewrite nth_error_app2, Nat.sub_diag by lia. cbn [nth_error].
  replace (Z.of_nat (List.length front + 1) - 1)%Z
    with (Z.of_nat (List.length front)) by lia.
  destruct (persistent last) as [[|]|]; [congruence| |]; reflexivity.
Qed.

(** Backspace and Delete with a token focused call [removeFilter]. *)
Lemma keys_remove_focused
  (platform : jsstring) (e : Event.t) (c : Component) (k : nat) :
  Event.key e = lit "Backspace" \/ Event.key e = lit "Delete" ->
  State.focusedToken (state c) = Z.of_nat k ->
  onKeyDown platform e c = removeFilter (Z.of_nat k) c.
Proof.
  intros He Hk. unfold onKeyDown, hasFocus, bind, this. rewrite Hk.
  replace (Z.of_nat k =? -1)%Z with false by lia.
  replace (Z.of_nat k >? -1)%Z with true by lia.
  destruct He as [-> | ->]; cbn; reflexivity.
Qed.

Lemma without_last {A} (front : list A) (last : A) :
  firstn (List.length front) (front ++ [last])
  ++ skipn (S (List.length front)) (front ++ [last])
  = front.
Proof.
  rewrite firstn_app, firstn_all, Nat.sub_diag. cbn [firstn].
  rewrite skipn_all2 by (rewrite length_app; cbn; lia).
  rewrite !app_nil_r. reflexivity.
Qed.

(** X26. Two Backspaces in the empty search box remove the last filter.
    After [onInputFocus], with the input attached, an empty search term and
    a last filter that is not persistent, the first Backspace focuses the
    last token; the second one, whatever the [hasFocus] flag of the search
    box is by then, returns, removes that token and keeps the filters before
    it; no token is focused afterwards and the search term is still
    empty. *)
Theorem two_backspaces_remove_last_filter
  (platform : jsstring) (e : Event.t) (c : Component) (input : HTMLInputElement)
  (front : list Filter) (last : Filter) (h : bool) :
  Event.key e = lit "Backspace" ->
  _inputRef c = Some input ->
  State.searchTerm (state c) = [] ->
  items (State.filters (state c)) = front ++ [last] ->
  persistent last <> Some true ->
  let c1 := snd (onInputFocus c) in
  let c2 := snd (onKeyDown platform e c1) in
  let c3 :=
    set_state
      (State.make (State.filters (state c2)) (State.focusedToken (state c2))
         (State.searchTerm (state c2)) h) c2 in
  let r := onKeyDown platform e c3 in
  State.focusedToken (state c2) = Z.of_nat (List.length front)
  /\ items (State.filters (state c2)) = front ++ [last]
  /\ fst r = Returns tt
  /\ items (State.filters (state (snd r))) = front
  /\ State.focusedToken (state (snd r)) = (-1)%Z
  /\ State.searchTerm (state (snd r)) = [].
Proof.
  intros He Hi Hs Hl Hp c1 c2 c3 r.
  assert (E2 : c2
               = set_state
                   (with_focusedToken (Z.of_nat (List.length front)) (state c1))
                   (set_log (log c1 ++ [blur]) c1)).
  { unfold c2.
    rewrite (backspace_focuses_last platform e c1 input front last);
      auto. }
  assert (E3 : onKeyDown platform e c3
               = removeFilter (Z.of_nat (List.length front)) c3).
  { apply keys_remove_focused; [left; exact He|].
    unfold c3. rewrite E2. reflexivity. }
  unfold r. rewrite E3.
  rewrite (removeFilter_at (List.length front) c3 input)
    by (unfold c3; rewrite E2; exact Hi).
  rewrite E2.
  cbn [fst snd state set_state set_log with_focusedToken with_filters
       State.filters State.focusedToken State.searchTerm items log].
  unfold c3. rewrite E2.
  cbn [fst snd state set_state set_log with_focusedToken with_filters
       State.filters State.focusedToken State.searchTerm items log
       c1 onInputFocus setState].
  unfold c1, onInputFocus, setState.
  cbn [fst snd state set_state set_log with_focusedToken with_filters
       State.filters State.focusedToken State.searchTerm items log].
  rewrite Hl, without_last, Hs.
  repeat split.
Qed.

Lemma two_backspaces_remove_last_filter_witness :
  let a := newFilter Include (lit "a") (lit "1") in
  let b := newFilter Exclude (lit "b") (lit "2") in
  let e := Event.make (lit "Backspace") false false in
  let c2 := snd (onKeyDown (lit "linux") e (snd (onInputFocus (sample [a; b] [])))) in
  let c3 :=
    set_state
      (State.make (State.filters (state c2)) (State.focusedToken (state c2))
         (State.searchTerm (state c2)) false) c2 in
  items (State.filters (state (snd (onKeyDown (lit "linux") e c3)))) = [a].
Proof.
  intros a b e c2 c3.
  destruct (two_backspaces_remove_last_filter (lit "linux") e
              (sample [a; b] []) (mkInput []) [a] b false
              eq_refl eq_refl eq_refl eq_refl)
    as (_ & _ & _ & H & _).
  - discriminate.
  - exact H.
Defined.

(** X27. A token that [onTokenFocus] has focused is removed by Backspace and
    by Delete, whether or not it is persistent, whether or not the input is
    attached: the other filters stay in their order and no token is focused
    afterwards.  Once [onTokenBlur] has taken the focus from the token,
    Delete does nothing. *)
Theorem focused_token_is_removed
  (platform : jsstring) (e : Event.t) (c : Component) (k : nat) :
  Event.key e = lit "Backspace" \/ Event.key e = lit "Delete" ->
  let filters := items (State.filters (state c)) in
  let focused := snd (onTokenFocus (Z.of_nat k) c) in
  let r := onKeyDown platform e focused in
  fst r = Returns tt
  /\ items (State.filters (state (snd r)))
     = firstn k filters ++ skipn (S k) filters
  /\ State.focusedToken (state (snd r)) = (-1)%Z
  /\ State.searchTerm (state (snd r)) = State.searchTerm (state c)
  /\ (Event.key e = lit "Delete" ->
      onKeyDown platform e (snd (onTokenBlur focused))
      = (Returns tt, snd (onTokenBlur focused))).
Proof.
  intros He filters focused r.
  assert (E : onKeyDown platform e focused
              = removeFilter (Z.of_nat k) focused).
  { apply keys_remove_focused; [exact He|reflexivity]. }
  unfold r. rewrite E.
  destruct (removeFilter_result (Z.of_nat k) focused)
    as (H1 & H2 & H3 & H4 & _).
  split; [exact H1|split; [|split; [exact H3|split; [exact H4|]]]].
  - rewrite H2. unfold filteri.
    apply (filter_from_remove _ 0 (Z.of_nat k) k). lia.
  - intros Hd. unfold onKeyDown, hasFocus, bind, this. rewrite Hd.
    cbn [str_eqb lit]. key_tests.
    cbn -[removeFilter matchTags]. rewrite Bool.andb_false_r. reflexivity.
Qed.

Lemma focused_token_is_removed_witness :
  let p := mkFilter Enum (lit "p") (Strs []) (Some [lit "x"]) (Some true) in
  let a := newFilter Include (lit "a") (lit "1") in
  let e := Event.make (lit "Delete") false false in
  items (State.filters
           (state (snd (onKeyDown (lit "linux") e
                          (snd (onTokenFocus 0 (sample [p; a] [])))))))
  = [a].
Proof.
  intros p a e.
  destruct (focused_token_is_removed (lit "linux") e (sample [p; a] []) 0%nat
              (or_intror eq_refl))
    as (_ & H & _).
  exact H.
Defined.

End FocusFacts.
